(* ===== verification/_CoqProject ===== *)
-Q . S2P
Prelude.v
JsString.v
Utf8.v
Utf8Steps.v
WebApi.v
UriEncode.v
FormUrlencoded.v
Url.v
Runtime.v
Fetch.v
Favicon.v
Html.v
Router.v
Worker.v
