(* ===== verification/Prelude.v ===== *)
(** * emojicon.online: a verification development of src/src/index.ts

    ** The program

    The repository is a Cloudflare worker of one file, [src/src/index.ts].
    Its [fetch] entry point (lines 17 to 21) hands every request to
    [handleSvg] (lines 23 to 37), which parses the request URL, lower-cases
    its pathname, reads the [emoji] and [color] query parameters (defaults
    ['🌍'] and ['skyblue'] when missing or empty) and dispatches on the exact
    path: ['/svg'] to [serveSvg] (lines 39 to 45), which answers the icon
    markup of [generateFaviconSVG] (lines 60 to 67) as [image/svg+xml];
    ['/'] to [serveHtml] (lines 47 to 54), which answers the page of
    [generateHtmlResponse] (lines 69 to 127), a template that embeds the
    icon markup and links to [/svg] with the glyph and colour written by
    [encodeURIComponent]; and any other path to [serveNotFound] (lines 56
    to 58), a fixed 404 text.  The code relies on the runtime for the
    string iterator ([[...emoji]]), [toLowerCase], [encodeURIComponent],
    [url.searchParams] and the [Response] constructor; these are modelled
    from their standards (ECMA-262, the WHATWG URL, Encoding and Fetch
    Standards) because the theorems depend on them: the link the page
    writes with one is read back by the other.

    ** The files

    - [Prelude] (this file): strings as lists of UTF-16 code units
      ([jsstr], a [list Z]) and [lit] with the notation [«"..."»] in
      [js_scope] for template text (the backquote stands for the double
      quote); contiguous substrings ([infix], decided by [is_infix]); the
      result type [throws] (a value or a URIError, RangeError or
      TypeError) with stdpp's monad notation; bit lemmas on [Z]; the hint
      databases [jsauto] and [zbits]; tactics [invc], [zcase], [infix_auto],
      [zlia], [lit_eval].
    - [JsString] (Module [Utf16]): the string iterator [code_points]
      (CodePointAt), UTF-16 encoding, [well_formed]
      (IsStringWellFormedUnicode), the USVString conversion [to_usv] and
      the ASCII [to_lower] of line 25.
    - [Utf8] (Module [Utf8]): the WHATWG UTF-8 encoder and the UTF-8
      decoder as a state machine ([dstate], [decode_byte]) in replacement
      mode, with its invariant [dinv].
    - [Utf8Steps] (Module [Utf8Steps]): the decoder's run (read a byte,
      hand it to the handler, until end-of-queue) as a small-step
      relation [dstep] on configurations, [steps n] and [final].
    - [WebApi] (Module [WebApi]): the interface between the page renderer,
      the router and the runtime: [Class UrlCodec] ([encode_component],
      [search_params]) and [Class UrlCodecLaws], with [params_get]
      (URLSearchParams.get, lines 27 and 28).
    - [UriEncode] (Module [UriEncode]): [encode_uri_component], the
      code-unit loop of ECMA-262 Encode, and [encode_spec], its
      specification over code points.
    - [FormUrlencoded] (Module [FormUrlencoded]): the
      application/x-www-form-urlencoded parser of the URL Standard
      ([percent_decode], [parse_form], [url_search_params], line 26).
    - [Url] (Module [Url]): [new URL(request.url)] after the host: the
      path start, path and query states of the URL parser
      ([parse_after_host]), with dot segments, backslashes and the path
      and special-query percent-encode sets.
    - [Runtime] (Module [Runtime]): the instance [runtime_codec] of
      [UrlCodec] by the two models and the proof [runtime_codec_laws] of
      its laws.
    - [Fetch] (Module [Fetch]): [new Response(body, init)] of lines 42,
      51 and 57, as the Fetch Standard defines it: the WebIDL conversion
      of the init dictionary ([convert_init]: the status an
      [unsigned short], the header names and values and the status text
      ByteStrings), the [Headers] object of guard "response"
      ([headers_append], [headers_fill]: value normalisation, name and
      value validation, forbidden response-header names, the spelling of
      a repeated name), the constructor ([initialize_response]) and the
      body's bytes ([body_bytes], the UTF-8 encoding of the body).
    - [Favicon] (Module [Favicon]): [generateFaviconSVG], with
      [emoji_length] (line 62), [font_size] (line 65), [number_to_string]
      (the conversion of the font size in the template) and the template
      pieces [svg_t0] to [svg_t3].
    - [Html] (Module [Html], Section [Renderer]): [generateHtmlResponse]
      over any [UrlCodec], the template of lines 71 to 127 transcribed
      code unit for code unit as [html_t0] to [html_t6] and the five
      [encodeURIComponent] calls in source order.
    - [Router] (Module [Router], Sections [Handler] and [Handler_laws]):
      the [Request] record,
      [request_emoji] and [request_color] (lines 27 and 28), [serveSvg],
      [serveHtml], [serveNotFound] and [handleSvg].
    - [Worker] (Module [Worker]): the empty [Env] interface (lines 1 to
      16), the request as the worker receives it
      ([HttpRequest], its URL split at the end of the host), the parsed
      URL as [handleSvg] reads it ([url_request], line 24) and the
      worker's [fetch] (lines 17 to 21), which takes [env] and a [ctx]
      of an abstract [ExecutionContext] and runs [handleSvg] over
      [runtime_codec]; the properties of the deployed worker and the
      witnesses of the claims proved against the interface.

    Every operation is a total function; an operation that can raise
    returns [throws], and [serveHtml] threads the exceptions of
    [generateHtmlResponse] with the monad's bind, in source order.

    ** The theorems

    - The router (Router): [handleSvg] never throws; the responses of the
      three routes; case-insensitive matching; following the page's
      "Generate Favicon" link returns exactly the icon the page previews;
      a missing or empty parameter acts as its default, for every path
      and query.
    - The [Response] constructor (Fetch): its result and its errors on
      every branch (RangeError for the status, TypeError for ByteStrings,
      the status text, the headers and null-body statuses), and the body's
      UTF-8 bytes decode back to the body; the header list of every
      response it returns is valid and normalised (invariant).
    - The runtime models: [encode_uri_component] equals its code-point
      specification (equivalence), throws exactly on lone surrogates and
      writes only safe ASCII; the form parser inverts encoding (round
      trip) and yields well-formed strings; the UTF-8 decoder preserves its
      invariant at every step, emits only scalar values and inverts the
      encoder; its run (Utf8Steps) resolves an open sequence within the
      bytes it still needs (liveness), and it emits between one code
      point per four bytes and one per byte (bounds); [encodeURIComponent] writes between one
      and nine code units per code unit (bounds); the string iterator is
      lossless; the URL parser yields an
      ASCII pathname starting with [/], is idempotent, and its query
      encoding is invisible to [searchParams].
    - The renderers: the font size is 50 exactly for one code point (so
      a glyph with a variation selector, one character on screen, gets
      40, unlike the comment of line 61); where the icon template puts
      the colour, the font size and the glyph; the page renderer throws
      exactly when glyph or colour is ill formed, with the URIError of
      [encodeURIComponent], and otherwise writes the links.
    - The worker (Worker): following the absolute link of the code
      sample, through the URL parser, returns exactly the previewed icon;
      the page's own favicon link; and the findings, for all inputs:
      every non-empty glyph reaches the page unescaped (a script element
      can be injected through [?emoji=]), and the URL parser removes a
      segment followed by a double-dot segment and reads a backslash as a
      slash before routing.

    ** Bounds and fuel

    JavaScript numbers appear only as the font size (50 or 40) and as
    HTTP statuses, so [Z] is exact; the status of a [ResponseInit] is an
    [unsigned short], kept at its width by [Fetch.to_unsigned_short]
    (modulo 2^16).  [number_to_string n] runs
    [decimal_digits] with fuel [n + 1]: each step divides by 10, so the
    fuel always outlasts the digits ([Favicon.number_to_string_value]
    proves the result for every [n >= 0]).  All other recursion is
    structural on lists; the decoder's run is a relation, and its
    termination is proved ([Utf8Steps.decode_from_refines_steps]).

    ** Not modelled

    - The scheme, credentials, host and port states of the URL parser:
      the worker reads neither, and the runtime hands it a valid [http]
      or [https] URL; the model starts after the host.  The host parser
      could not be modelled faithfully in any case: its domain-to-ASCII
      step is UTS 46 processing, which needs the Unicode IDNA mapping
      and normalisation tables.  The fragment is
      dropped (the handler never reads it).
    - [toLowerCase] beyond ASCII: [Utf16.to_lower] maps only A to Z.
      This is exact on the pathnames the URL parser yields, which are
      printable ASCII ([Url.url_components_shape]).
    - The [async]/[Promise] wrapper of [fetch] and [handleSvg]: nothing is
      awaited, so the promise settles with the value the model computes,
      and a thrown error would reject it (the handler throws none).
      The methods of [ExecutionContext] are never called, so its type
      stays abstract.
    - Of the Fetch Standard: the sequence form of [HeadersInit] and the
      other guards of [Headers] (the source passes object literals to a
      response's headers); the body is kept as the string it was
      extracted from, with its bytes [Fetch.body_bytes], not as a
      stream; non-integral or non-finite statuses (the source writes
      none). *)

(** ** Shared vocabulary *)

From Stdlib Require Export ZArith Lia String Ascii.
From stdpp Require Export base list decidable.

Open Scope Z_scope.

Declare Scope js_scope.
Delimit Scope js_scope with js.

(** ** JavaScript strings *)

(** A JavaScript string value is a sequence of 16-bit code units; a code
    unit is a [Z] in [0, 0xFFFF].  The same representation holds code points
    (in [0, 0x10FFFF]) and bytes (in [0, 0xFF]). *)
Abbreviation jsstr := (list Z) (only parsing).

(** The source's template literals are transcribed as Rocq string literals.
    A Rocq string cannot hold a double quote on its own, and the templates
    contain no backquote (it delimits them), so in a transcription the
    backquote stands for the double quote [U+0022]. *)
Definition lit_char (c : ascii) : Z :=
  if Ascii.eqb c "`"%char then 34 else Z.of_nat (nat_of_ascii c).

Fixpoint lit (s : string) : jsstr :=
  match s with
  | EmptyString => []
  | String c s' => lit_char c :: lit s'
  end.

Notation "« s »" := (lit s%string) (s at level 0, format "« s »") : js_scope.
Open Scope js_scope.

Definition is_ascii (s : jsstr) : bool :=
  forallb (fun u => (0 <=? u) && (u <? 128)) s.

(** ** Contiguous substrings *)

Definition infix (t s : jsstr) : Prop := exists a b, s = a ++ t ++ b.

Fixpoint is_infix (t s : jsstr) : bool :=
  match s with
  | [] => bool_decide (t = [])
  | _ :: s' => bool_decide (t `prefix_of` s) || is_infix t s'
  end.

(** ** Results of code that may throw *)

(** The JavaScript exceptions the modelled code can raise. *)
Inductive exn : Type :=
| URIError    (* encodeURIComponent on a lone surrogate *)
| RangeError  (* Response constructed with a status outside 200..599 *)
| TypeError.  (* Response: a ByteString, header, status text or null-body status error *)

Inductive throws (A : Type) : Type :=
| Ok (a : A)
| Throw (e : exn).
Arguments Ok {A} a.
Arguments Throw {A} e.

#[export] Instance throws_ret : MRet throws := fun _ a => Ok a.
#[export] Instance throws_bind : MBind throws :=
  fun _ _ f m => match m with Ok a => f a | Throw e => Throw e end.
#[export] Instance throws_fmap : FMap throws :=
  fun _ _ f m => match m with Ok a => Ok (f a) | Throw e => Throw e end.

Definition is_ok {A} (m : throws A) : bool :=
  match m with Ok _ => true | Throw _ => false end.

(** ** Lemmas on literals, substrings and results *)

Lemma lit_app s1 s2 : lit (s1 ++ s2)%string = lit s1 ++ lit s2.
Proof. induction s1 as [|c s1 IH]; simpl; [done|]. by rewrite IH. Qed.

Lemma infix_refl t : infix t t.
Proof. exists [], []. by rewrite app_nil_r. Qed.

Lemma infix_app_l t s u : infix t s -> infix t (u ++ s).
Proof. intros (a & b & ->). exists (u ++ a), b. by rewrite app_assoc. Qed.

Lemma infix_app_r t s u : infix t s -> infix t (s ++ u).
Proof. intros (a & b & ->). exists a, (b ++ u). by rewrite !app_assoc. Qed.

Lemma infix_trans t s u : infix t s -> infix s u -> infix t u.
Proof.
  intros (a & b & ->) (c & d & ->). exists (c ++ a), (b ++ d).
  by rewrite !app_assoc.
Qed.

Lemma infix_middle t a b : infix t (a ++ t ++ b).
Proof. by exists a, b. Qed.

Lemma infix_suffix t s : t `suffix_of` s -> infix t s.
Proof. intros [k ->]. exists k, []. by rewrite app_nil_r. Qed.

Lemma infix_cons_iff t x s : infix t (x :: s) <-> t `prefix_of` x :: s \/ infix t s.
Proof.
  split.
  - intros ([|y a] & b & Hs); simpl in Hs.
    + left. exists b. done.
    + right. injection Hs as -> ->. by exists a, b.
  - intros [[b Hb] | Ht].
    + exists [], b. done.
    + by apply (infix_app_l _ _ [x]).
Qed.

Lemma is_infix_spec t s : is_infix t s = true <-> infix t s.
Proof.
  induction s as [|x s IH]; simpl.
  - rewrite bool_decide_eq_true. split.
    + intros ->. exact (infix_refl []).
    + intros (a & b & H). destruct a, t; simpl in H; congruence.
  - rewrite orb_true_iff, bool_decide_eq_true, IH. symmetry. apply infix_cons_iff.
Qed.

#[export] Instance infix_dec t s : Decision (infix t s).
Proof.
  destruct (is_infix t s) eqn:E; [left | right]; rewrite <- is_infix_spec;
    [done | by rewrite E].
Defined.

Lemma bind_Ok {A B} (a : A) (f : A -> throws B) : (Ok a ≫= f) = f a.
Proof. done. Qed.

Lemma bind_Throw {A B} e (f : A -> throws B) : (Throw e ≫= f) = Throw e.
Proof. done. Qed.

Lemma bind_Ok_inv {A B} (m : throws A) (f : A -> throws B) b :
  (m ≫= f) = Ok b -> exists a, m = Ok a /\ f a = Ok b.
Proof. destruct m; simpl; [eauto | done]. Qed.

Lemma bind_Throw_inv {A B} (m : throws A) (f : A -> throws B) e :
  (m ≫= f) = Throw e -> m = Throw e \/ exists a, m = Ok a /\ f a = Throw e.
Proof. destruct m; simpl; [eauto | intros [= ->]; by left]. Qed.

(** [mapM] in [throws] fails with the error of the first element that
    fails. *)
Lemma mapM_Throw_inv {A B} (f : A -> throws B) l e :
  mapM f l = Throw e -> exists x, x ∈ l /\ f x = Throw e.
Proof.
  induction l as [|x l IH]; cbn; [done|].
  intros [Hx|(y & _ & Hr)]%bind_Throw_inv; [exists x; split; [left|done]|].
  destruct (mapM f l) eqn:Hl; cbn in Hr; [done|]. injection Hr as ->.
  destruct (IH eq_refl) as (z & Hz & Hf). exists z. split; [by right|done].
Qed.

(** ** Bit-level arithmetic used by the UTF-8 codec *)

Lemma land_ones_mod a k : 0 <= k -> Z.land a (2 ^ k - 1) = a mod 2 ^ k.
Proof. intros Hk. rewrite <- Z.land_ones by done. f_equal. by rewrite Z.ones_equiv, Z.sub_1_r. Qed.

Lemma lor_shiftl_low a b k :
  0 <= k -> 0 <= b < 2 ^ k -> Z.lor (Z.shiftl a k) b = a * 2 ^ k + b.
Proof.
  intros Hk Hb. rewrite Z.shiftl_mul_pow2 by done.
  rewrite <- Z.add_nocarry_lor; [done|].
  apply Z.bits_inj'. intros i Hi. rewrite Z.land_spec, Z.bits_0.
  destruct (Z.lt_ge_cases i k).
  - by rewrite Z.mul_pow2_bits_low.
  - rewrite andb_comm. replace b with (b mod 2 ^ k) by (apply Z.mod_small; lia).
    rewrite Z.mod_pow2_bits_high by lia; done.
Qed.

Lemma shiftr_div a k : 0 <= k -> Z.shiftr a k = a / 2 ^ k.
Proof. apply Z.shiftr_div_pow2. Qed.

(** ** Automation *)

Create HintDb jsauto discriminated.

#[export] Hint Resolve infix_refl infix_middle infix_app_l infix_app_r : jsauto.

(** [infix_auto] proves that a piece of a concatenation is a substring of
    it, by the [jsauto] hints (without unfolding the pieces). *)
Ltac infix_auto := solve [eauto 16 with jsauto nocore].

(** [invc H] inverts [H] and cleans up. *)
Ltac invc H := inversion H; subst; clear H.


(** The masks and shifts of the UTF-8 codec, as arithmetic. *)
Lemma land_3F b : Z.land b 0x3F = b mod 64.
Proof. exact (land_ones_mod b 6 ltac:(lia)). Qed.
Lemma land_1F b : Z.land b 0x1F = b mod 32.
Proof. exact (land_ones_mod b 5 ltac:(lia)). Qed.
Lemma land_0F b : Z.land b 0xF = b mod 16.
Proof. exact (land_ones_mod b 4 ltac:(lia)). Qed.
Lemma land_07 b : Z.land b 0x7 = b mod 8.
Proof. exact (land_ones_mod b 3 ltac:(lia)). Qed.
Lemma shiftr_6 x : Z.shiftr x 6 = x / 64.
Proof. by rewrite Z.shiftr_div_pow2. Qed.
Lemma shiftr_12 x : Z.shiftr x 12 = x / 4096.
Proof. by rewrite Z.shiftr_div_pow2. Qed.
Lemma shiftr_18 x : Z.shiftr x 18 = x / 262144.
Proof. by rewrite Z.shiftr_div_pow2. Qed.
Lemma shiftr_0 x : Z.shiftr x 0 = x.
Proof. apply Z.shiftr_0_r. Qed.
Lemma lor_80 x : Z.lor 0x80 (x mod 64) = 0x80 + x mod 64.
Proof.
  rewrite Z.lor_comm. change 0x80 with (Z.shiftl 2 6). rewrite Z.lor_comm.
  rewrite lor_shiftl_low by (pose proof (Z.mod_pos_bound x 64); lia). reflexivity.
Qed.
Lemma lor_shiftl_6 c b : Z.lor (Z.shiftl c 6) (b mod 64) = c * 64 + b mod 64.
Proof. rewrite lor_shiftl_low by (pose proof (Z.mod_pos_bound b 64); lia). reflexivity. Qed.

Create Rewrite HintDb zbits.
#[export] Hint Rewrite land_3F land_1F land_0F land_07 shiftr_6 shiftr_12 shiftr_18
  shiftr_0 lor_80 lor_shiftl_6 : zbits.

(** [zcase] splits on every integer comparison of the goal. *)
Ltac zcase :=
  repeat match goal with
  | |- context [Z.leb ?a ?b] => destruct (Z.leb_spec a b)
  | |- context [Z.ltb ?a ?b] => destruct (Z.ltb_spec a b)
  | |- context [Z.eqb ?a ?b] => destruct (Z.eqb_spec a b)
  end; simpl.

(** ** Generic list lemmas *)

(** Induction that may consume one or two elements at a time, the shape of
    every loop that reads a string by code points. *)
Lemma list_ind2 {A} (P : list A -> Prop) :
  P [] -> (forall x, P [x]) ->
  (forall x y l, P l -> P (y :: l) -> P (x :: y :: l)) -> forall l, P l.
Proof.
  intros H0 H1 H2 l. enough (P l /\ forall x, P (x :: l)) by tauto.
  induction l as [|y l [IH1 IH2]]; split; auto.
Qed.

(** [zlia] is [lia] after the divisions and remainders by constants have
    been turned into Euclidean equations (plain [lia] misses some of them). *)
Ltac zlia := Z.to_euclidean_division_equations; lia.

(** [lit_eval] replaces every literal [lit "..."] by its code units. *)
Ltac lit_eval :=
  repeat match goal with
  | H : context [lit ?s] |- _ =>
      let v := eval vm_compute in (lit s) in change (lit s) with v in H
  | |- context [lit ?s] =>
      let v := eval vm_compute in (lit s) in change (lit s) with v
  end.

(** Text spliced between a known end and a known start. *)
Lemma infix_splice s1 b s2 a c :
  s1 `suffix_of` a -> s2 `prefix_of` c -> infix (s1 ++ b ++ s2) (a ++ b ++ c).
Proof.
  intros [k ->] [k' ->]. exists k, k'. by rewrite <- !app_assoc.
Qed.

(** A link [s1 ++ e ++ m ++ c ++ s2] found across the pieces of a template:
    [s1] ends the piece before [e] and [s2] starts the piece after [c]. *)
Lemma infix_link s1 s2 a e m c rest :
  s1 `suffix_of` a -> s2 `prefix_of` rest ->
  infix (s1 ++ e ++ m ++ c ++ s2) (a ++ e ++ m ++ c ++ rest).
Proof.
  intros [k ->] [k' ->]. exists k, k'. by rewrite <- !app_assoc.
Qed.

Lemma Ok_inj {A} (a b : A) : Ok a = Ok b -> a = b.
Proof. by intros [= ->]. Qed.
