(* ===== verification/JsString.v ===== *)
(** * JsString: JavaScript strings as UTF-16 code units

    The worker handles strings the way every JavaScript engine does: as
    sequences of 16-bit code units.  This file models the parts of the
    ECMAScript string semantics that [src/src/index.ts] relies on:
    - the code points of a string, read as [String.prototype[@@iterator]]
      reads them (ECMA-262 CodePointAt): [generateFaviconSVG] counts them
      with [[...emoji].length];
    - UTF16EncodeCodePoint / CodePointsToString, the inverse direction;
    - IsStringWellFormedUnicode (no lone surrogate) and the conversion to a
      USVString (WebIDL), which [new Response(body)] applies to its body;
    - [String.prototype.toLowerCase] on the ASCII strings it is applied to.

    Main results: the two round trips between code units and code points,
    the characterisation of well-formed strings as encodings of scalar
    values, and the shape of a string with exactly one code point. *)

From S2P Require Import Prelude.

Module Utf16.

(** ** Code units and code points *)

Definition is_high_surrogate (u : Z) : bool := (0xD800 <=? u) && (u <=? 0xDBFF).
Definition is_low_surrogate (u : Z) : bool := (0xDC00 <=? u) && (u <=? 0xDFFF).

(** A code point in the surrogate range; as a code point of a string it can
    only come from a lone surrogate (ECMA-262 IsUnpairedSurrogate). *)
Definition surrogate (cp : Z) : Prop := 0xD800 <= cp <= 0xDFFF.

(** A Unicode scalar value: what UTF-8 can encode. *)
Definition scalar (cp : Z) : Prop := 0 <= cp <= 0x10FFFF /\ ~ surrogate cp.

(** Every element of a string is a 16-bit code unit. *)
Definition units_ok (s : jsstr) : Prop := Forall (fun u => 0 <= u <= 0xFFFF) s.

#[export] Instance surrogate_dec cp : Decision (surrogate cp).
Proof. unfold surrogate. apply _. Defined.
#[export] Instance scalar_dec cp : Decision (scalar cp).
Proof. unfold scalar. apply _. Defined.
#[export] Instance units_ok_dec s : Decision (units_ok s).
Proof. unfold units_ok. apply _. Defined.

(** ECMA-262 UTF16SurrogatePairToCodePoint. *)
Definition surrogate_pair_to_cp (lead trail : Z) : Z :=
  (lead - 0xD800) * 0x400 + (trail - 0xDC00) + 0x10000.

(** The sequence of code points of a string, as produced by the string
    iterator: a high surrogate followed by a low surrogate is one code
    point; any other code unit, a lone surrogate included, is one code
    point of its own value (ECMA-262 CodePointAt). *)
Fixpoint code_points (s : jsstr) : list Z :=
  match s with
  | [] => []
  | u :: rest =>
      if is_high_surrogate u then
        match rest with
        | t :: rest' =>
            if is_low_surrogate t then surrogate_pair_to_cp u t :: code_points rest'
            else u :: code_points rest
        | [] => [u]
        end
      else u :: code_points rest
  end.

(** ECMA-262 UTF16EncodeCodePoint. *)
Definition utf16_encode_cp (cp : Z) : jsstr :=
  if cp <=? 0xFFFF then [cp]
  else [(cp - 0x10000) / 0x400 + 0xD800; (cp - 0x10000) mod 0x400 + 0xDC00].

(** ECMA-262 CodePointsToString. *)
Definition utf16_encode (cps : list Z) : jsstr := concat (map utf16_encode_cp cps).

(** ECMA-262 IsStringWellFormedUnicode. *)
Definition well_formed (s : jsstr) : Prop := Forall (fun cp => ~ surrogate cp) (code_points s).

#[export] Instance well_formed_dec s : Decision (well_formed s).
Proof. unfold well_formed. apply _. Defined.

(** WebIDL conversion to a USVString: every lone surrogate becomes
    U+FFFD REPLACEMENT CHARACTER. *)
Definition to_usv (s : jsstr) : jsstr :=
  utf16_encode (map (fun cp => if decide (surrogate cp) then 0xFFFD else cp) (code_points s)).

(** [String.prototype.toLowerCase] on an ASCII code unit.  The full Unicode
    case mapping is not modelled: the worker applies [toLowerCase] only to
    [url.pathname], which the URL parser percent-encodes to ASCII. *)
Definition to_lower_unit (u : Z) : Z :=
  if (65 <=? u) && (u <=? 90) then u + 32 else u.

Definition to_lower (s : jsstr) : jsstr := map to_lower_unit s.

(** A string of 16-bit code units with no lone surrogate: what a WebIDL
    USVString holds. *)
Definition usv (s : jsstr) : Prop := units_ok s /\ well_formed s.

#[export] Instance usv_dec s : Decision (usv s).
Proof. unfold usv. apply _. Defined.

(** ** Lemmas *)

Arguments utf16_encode_cp : simpl never.
Arguments utf16_encode : simpl never.

Lemma is_high_surrogate_spec u : is_high_surrogate u = true <-> 0xD800 <= u <= 0xDBFF.
Proof. unfold is_high_surrogate. rewrite andb_true_iff, !Z.leb_le. done. Qed.

Lemma is_low_surrogate_spec u : is_low_surrogate u = true <-> 0xDC00 <= u <= 0xDFFF.
Proof. unfold is_low_surrogate. rewrite andb_true_iff, !Z.leb_le. done. Qed.

Lemma is_high_surrogate_false u : is_high_surrogate u = false <-> ~ (0xD800 <= u <= 0xDBFF).
Proof. rewrite <- not_true_iff_false, is_high_surrogate_spec. done. Qed.

Lemma is_low_surrogate_false u : is_low_surrogate u = false <-> ~ (0xDC00 <= u <= 0xDFFF).
Proof. rewrite <- not_true_iff_false, is_low_surrogate_spec. done. Qed.

(** [surr] replaces the boolean surrogate tests by their arithmetic meaning. *)
Ltac surr :=
  repeat match goal with
  | H : is_high_surrogate _ = true |- _ => apply is_high_surrogate_spec in H
  | H : is_low_surrogate _ = true |- _ => apply is_low_surrogate_spec in H
  | H : is_high_surrogate _ = false |- _ => apply is_high_surrogate_false in H
  | H : is_low_surrogate _ = false |- _ => apply is_low_surrogate_false in H
  end.

Lemma utf16_encode_cp_bmp cp : cp <= 0xFFFF -> utf16_encode_cp cp = [cp].
Proof. intros H. unfold utf16_encode_cp. by rewrite (proj2 (Z.leb_le _ _) H). Qed.

Lemma utf16_encode_cp_pair h l :
  0xD800 <= h <= 0xDBFF -> 0xDC00 <= l <= 0xDFFF ->
  utf16_encode_cp (surrogate_pair_to_cp h l) = [h; l].
Proof.
  intros Hh Hl. unfold utf16_encode_cp, surrogate_pair_to_cp.
  destruct (Z.leb_spec (((h - 0xD800) * 0x400 + (l - 0xDC00) + 0x10000)) 0xFFFF); [lia|].
  f_equal; [|f_equal]; zlia.
Qed.

Lemma utf16_encode_cons cp cps : utf16_encode (cp :: cps) = utf16_encode_cp cp ++ utf16_encode cps.
Proof. done. Qed.

Lemma utf16_encode_app cps1 cps2 : utf16_encode (cps1 ++ cps2) = utf16_encode cps1 ++ utf16_encode cps2.
Proof. unfold utf16_encode. by rewrite map_app, concat_app. Qed.

(** Reading the encoding of one scalar value gives it back, whatever follows. *)
Lemma code_points_encode_cp cp rest :
  scalar cp -> code_points (utf16_encode_cp cp ++ rest) = cp :: code_points rest.
Proof.
  intros [Hr Hs]. unfold surrogate in Hs. unfold utf16_encode_cp.
  destruct (Z.leb_spec cp 0xFFFF); simpl.
  - destruct (is_high_surrogate cp) eqn:E; surr; [lia | done].
  - destruct (is_high_surrogate _) eqn:E1; surr; [|zlia].
    destruct (is_low_surrogate _) eqn:E2; surr; [|zlia].
    f_equal. unfold surrogate_pair_to_cp. zlia.
Qed.

Lemma code_points_surrogate_pair h l rest :
  0xD800 <= h <= 0xDBFF -> 0xDC00 <= l <= 0xDFFF ->
  code_points (h :: l :: rest) = surrogate_pair_to_cp h l :: code_points rest.
Proof.
  intros Hh Hl. simpl.
  rewrite (proj2 (is_high_surrogate_spec h) Hh), (proj2 (is_low_surrogate_spec l) Hl). done.
Qed.

Lemma code_points_not_high u rest :
  is_high_surrogate u = false -> code_points (u :: rest) = u :: code_points rest.
Proof. intros H. simpl. by rewrite H. Qed.

Lemma code_points_high_not_low u t rest :
  is_high_surrogate u = true -> is_low_surrogate t = false ->
  code_points (u :: t :: rest) = u :: code_points (t :: rest).
Proof. intros H1 H2. cbn [code_points]. by rewrite H1, H2. Qed.


(** A surrogate pair decodes to a supplementary-plane scalar value. *)
Lemma surrogate_pair_range h l :
  0xD800 <= h <= 0xDBFF -> 0xDC00 <= l <= 0xDFFF ->
  0x10000 <= surrogate_pair_to_cp h l <= 0x10FFFF.
Proof. unfold surrogate_pair_to_cp. lia. Qed.

(** Every code point of a string of code units lies in [0, 0x10FFFF], and
    it is a surrogate only when the code unit was a lone surrogate. *)
Lemma code_points_range s :
  units_ok s -> Forall (fun cp => 0 <= cp <= 0x10FFFF) (code_points s).
Proof.
  induction s as [|x|x y l IH1 IH2] using list_ind2; intros Hs; [done| |].
  - invc Hs. simpl. destruct (is_high_surrogate x); constructor; [lia| |lia|]; done.
  - invc Hs. pose proof (Forall_inv H2). simpl in *.
    destruct (is_high_surrogate x) eqn:E1; [destruct (is_low_surrogate y) eqn:E2|]; surr.
    + constructor; [pose proof (surrogate_pair_range x y); lia|]. invc H2. auto.
    + constructor; [lia|]. auto.
    + constructor; [lia|]. auto.
Qed.

(** Decoding the UTF-16 encoding of scalar values gives them back. *)
Lemma code_points_utf16_encode cps :
  Forall scalar cps -> code_points (utf16_encode cps) = cps.
Proof.
  induction 1 as [|cp cps Hcp _ IH]; [done|].
  rewrite utf16_encode_cons, code_points_encode_cp by done. by rewrite IH.
Qed.

(** Encoding the code points of a string gives the string back: the
    iterator loses nothing, lone surrogates included. *)
Lemma utf16_encode_code_points s : units_ok s -> utf16_encode (code_points s) = s.
Proof.
  induction s as [|x|x y l IH1 IH2] using list_ind2; intros Hs; [done| |].
  - invc Hs. simpl. destruct (is_high_surrogate x);
      rewrite utf16_encode_cons, utf16_encode_cp_bmp by lia; done.
  - invc Hs. pose proof (Forall_inv H2) as Hy.
    destruct (is_high_surrogate x) eqn:E1; [destruct (is_low_surrogate y) eqn:E2|].
    + rewrite code_points_surrogate_pair by (surr; done). surr.
      rewrite utf16_encode_cons, utf16_encode_cp_pair by done.
      invc H2. simpl. by rewrite IH1.
    + rewrite code_points_high_not_low by done.
      rewrite utf16_encode_cons, utf16_encode_cp_bmp by lia. by rewrite IH2.
    + rewrite code_points_not_high by done.
      rewrite utf16_encode_cons, utf16_encode_cp_bmp by lia. by rewrite IH2.
Qed.

Lemma scalar_code_points s :
  units_ok s -> well_formed s -> Forall scalar (code_points s).
Proof.
  intros Hu Hw. pose proof (code_points_range s Hu) as Hr.
  unfold well_formed in Hw. rewrite Forall_forall in *.
  intros cp Hin. split; auto.
Qed.

(** The USVStrings are exactly the UTF-16 encodings of sequences of scalar
    values. *)
Lemma well_formed_iff s :
  units_ok s ->
  well_formed s <-> exists cps, Forall scalar cps /\ s = utf16_encode cps.
Proof.
  intros Hu. split.
  - intros Hw. exists (code_points s). split; [by apply scalar_code_points|].
    by rewrite utf16_encode_code_points.
  - intros (cps & Hc & ->). unfold well_formed. rewrite code_points_utf16_encode by done.
    rewrite Forall_forall in *. intros x Hx. by destruct (Hc x Hx).
Qed.

Lemma well_formed_utf16_encode cps : Forall scalar cps -> well_formed (utf16_encode cps).
Proof.
  intros Hc. unfold well_formed. rewrite code_points_utf16_encode by done.
  rewrite Forall_forall in *. intros x Hx. by destruct (Hc x Hx).
Qed.

Lemma units_ok_utf16_encode cps :
  Forall (fun cp => 0 <= cp <= 0x10FFFF) cps -> units_ok (utf16_encode cps).
Proof.
  induction 1 as [|cp cps Hcp _ IH]; [constructor|].
  rewrite utf16_encode_cons. apply Forall_app. split; [|done].
  unfold utf16_encode_cp. destruct (Z.leb_spec cp 0xFFFF); repeat constructor; zlia.
Qed.

(** The USVString conversion leaves a well-formed string unchanged ... *)
Lemma to_usv_id s : units_ok s -> well_formed s -> to_usv s = s.
Proof.
  intros Hu Hw. unfold to_usv.
  rewrite (map_ext_in _ id), map_id; [by apply utf16_encode_code_points|].
  intros cp Hin. unfold well_formed in Hw. rewrite Forall_forall in Hw.
  by rewrite decide_False by auto.
Qed.

(** ... and always produces a well-formed string. *)
Lemma to_usv_well_formed s : units_ok s -> well_formed (to_usv s).
Proof.
  intros Hu. apply well_formed_utf16_encode. pose proof (code_points_range s Hu) as Hr.
  apply Forall_map. rewrite Forall_forall in *. intros cp Hin. specialize (Hr cp Hin).
  case_decide; unfold scalar, surrogate in *; lia.
Qed.

(** The code points of a converted string are scalar values. *)
Lemma to_usv_scalars s : units_ok s -> Forall scalar (code_points (to_usv s)).
Proof.
  intros Hu. apply scalar_code_points; [|by apply to_usv_well_formed].
  apply units_ok_utf16_encode. apply Forall_map.
  eapply Forall_impl; [|exact (code_points_range s Hu)].
  intros cp Hcp. cbn beta in Hcp |- *. case_decide; lia.
Qed.

(** A string has exactly one code point when it is a single code unit or a
    single surrogate pair. *)
Lemma code_points_length_1 s :
  length (code_points s) = 1%nat <->
  (exists u, s = [u]) \/
  (exists h l, s = [h; l] /\ 0xD800 <= h <= 0xDBFF /\ 0xDC00 <= l <= 0xDFFF).
Proof.
  split.
  - destruct s as [|x [|y l]]; simpl; [done| eauto |].
    destruct (is_high_surrogate x) eqn:E1; [destruct (is_low_surrogate y) eqn:E2|]; surr;
      simpl; intros H.
    + destruct l as [|z l]; [right; eauto|].
      simpl in H. destruct (is_high_surrogate z); [destruct l|]; simpl in H;
        [|destruct (is_low_surrogate _)|]; simpl in H; lia.
    + simpl in H. destruct (is_high_surrogate y); [destruct l|]; simpl in H;
        [|destruct (is_low_surrogate _)|]; simpl in H; lia.
    + simpl in H. destruct (is_high_surrogate y); [destruct l|]; simpl in H;
        [|destruct (is_low_surrogate _)|]; simpl in H; lia.
  - intros [[u ->] | (h & l & -> & Hh & Hl)].
    + simpl. by destruct (is_high_surrogate u).
    + by rewrite code_points_surrogate_pair.
Qed.

(** [toLowerCase] on ASCII is idempotent. *)
Lemma to_lower_idem s : to_lower (to_lower s) = to_lower s.
Proof.
  unfold to_lower. rewrite map_map. apply map_ext. intros u. unfold to_lower_unit.
  destruct ((65 <=? u) && (u <=? 90)) eqn:E; rewrite ?andb_true_iff, ?andb_false_iff, ?Z.leb_le, ?Z.leb_gt in E;
    destruct ((65 <=? _) && (_ <=? 90)) eqn:E'; rewrite ?andb_true_iff, ?andb_false_iff, ?Z.leb_le, ?Z.leb_gt in E'; lia.
Qed.

(** ** Scalar value strings *)

Lemma usv_app a b : usv a -> usv b -> usv (a ++ b).
Proof.
  intros [Hua Hwa] [Hub Hwb]. split; [by apply Forall_app|].
  apply well_formed_iff in Hwa as (ca & Hca & ->); [|done].
  apply well_formed_iff in Hwb as (cb & Hcb & ->); [|done].
  rewrite <- utf16_encode_app. apply well_formed_utf16_encode, Forall_app. done.
Qed.

Lemma usv_nil : usv [].
Proof. split; constructor. Qed.

Lemma usv_ascii s : Forall (fun u => 0 <= u < 128) s -> usv s.
Proof.
  induction 1 as [|u s Hu _ [IH1 IH2]]; [apply usv_nil|]. split.
  - constructor; [lia|done].
  - unfold well_formed. rewrite code_points_not_high by (apply is_high_surrogate_false; lia).
    constructor; [unfold surrogate; lia|done].
Qed.

Lemma to_usv_usv s : usv s -> to_usv s = s.
Proof. intros [Hu Hw]. by apply to_usv_id. Qed.

#[export] Hint Resolve usv_nil : jsauto.

Lemma code_points_ascii s : Forall (fun c => 0 <= c < 0xD800) s -> code_points s = s.
Proof.
  induction 1 as [|c s Hc _ IH]; [done|].
  rewrite code_points_not_high by (apply is_high_surrogate_false; lia). by rewrite IH.
Qed.

Lemma utf16_encode_ascii s : Forall (fun c => 0 <= c < 0xD800) s -> utf16_encode s = s.
Proof.
  intros Hs. transitivity (utf16_encode (code_points s)); [by rewrite code_points_ascii|].
  apply utf16_encode_code_points. eapply Forall_impl; [|exact Hs]. cbn beta. lia.
Qed.

(** [usv_split] splits a goal [usv (a ++ b ++ ...)] into one goal per
    piece (syntactically, so that literals are never unfolded). *)
Ltac usv_split :=
  repeat match goal with |- usv (_ ++ _) => apply usv_app end.

(** ** Main properties *)

(** C20: The string iterator loses nothing: for any string of 16-bit code
    units (lone surrogates included), UTF-16 encoding the code points that
    [[...s]] yields gives [s] back, and conversely the code points of the
    encoding of scalar values are those values. *)
Theorem string_iterator_lossless s cps :
  units_ok s -> Forall scalar cps ->
  utf16_encode (code_points s) = s /\ code_points (utf16_encode cps) = cps.
Proof. intros Hs Hc. split; [by apply utf16_encode_code_points | by apply code_points_utf16_encode]. Qed.

(** C21: A string of code units is well formed (IsStringWellFormedUnicode)
    exactly when it is the UTF-16 encoding of Unicode scalar values, and
    the USVString conversion always yields such a string and leaves such a
    string unchanged. *)
Theorem usv_strings_are_encodings s :
  units_ok s ->
  (well_formed s <-> exists cps, Forall scalar cps /\ s = utf16_encode cps) /\
  well_formed (to_usv s) /\ (well_formed s -> to_usv s = s).
Proof.
  intros Hu. split; [by apply well_formed_iff|]. split; [by apply to_usv_well_formed|].
  intros Hw. by apply to_usv_id.
Qed.

(** Witnesses: the globe emoji U+1F30D, one surrogate pair. *)
Lemma string_iterator_lossless_witness :
  units_ok [0xD83C; 0xDF0D] /\ Forall scalar [0x1F30D] /\
  utf16_encode (code_points [0xD83C; 0xDF0D]) = [0xD83C; 0xDF0D] /\
  code_points (utf16_encode [0x1F30D]) = [0x1F30D].
Proof.
  assert (H1 : units_ok [0xD83C; 0xDF0D]) by compute_done.
  assert (H2 : Forall scalar [0x1F30D]) by compute_done.
  split; [exact H1|]. split; [exact H2|]. exact (string_iterator_lossless _ _ H1 H2).
Defined.

Lemma usv_strings_are_encodings_witness :
  units_ok [0xD83C; 0x41] /\
  ((well_formed [0xD83C; 0x41] <-> exists cps, Forall scalar cps /\ [0xD83C; 0x41] = utf16_encode cps) /\
   well_formed (to_usv [0xD83C; 0x41]) /\ (well_formed [0xD83C; 0x41] -> to_usv [0xD83C; 0x41] = [0xD83C; 0x41])).
Proof.
  assert (H : units_ok [0xD83C; 0x41]) by compute_done.
  split; [exact H|]. exact (usv_strings_are_encodings _ H).
Defined.

End Utf16.
