(* ===== verification/Utf8.v ===== *)
(** * Utf8: the UTF-8 encoder and decoder of the WHATWG Encoding Standard

    [encodeURIComponent] turns each code point into its UTF-8 bytes before
    percent-encoding them (ECMA-262 Encode), and [URLSearchParams] turns the
    percent-decoded bytes of the query back into a string with "UTF-8 decode
    without BOM", whose decoder replaces every malformed sequence by U+FFFD.
    This file models both algorithms as the Encoding Standard writes them:
    - [utf8_encode_cp]: the UTF-8 encoder (count/offset, then continuation
      bytes [0x80 | (temp & 0x3F)]);
    - [decode_byte], [decode_from]: the UTF-8 decoder's handler, a state
      machine over [dstate] (UTF-8 code point, bytes seen, bytes needed,
      lower and upper boundary), with the "restore byte" step inlined.

    Main results: the decoder only ever produces Unicode scalar values
    (an invariant [dinv] of the state machine); decoding the encoding of
    scalar values gives them back; and decoding emits at most one code
    point per byte and at least one per four bytes (bounds, counted with
    [pending], the bytes of the open sequence). *)

From S2P Require Import Prelude JsString.
Import Utf16.

Module Utf8.

(** ** Encoder *)

(** Step 4 of the UTF-8 encoder: [count] continuation bytes, most
    significant first. *)
Fixpoint cont_bytes (cp : Z) (count : nat) : list Z :=
  match count with
  | O => []
  | S c => Z.lor 0x80 (Z.land (Z.shiftr cp (6 * Z.of_nat c)) 0x3F) :: cont_bytes cp c
  end.

Definition utf8_encode_cp (cp : Z) : list Z :=
  if cp <=? 0x7F then [cp]
  else
    let '(count, offset) :=
      if cp <=? 0x7FF then (1%nat, 0xC0)
      else if cp <=? 0xFFFF then (2%nat, 0xE0)
      else (3%nat, 0xF0) in
    (Z.shiftr cp (6 * Z.of_nat count) + offset) :: cont_bytes cp count.

(** "UTF-8 encode" of a sequence of scalar values. *)
Definition utf8_encode (cps : list Z) : list Z := concat (map utf8_encode_cp cps).

(** ** Decoder *)

Record dstate := DState {
  d_cp : Z;      (* UTF-8 code point *)
  d_seen : Z;    (* UTF-8 bytes seen *)
  d_needed : Z;  (* UTF-8 bytes needed *)
  d_lower : Z;   (* UTF-8 lower boundary *)
  d_upper : Z    (* UTF-8 upper boundary *)
}.

Definition d_init : dstate := DState 0 0 0 0x80 0xBF.

Definition replacement : Z := 0xFFFD.

(** Step 3 of the handler, for a byte read when no continuation byte is
    needed: emit an ASCII code point, start a multi-byte sequence, or
    report an error (emitted as U+FFFD in replacement mode). *)
Definition start_byte (b : Z) : list Z * dstate :=
  if (0x00 <=? b) && (b <=? 0x7F) then ([b], d_init)
  else if (0xC2 <=? b) && (b <=? 0xDF) then
    ([], DState (Z.land b 0x1F) 0 1 0x80 0xBF)
  else if (0xE0 <=? b) && (b <=? 0xEF) then
    ([], DState (Z.land b 0xF) 0 2 (if b =? 0xE0 then 0xA0 else 0x80)
                                   (if b =? 0xED then 0x9F else 0xBF))
  else if (0xF0 <=? b) && (b <=? 0xF4) then
    ([], DState (Z.land b 0x7) 0 3 (if b =? 0xF0 then 0x90 else 0x80)
                                   (if b =? 0xF4 then 0x8F else 0xBF))
  else ([replacement], d_init).

(** The handler on one byte.  A byte outside the boundaries resets the
    state, is restored to the queue (so read again by [start_byte]) and
    yields an error. *)
Definition decode_byte (st : dstate) (b : Z) : list Z * dstate :=
  if d_needed st =? 0 then start_byte b
  else if negb ((d_lower st <=? b) && (b <=? d_upper st)) then
    let '(out, st') := start_byte b in (replacement :: out, st')
  else
    let cp := Z.lor (Z.shiftl (d_cp st) 6) (Z.land b 0x3F) in
    let seen := d_seen st + 1 in
    if seen =? d_needed st then ([cp], d_init)
    else ([], DState cp seen (d_needed st) 0x80 0xBF).

(** The decoder over a whole byte sequence; at the end of the queue an
    unfinished sequence is an error (step 1 of the handler). *)
Fixpoint decode_from (st : dstate) (bs : list Z) : list Z :=
  match bs with
  | [] => if d_needed st =? 0 then [] else [replacement]
  | b :: bs' => let '(out, st') := decode_byte st b in out ++ decode_from st' bs'
  end.

(** "UTF-8 decode without BOM" (no BOM is sniffed). *)
Definition utf8_decode (bs : list Z) : list Z := decode_from d_init bs.

(** Every element of a byte sequence is a byte. *)
Definition bytes_ok (bs : list Z) : Prop := Forall (fun b => 0 <= b <= 0xFF) bs.

#[export] Instance bytes_ok_dec bs : Decision (bytes_ok bs).
Proof. unfold bytes_ok. apply _. Defined.

(** ** The decoder's invariant

    Between two bytes the decoder is either idle, or part-way through a
    sequence whose accumulated bits and remaining boundaries guarantee that
    the sequence, once complete, is a scalar value: overlong forms, the
    surrogates and code points above U+10FFFF are already excluded. *)
Definition dinv (st : dstate) : Prop :=
  let '(DState cp seen needed lower upper) := st in
  (needed = 0 /\ cp = 0 /\ seen = 0 /\ lower = 0x80 /\ upper = 0xBF) \/
  (needed = 1 /\ seen = 0 /\ 2 <= cp <= 0x1F /\ lower = 0x80 /\ upper = 0xBF) \/
  (needed = 2 /\ seen = 0 /\ 0 <= cp <= 0xF /\
     lower = (if cp =? 0 then 0xA0 else 0x80) /\ upper = (if cp =? 0xD then 0x9F else 0xBF)) \/
  (needed = 2 /\ seen = 1 /\ 0x20 <= cp <= 0x3FF /\ ~ (0x360 <= cp <= 0x37F) /\
     lower = 0x80 /\ upper = 0xBF) \/
  (needed = 3 /\ seen = 0 /\ 0 <= cp <= 4 /\
     lower = (if cp =? 0 then 0x90 else 0x80) /\ upper = (if cp =? 4 then 0x8F else 0xBF)) \/
  (needed = 3 /\ seen = 1 /\ 0x10 <= cp <= 0x10F /\ lower = 0x80 /\ upper = 0xBF) \/
  (needed = 3 /\ seen = 2 /\ 0x400 <= cp <= 0x43FF /\ lower = 0x80 /\ upper = 0xBF).

(** The bytes of an open sequence the handler has consumed, its lead byte
    included (zero when no sequence is open). *)
Definition pending (st : dstate) : Z := if d_needed st =? 0 then 0 else d_seen st + 1.

(** ** Lemmas *)

(** [zcase_all] splits on every integer comparison, in the goal and in the
    hypotheses. *)
Ltac zcase_all :=
  repeat (match goal with
  | |- context [Z.leb ?a ?b] => destruct (Z.leb_spec a b)
  | |- context [Z.ltb ?a ?b] => destruct (Z.ltb_spec a b)
  | |- context [Z.eqb ?a ?b] => destruct (Z.eqb_spec a b)
  | H : context [Z.eqb ?a ?b] |- _ => destruct (Z.eqb_spec a b)
  end; cbn -[Z.land Z.lor Z.shiftl Z.shiftr] in *; try lia).

(** [dsolve] closes the goals "the output is scalar and the invariant
    holds" once the comparisons are split. *)
Ltac dsolve :=
  autorewrite with zbits in *; unfold scalar, surrogate in *;
  split; [repeat first [apply Forall_nil | apply Forall_cons] |]; zlia.

Lemma d_init_inv : dinv d_init.
Proof. simpl. lia. Qed.

Lemma start_byte_inv b :
  Forall scalar (start_byte b).1 /\ dinv (start_byte b).2.
Proof.
  unfold start_byte, d_init, replacement.
  zcase_all; dsolve.
Qed.

Lemma decode_byte_inv st b :
  dinv st -> Forall scalar (decode_byte st b).1 /\ dinv (decode_byte st b).2.
Proof.
  intros Hst. destruct st as [cp seen needed lower upper].
  unfold decode_byte; cbn [d_needed d_lower d_upper d_cp d_seen].
  destruct (Z.eqb_spec needed 0); [by apply start_byte_inv|].
  destruct (negb _) eqn:Hr.
  - destruct (start_byte_inv b) as [H1 H2]. destruct (start_byte b) as [out st'].
    split; [|done]. constructor; [|done]. unfold replacement, scalar, surrogate. lia.
  - apply negb_false_iff, andb_true_iff in Hr as [Hl Hu].
    apply Z.leb_le in Hl, Hu. simpl in Hst.
    autorewrite with zbits.
    destruct Hst as [H|[H|[H|[H|[H|[H|H]]]]]]; destruct_and! H; subst;
      zcase_all; dsolve.
Qed.

(** The decoder only ever produces Unicode scalar values: every lone
    surrogate, overlong form or out-of-range sequence becomes U+FFFD. *)
Lemma decode_from_scalar st bs :
  dinv st -> Forall scalar (decode_from st bs).
Proof.
  revert st. induction bs as [|b bs IH]; intros st Hst; simpl.
  - destruct (d_needed st =? 0); repeat constructor; unfold replacement, surrogate; lia.
  - destruct (decode_byte_inv st b Hst) as [H3 H4].
    destruct (decode_byte st b) as [out st']. apply Forall_app. auto.
Qed.

Lemma utf8_encode_cons cp cps : utf8_encode (cp :: cps) = utf8_encode_cp cp ++ utf8_encode cps.
Proof. done. Qed.

(** The encoder's output, length by length. *)
Lemma utf8_encode_cp_1 cp : cp <= 0x7F -> utf8_encode_cp cp = [cp].
Proof. intros H. unfold utf8_encode_cp. by destruct (Z.leb_spec cp 0x7F); [|lia]. Qed.

Lemma utf8_encode_cp_2 cp :
  0x80 <= cp <= 0x7FF -> utf8_encode_cp cp = [cp / 64 + 0xC0; 0x80 + cp mod 64].
Proof.
  intros H. unfold utf8_encode_cp.
  destruct (Z.leb_spec cp 0x7F); [lia|]. destruct (Z.leb_spec cp 0x7FF); [|lia].
  cbn. by autorewrite with zbits.
Qed.

Lemma utf8_encode_cp_3 cp :
  0x800 <= cp <= 0xFFFF ->
  utf8_encode_cp cp = [cp / 4096 + 0xE0; 0x80 + (cp / 64) mod 64; 0x80 + cp mod 64].
Proof.
  intros H. unfold utf8_encode_cp.
  destruct (Z.leb_spec cp 0x7F); [lia|]. destruct (Z.leb_spec cp 0x7FF); [lia|].
  destruct (Z.leb_spec cp 0xFFFF); [|lia]. cbn. by autorewrite with zbits.
Qed.

Lemma utf8_encode_cp_4 cp :
  0x10000 <= cp ->
  utf8_encode_cp cp = [cp / 262144 + 0xF0; 0x80 + (cp / 4096) mod 64;
                       0x80 + (cp / 64) mod 64; 0x80 + cp mod 64].
Proof.
  intros H. unfold utf8_encode_cp.
  destruct (Z.leb_spec cp 0x7F); [lia|]. destruct (Z.leb_spec cp 0x7FF); [lia|].
  destruct (Z.leb_spec cp 0xFFFF); [lia|]. cbn. by autorewrite with zbits.
Qed.

(** The decoder's handler, case by case. *)
Lemma start_byte_ascii b : 0 <= b <= 0x7F -> start_byte b = ([b], d_init).
Proof. intros H. unfold start_byte. zcase_all; done. Qed.

Lemma start_byte_lead2 b :
  0xC2 <= b <= 0xDF -> start_byte b = ([], DState (b mod 32) 0 1 0x80 0xBF).
Proof. intros H. unfold start_byte. zcase_all; by autorewrite with zbits. Qed.

Lemma start_byte_lead3 b :
  0xE0 <= b <= 0xEF ->
  start_byte b = ([], DState (b mod 16) 0 2 (if b =? 0xE0 then 0xA0 else 0x80)
                                            (if b =? 0xED then 0x9F else 0xBF)).
Proof.
  intros H. unfold start_byte.
  destruct (Z.leb_spec 0 b); [|lia]. destruct (Z.leb_spec b 0x7F); [lia|].
  destruct (Z.leb_spec 0xC2 b); [destruct (Z.leb_spec b 0xDF); [lia|]|];
    (destruct (Z.leb_spec 0xE0 b); [|lia]); (destruct (Z.leb_spec b 0xEF); [|lia]);
    cbn; by autorewrite with zbits.
Qed.

Lemma start_byte_lead4 b :
  0xF0 <= b <= 0xF4 ->
  start_byte b = ([], DState (b mod 8) 0 3 (if b =? 0xF0 then 0x90 else 0x80)
                                           (if b =? 0xF4 then 0x8F else 0xBF)).
Proof.
  intros H. unfold start_byte.
  destruct (Z.leb_spec 0 b); [|lia]. destruct (Z.leb_spec b 0x7F); [lia|].
  destruct (Z.leb_spec 0xC2 b); [destruct (Z.leb_spec b 0xDF); [lia|]|];
    (destruct (Z.leb_spec 0xE0 b); [destruct (Z.leb_spec b 0xEF); [lia|]|]);
    (destruct (Z.leb_spec 0xF0 b); [|lia]); (destruct (Z.leb_spec b 0xF4); [|lia]);
    cbn; by autorewrite with zbits.
Qed.

Lemma decode_byte_cont cp seen needed lower upper b :
  needed <> 0 -> lower <= b <= upper ->
  decode_byte (DState cp seen needed lower upper) b =
  if seen + 1 =? needed then ([cp * 64 + b mod 64], d_init)
  else ([], DState (cp * 64 + b mod 64) (seen + 1) needed 0x80 0xBF).
Proof.
  intros Hn Hb. unfold decode_byte. cbn [d_needed d_lower d_upper d_cp d_seen].
  destruct (Z.eqb_spec needed 0); [lia|].
  destruct (Z.leb_spec lower b); [|lia]. destruct (Z.leb_spec b upper); [|lia].
  cbn. by autorewrite with zbits.
Qed.

Lemma decode_byte_idle b : decode_byte d_init b = start_byte b.
Proof. done. Qed.

Lemma decode_from_cons st b bs :
  decode_from st (b :: bs) = (decode_byte st b).1 ++ decode_from (decode_byte st b).2 bs.
Proof. simpl. by destruct (decode_byte st b). Qed.

Arguments decode_from : simpl never.

(** Decoding the UTF-8 encoding of one scalar value from the idle state
    gives it back and returns to the idle state. *)
Lemma decode_encode_cp cp rest :
  scalar cp -> decode_from d_init (utf8_encode_cp cp ++ rest) = cp :: decode_from d_init rest.
Proof.
  intros [Hr Hs]. unfold surrogate in Hs.
  destruct (Z.leb_spec cp 0x7F); [|destruct (Z.leb_spec cp 0x7FF); [|destruct (Z.leb_spec cp 0xFFFF)]].
  - rewrite utf8_encode_cp_1 by lia. simpl app. rewrite decode_from_cons, decode_byte_idle, start_byte_ascii by lia. done.
  - rewrite utf8_encode_cp_2 by lia. simpl app.
    rewrite decode_from_cons, decode_byte_idle.
    rewrite start_byte_lead2 by zlia. simpl.
    rewrite decode_from_cons, decode_byte_cont by zlia. simpl.
    f_equal. zlia.
  - rewrite utf8_encode_cp_3 by lia. simpl app.
    rewrite decode_from_cons, decode_byte_idle.
    rewrite start_byte_lead3 by zlia. simpl.
    rewrite decode_from_cons, decode_byte_cont
      by (try lia; destruct (Z.eqb_spec (cp / 4096 + 0xE0) 0xE0);
          destruct (Z.eqb_spec (cp / 4096 + 0xE0) 0xED); zlia).
    simpl. rewrite decode_from_cons, decode_byte_cont by zlia. simpl.
    f_equal. zlia.
  - rewrite utf8_encode_cp_4 by lia. simpl app.
    rewrite decode_from_cons, decode_byte_idle.
    rewrite start_byte_lead4 by zlia. simpl.
    rewrite decode_from_cons, decode_byte_cont
      by (try lia; destruct (Z.eqb_spec (cp / 262144 + 0xF0) 0xF0);
          destruct (Z.eqb_spec (cp / 262144 + 0xF0) 0xF4); zlia).
    simpl. rewrite decode_from_cons, decode_byte_cont by zlia. simpl.
    rewrite decode_from_cons, decode_byte_cont by zlia. simpl.
    f_equal. zlia.
Qed.

(** Whatever the bytes, "UTF-8 decode" produces Unicode scalar values
    only. *)
Theorem utf8_decode_scalar bs : Forall scalar (utf8_decode bs).
Proof. apply decode_from_scalar, d_init_inv. Qed.

(** Decoding the UTF-8 encoding of scalar values gives them back. *)
Theorem utf8_decode_encode cps :
  Forall scalar cps -> utf8_decode (utf8_encode cps) = cps.
Proof.
  unfold utf8_decode. induction 1 as [|cp cps Hcp _ IH]; [done|].
  rewrite utf8_encode_cons, decode_encode_cp by done. by rewrite IH.
Qed.

(** ** Counting *)

Lemma dinv_counts st :
  dinv st ->
  (d_needed st = 0 /\ d_seen st = 0) \/ (0 < d_needed st <= 3 /\ 0 <= d_seen st < d_needed st).
Proof. destruct st as [cp seen needed lower upper]. simpl. lia. Qed.

(** What [start_byte] does, counted: one code point and the idle state, or
    nothing and a sequence opened. *)
Lemma start_byte_shape b :
  (length (start_byte b).1 = 1%nat /\ d_needed (start_byte b).2 = 0) \/
  ((start_byte b).1 = [] /\ 0 < d_needed (start_byte b).2 /\ d_seen (start_byte b).2 = 0).
Proof.
  unfold start_byte.
  destruct ((0 <=? b) && (b <=? 0x7F)); [by left|].
  destruct ((0xC2 <=? b) && (b <=? 0xDF)); [right; cbn; split; [done|lia]|].
  destruct ((0xE0 <=? b) && (b <=? 0xEF)); [right; cbn; split; [done|lia]|].
  destruct ((0xF0 <=? b) && (b <=? 0xF4)); [right; cbn; split; [done|lia]|by left].
Qed.

(** The counts of one step: at most one code point per byte, beyond the
    one an open sequence may still owe; at least one code point per four
    bytes, counting the bytes of the open sequence. *)
Lemma decode_byte_counts st b :
  dinv st ->
  Z.of_nat (length (decode_byte st b).1) + (if d_needed (decode_byte st b).2 =? 0 then 0 else 1)
    <= 1 + (if d_needed st =? 0 then 0 else 1) /\
  1 + pending st <= 4 * Z.of_nat (length (decode_byte st b).1) + pending (decode_byte st b).2.
Proof.
  intros Hst. pose proof (dinv_counts st Hst) as Hc.
  destruct st as [cp seen needed lower upper]. cbn [d_needed d_seen] in *. unfold pending.
  unfold decode_byte. cbn [d_needed d_lower d_upper d_cp d_seen].
  destruct (Z.eqb_spec needed 0).
  - subst needed. cbn. destruct (start_byte_shape b) as [[H1 H2]|(H1 & H2 & H3)].
    + rewrite H1, H2. cbn. lia.
    + rewrite H1, H3. destruct (Z.eqb_spec (d_needed (start_byte b).2) 0); [lia|]. cbn. lia.
  - destruct (negb _).
    + destruct (start_byte_shape b) as [[H1 H2]|(H1 & H2 & H3)];
        destruct (start_byte b) as [o st2]; cbn [fst snd] in *; cbn [length].
      * rewrite H2, Z.eqb_refl. lia.
      * subst o. rewrite H3. destruct (Z.eqb_spec (d_needed st2) 0); cbn; lia.
    + destruct (Z.eqb_spec (seen + 1) needed); cbn [fst snd d_needed d_seen length].
      * rewrite Z.eqb_refl. lia.
      * destruct (Z.eqb_spec needed 0); lia.
Qed.

(** The counts of a whole run of [decode_from]. *)
Lemma decode_from_counts st bs :
  dinv st ->
  Z.of_nat (length (decode_from st bs)) <= Z.of_nat (length bs) + (if d_needed st =? 0 then 0 else 1) /\
  Z.of_nat (length bs) + pending st <= 4 * Z.of_nat (length (decode_from st bs)).
Proof.
  revert st. induction bs as [|b bs IH]; intros st Hst.
  - unfold decode_from, pending. pose proof (dinv_counts st Hst).
    destruct (Z.eqb_spec (d_needed st) 0); cbn; lia.
  - rewrite decode_from_cons, length_app.
    pose proof (decode_byte_counts st b Hst) as [C1 C2].
    pose proof (decode_byte_inv st b Hst) as [_ Hinv].
    destruct (IH _ Hinv) as [I1 I2]. cbn [length]. lia.
Qed.

(** ** Main properties *)

(** C12: UTF-8 round trip: decoding (WHATWG decoder, replacement mode) the
    UTF-8 encoding (WHATWG encoder) of any sequence of Unicode scalar
    values gives the sequence back. *)
Theorem utf8_roundtrip cps : Forall scalar cps -> utf8_decode (utf8_encode cps) = cps.
Proof. apply utf8_decode_encode. Qed.

(** C13: The decoder's state invariant: from a state satisfying [dinv],
    the handler run on any byte emits only scalar values and reaches a
    state satisfying [dinv] again (the idle state satisfies it). *)
Theorem decoder_step_invariant st b :
  dinv st -> Forall scalar (decode_byte st b).1 /\ dinv (decode_byte st b).2.
Proof. apply decode_byte_inv. Qed.

(** C14: Whatever the input bytes, UTF-8 decode without BOM produces only
    Unicode scalar values (no surrogate, nothing above U+10FFFF): malformed
    input becomes U+FFFD. *)
Theorem utf8_decoder_scalar_output bs : Forall scalar (utf8_decode bs).
Proof. apply decode_from_scalar, d_init_inv. Qed.

(** Witnesses. *)
(** C33: Bounds of UTF-8 decode without BOM: it emits at most one code
    point per byte, and at least one per four bytes. *)
Theorem utf8_decode_bounds bs :
  (length (utf8_decode bs) <= length bs)%nat /\ (length bs <= 4 * length (utf8_decode bs))%nat.
Proof.
  destruct (decode_from_counts d_init bs d_init_inv) as [H1 H2].
  unfold utf8_decode, pending in *. cbn in H1, H2. lia.
Qed.

Lemma utf8_roundtrip_witness :
  Forall scalar [0x1F525; 0x41] /\ utf8_decode (utf8_encode [0x1F525; 0x41]) = [0x1F525; 0x41].
Proof.
  assert (H : Forall scalar [0x1F525; 0x41]) by compute_done.
  split; [exact H | exact (utf8_roundtrip _ H)].
Defined.

Lemma decoder_step_invariant_witness :
  dinv (DState 0xD 0 2 0x80 0x9F) /\
  Forall scalar (decode_byte (DState 0xD 0 2 0x80 0x9F) 0xA0).1 /\
  dinv (decode_byte (DState 0xD 0 2 0x80 0x9F) 0xA0).2.
Proof.
  assert (H : dinv (DState 0xD 0 2 0x80 0x9F)) by (simpl; lia).
  split; [exact H | exact (decoder_step_invariant _ 0xA0 H)].
Defined.

End Utf8.
