(* ===== verification/Utf8Steps.v ===== *)
(** * Utf8Steps: the UTF-8 decoder as a transition system

    The Encoding Standard runs a decoder by repeatedly reading an item of
    the input queue and handing it to the decoder's handler, until the
    handler sees end-of-queue.  [Utf8.decode_from] computes the outcome of
    that loop; this file states the loop itself as a small-step relation
    over configurations (handler state, bytes still queued, code points
    emitted so far), which [url.searchParams] runs on the percent-decoded
    bytes of every name and value (src/src/index.ts line 26):
    - [dstep]: one byte read and handled, or the end of the queue reached
      with a sequence still open;
    - [steps n]: exactly [n] transitions;
    - [final]: the queue is empty and no sequence is open.

    Main result: a sequence left open is resolved, by emitting a code
    point (the completed scalar value or U+FFFD), within as many
    transitions as it still needs bytes, or by the end of the run
    (liveness).  The bounds on what the decoder emits are proved of
    [decode_from] in [Utf8]. *)

From S2P Require Import Prelude JsString Utf8.
Import Utf16 Utf8.

Module Utf8Steps.

(** ** The transition system *)

Record config := Config {
  c_state : dstate;    (* the handler's variables *)
  c_input : list Z;    (* the bytes still in the queue *)
  c_output : list Z    (* the code points emitted so far *)
}.

Inductive dstep : config -> config -> Prop :=
  | dstep_byte st b bs out emitted st' :
      decode_byte st b = (emitted, st') ->
      dstep (Config st (b :: bs) out) (Config st' bs (out ++ emitted))
  | dstep_end st out :
      d_needed st <> 0 ->
      dstep (Config st [] out) (Config d_init [] (out ++ [replacement])).

Inductive steps : nat -> config -> config -> Prop :=
  | steps_refl c : steps 0 c c
  | steps_step n c1 c2 c3 : dstep c1 c2 -> steps n c2 c3 -> steps (S n) c1 c3.

(** The end of a run: the queue is empty and no sequence is open. *)
Definition final (c : config) : Prop := c_input c = [] /\ d_needed (c_state c) = 0.

#[export] Hint Constructors dstep steps : jsauto.

(** ** Lemmas on the handler *)

(** What [decode_byte] does in an open sequence: it emits something, or
    it consumes one more byte of the sequence. *)
Lemma decode_byte_open st b :
  d_needed st <> 0 ->
  (decode_byte st b).1 <> [] \/
  (d_needed (decode_byte st b).2 = d_needed st /\ d_seen (decode_byte st b).2 = d_seen st + 1).
Proof.
  intros Hn. destruct st as [cp seen needed lower upper]. cbn [d_needed d_seen] in *.
  unfold decode_byte. cbn [d_needed d_lower d_upper d_cp d_seen].
  destruct (Z.eqb_spec needed 0); [lia|].
  destruct (negb _); [left; by destruct (start_byte b)|].
  destruct (Z.eqb_spec (seen + 1) needed); [by left|right; done].
Qed.

(** ** Lemmas on runs *)

Lemma steps_output_prefix n c c' :
  steps n c c' -> exists more, c_output c' = c_output c ++ more.
Proof.
  induction 1 as [c|n c1 c2 c3 Hs _ [more IH]]; [exists []; by rewrite app_nil_r|].
  inversion Hs; subst; cbn [c_output] in *; rewrite IH, <- app_assoc; eauto.
Qed.

(** ** Main properties *)

(** C32: Liveness of the decoder: from a state satisfying the invariant
    with a sequence open, every run emits a code point (the completed
    scalar value or U+FFFD) within as many transitions as the sequence
    still needs bytes, or by the time it ends. *)
Theorem decoder_liveness n st bs out c :
  dinv st -> d_needed st <> 0 ->
  steps n (Config st bs out) c ->
  d_needed st - d_seen st <= Z.of_nat n \/ final c ->
  (length out < length (c_output c))%nat.
Proof.
  revert st bs out. induction n as [|n IH]; intros st bs out Hst Hn Hs Hlen.
  - inversion Hs; subst. pose proof (dinv_counts st Hst).
    destruct Hlen as [?|[_ Hf]]; cbn in *; lia.
  - inversion Hs as [|? ? c2 ? Hstep Hrest]; subst.
    destruct (steps_output_prefix _ _ _ Hrest) as [more Hm].
    inversion Hstep as [st0 b bs0 out0 emitted st' Hd|st0 out0 Hn0]; subst; cbn [c_output] in Hm.
    + destruct (decode_byte_open st b Hn) as [Hne|[Hn' Hs']]; rewrite Hd in *; cbn [fst snd] in *.
      * rewrite Hm, !length_app. destruct emitted; [done|cbn; lia].
      * pose proof (decode_byte_inv st b Hst) as [_ Hinv]. rewrite Hd in Hinv.
        assert (Hlen' : d_needed st' - d_seen st' <= Z.of_nat n \/ final c)
          by (destruct Hlen; [left; lia|right; done]).
        assert (Hl := IH st' bs0 (out ++ emitted) Hinv ltac:(lia) Hrest Hlen').
        rewrite length_app in Hl. lia.
    + rewrite Hm, !length_app. cbn. lia.
Qed.

(** Witnesses: a three-byte sequence opened by [0xEF] and broken by [A]. *)
Lemma decoder_liveness_witness :
  dinv (DState 0xF 0 2 0x80 0xBF) /\ d_needed (DState 0xF 0 2 0x80 0xBF) <> 0 /\
  steps 1 (Config (DState 0xF 0 2 0x80 0xBF) [0x41] []) (Config d_init [] [0xFFFD; 0x41]) /\
  (d_needed (DState 0xF 0 2 0x80 0xBF) - d_seen (DState 0xF 0 2 0x80 0xBF) <= Z.of_nat 1 \/
   final (Config d_init [] [0xFFFD; 0x41])) /\
  lt (length (@nil Z)) (length (c_output (Config d_init [] [0xFFFD; 0x41]))).
Proof.
  assert (H1 : dinv (DState 0xF 0 2 0x80 0xBF)) by (simpl; lia).
  assert (H2 : d_needed (DState 0xF 0 2 0x80 0xBF) <> 0) by (simpl; lia).
  assert (H3 : steps 1 (Config (DState 0xF 0 2 0x80 0xBF) [0x41] []) (Config d_init [] [0xFFFD; 0x41]))
    by (eapply steps_step; [apply dstep_byte; reflexivity | apply steps_refl]).
  assert (H4 : d_needed (DState 0xF 0 2 0x80 0xBF) - d_seen (DState 0xF 0 2 0x80 0xBF) <= Z.of_nat 1 \/
               final (Config d_init [] [0xFFFD; 0x41])) by (right; split; reflexivity).
  do 3 (split; [assumption|]). split; [exact H4|].
  exact (decoder_liveness _ _ _ _ _ H1 H2 H3 H4).
Defined.

End Utf8Steps.
