(* ===== verification/WebApi.v ===== *)
(** * WebApi: what the worker relies on from the URL runtime

    [src/src/index.ts] calls two pieces of the JavaScript runtime that have
    to agree with each other: [encodeURIComponent], which writes the glyph
    and the colour into the links of the page, and [url.searchParams], which
    reads them back when such a link is followed.  This file states that
    contract as an interface:
    - [UrlCodec]: the two operations ([encode_component] for
      [encodeURIComponent], [search_params] for the list of a URL's
      [searchParams] given its query);
    - [UrlCodecLaws]: the laws the renderers and the router use: encoding
      succeeds on well-formed strings, throws a URIError on the others,
      leaves lower-case ASCII letters
      alone, its output is safe inside a query component and an HTML
      attribute, parsing inverts encoding, and parsing yields well-formed
      strings.
    The renderers ([Html]) and the router ([Router]) are proved against this
    interface; [Runtime] instantiates it with the models of ECMA-262
    ([UriEncode]) and of the URL Standard ([FormUrlencoded]) and discharges
    the laws. *)

From S2P Require Import Prelude JsString.
Import Utf16.

Module WebApi.

(** A code unit that can neither end a query component nor an HTML
    attribute value: ASCII, and none of the double quote, [#], [&], [+],
    [<], [=] and [>] (in the literal the backquote stands for the double
    quote). *)
Definition component_safe (u : Z) : Prop := 0 <= u < 128 /\ u ∉ «"`#&+<=>"».

#[export] Instance component_safe_dec u : Decision (component_safe u).
Proof. unfold component_safe. apply _. Defined.

(** [URLSearchParams.prototype.get]: the value of the first pair with that
    name, or [null] ([None]). *)
Fixpoint params_get (name : jsstr) (l : list (jsstr * jsstr)) : option jsstr :=
  match l with
  | [] => None
  | (n, v) :: l' => if decide (n = name) then Some v else params_get name l'
  end.

(** A query written as [n1=v1&n2=v2&...], the shape of the links the page
    writes. *)
Fixpoint join_amp (l : list jsstr) : jsstr :=
  match l with
  | [] => []
  | [x] => x
  | x :: xs => x ++ 38 :: join_amp xs
  end.

Definition pair_query (p : jsstr * jsstr) : jsstr := p.1 ++ 61 :: p.2.

Class UrlCodec := {
  encode_component : jsstr -> throws jsstr;
  search_params : jsstr -> list (jsstr * jsstr)
}.

Class UrlCodecLaws `{UrlCodec} : Prop := {
  encode_total s :
    units_ok s -> well_formed s -> exists e, encode_component s = Ok e;
  encode_error s :
    units_ok s -> ~ well_formed s -> encode_component s = Throw URIError;
  encode_lower_letters s :
    Forall (fun u => 97 <= u <= 122) s -> encode_component s = Ok s;
  encode_safe s e :
    units_ok s -> encode_component s = Ok e -> Forall (fun u => u = 37 \/ component_safe u) e;
  search_params_encoded pairs encs :
    Forall (fun p => units_ok p.1 /\ units_ok p.2) pairs ->
    Forall2 (fun p E => encode_component p.1 = Ok E.1 /\ encode_component p.2 = Ok E.2)
      pairs encs ->
    search_params (join_amp (map pair_query encs)) = pairs;
  search_params_wf q :
    Forall (fun p => units_ok p.2 /\ well_formed p.2) (search_params q)
}.

(** ** Lemmas *)

Lemma params_get_In name l v : params_get name l = Some v -> In (name, v) l.
Proof.
  induction l as [|[n w] l IH]; simpl; [done|].
  case_decide; [intros [= ->]; subst; auto | auto].
Qed.

Section Laws.
Context `{UrlCodec} `{!UrlCodecLaws}.

(** Every value read from [searchParams] is well formed. *)
Lemma params_get_wf q name v :
  params_get name (search_params q) = Some v -> units_ok v /\ well_formed v.
Proof.
  intros Hg. apply params_get_In in Hg.
  pose proof (search_params_wf q) as Hq. rewrite Forall_forall in Hq.
  exact (Hq _ Hg).
Qed.
End Laws.

End WebApi.
