(* ===== verification/UriEncode.v ===== *)
(** * UriEncode: [encodeURIComponent] (ECMA-262 sec. 19.2.6.5, Encode)

    [generateHtmlResponse] percent-encodes the site's own favicon glyph and
    the request's glyph and colour with [encodeURIComponent] before putting
    them in URLs (src/src/index.ts lines 77, 94 and 118).  This file models
    the ECMA-262 abstract operation Encode(string, extraUnescaped = ""):
    - [uri_unreserved]: the unescaped set (ASCII letters, digits and
      [-_.!~*'()]);
    - [encode_uri_component]: the loop over code units, with CodePointAt,
      the URIError on a lone surrogate, and the UTF-8 octets of every other
      code point written as [%XY] with upper-case hexadecimal digits.

    Main results: the loop equals a reference definition over code points
    ([encode_spec]); it succeeds exactly on well-formed strings; its output
    is ASCII and contains none of the characters that end a URL query
    component or an HTML attribute value. *)

From S2P Require Import Prelude JsString Utf8 WebApi.
Import Utf16 Utf8 WebApi.

Module UriEncode.

(** The set of code units left as they are. *)
Definition uri_mark : jsstr := «"-_.!~*'()"».

Definition uri_unreserved (u : Z) : bool :=
  ((97 <=? u) && (u <=? 122)) || ((65 <=? u) && (u <=? 90)) ||
  ((48 <=? u) && (u <=? 57)) || bool_decide (u ∈ uri_mark).

(** An upper-case hexadecimal digit for [0 <= d < 16]. *)
Definition hex_digit (d : Z) : Z := if d <? 10 then 48 + d else 55 + d.

(** ["%"] followed by the two hexadecimal digits of an octet. *)
Definition percent_byte (b : Z) : jsstr := [37; hex_digit (b / 16); hex_digit (b mod 16)].

Definition percent_octets (octets : list Z) : jsstr := concat (map percent_byte octets).

(** Encode, read code unit by code unit: an unreserved code unit is copied;
    otherwise CodePointAt reads a code point (two code units for a surrogate
    pair), a lone surrogate throws a URIError, and the octets of the code
    point's UTF-8 encoding are appended as [%XY]. *)
Fixpoint encode_uri_component (s : jsstr) : throws jsstr :=
  match s with
  | [] => Ok []
  | c :: rest =>
      if uri_unreserved c then cons c <$> encode_uri_component rest
      else if is_high_surrogate c then
        match rest with
        | t :: rest' =>
            if is_low_surrogate t then
              app (percent_octets (utf8_encode_cp (surrogate_pair_to_cp c t)))
                <$> encode_uri_component rest'
            else Throw URIError
        | [] => Throw URIError
        end
      else if is_low_surrogate c then Throw URIError
      else app (percent_octets (utf8_encode_cp c)) <$> encode_uri_component rest
  end.

(** ** Reference definition over code points *)

Definition encode_cp (cp : Z) : jsstr :=
  if uri_unreserved cp then [cp] else percent_octets (utf8_encode_cp cp).

Definition encode_spec (s : jsstr) : throws jsstr :=
  if decide (well_formed s) then Ok (concat (map encode_cp (code_points s)))
  else Throw URIError.

(** ** Lemmas *)

Arguments utf8_encode_cp : simpl never.

Lemma uri_unreserved_spec u :
  uri_unreserved u = true ->
  (97 <= u <= 122) \/ (65 <= u <= 90) \/ (48 <= u <= 57) \/ u ∈ uri_mark.
Proof.
  unfold uri_unreserved. rewrite !orb_true_iff, !andb_true_iff, !Z.leb_le, bool_decide_eq_true.
  tauto.
Qed.

Ltac mark_mem := unfold component_safe, uri_mark in *; lit_eval;
  rewrite ?list_elem_of_In in *; simpl in *.

Lemma uri_unreserved_safe u : uri_unreserved u = true -> component_safe u.
Proof. intros H. apply uri_unreserved_spec in H. mark_mem. lia. Qed.

Lemma uri_unreserved_ascii u : uri_unreserved u = true -> 0 <= u < 128.
Proof. intros H. apply uri_unreserved_safe in H. apply H. Qed.

Lemma uri_unreserved_not_percent u : uri_unreserved u = true -> u <> 37.
Proof. intros H. apply uri_unreserved_spec in H. mark_mem. lia. Qed.

Lemma hex_digit_range d :
  0 <= d < 16 -> (48 <= hex_digit d <= 57 /\ d < 10) \/ (65 <= hex_digit d <= 70 /\ 10 <= d).
Proof. unfold hex_digit. destruct (Z.ltb_spec d 10); lia. Qed.

Lemma hex_digit_safe d : 0 <= d < 16 -> component_safe (hex_digit d).
Proof. intros Hd. pose proof (hex_digit_range d Hd). mark_mem. lia. Qed.

Lemma percent_octets_cons b bs : percent_octets (b :: bs) = percent_byte b ++ percent_octets bs.
Proof. done. Qed.

Lemma percent_octets_app o1 o2 :
  percent_octets (o1 ++ o2) = percent_octets o1 ++ percent_octets o2.
Proof. unfold percent_octets. by rewrite map_app, concat_app. Qed.

(** Percent-encoded octets are ["%"] and component-safe code units. *)
Lemma percent_octets_safe octets :
  bytes_ok octets -> Forall (fun u => u = 37 \/ component_safe u) (percent_octets octets).
Proof.
  induction 1 as [|b bs Hb _ IH]; [constructor|].
  rewrite percent_octets_cons. apply Forall_app. split; [|done].
  unfold percent_byte. rewrite !Forall_cons_iff.
  split; [by left|]. split; [right; apply hex_digit_safe; zlia|].
  split; [right; apply hex_digit_safe; zlia|constructor].
Qed.

(** The UTF-8 encoding of a scalar value is made of bytes. *)
Lemma utf8_encode_cp_bytes cp : scalar cp -> bytes_ok (utf8_encode_cp cp).
Proof.
  intros [Hr _]. unfold bytes_ok.
  destruct (Z.leb_spec cp 0x7F); [|destruct (Z.leb_spec cp 0x7FF); [|destruct (Z.leb_spec cp 0xFFFF)]].
  - rewrite utf8_encode_cp_1 by lia. repeat constructor; lia.
  - rewrite utf8_encode_cp_2 by lia. repeat constructor; zlia.
  - rewrite utf8_encode_cp_3 by lia. repeat constructor; zlia.
  - rewrite utf8_encode_cp_4 by lia. repeat constructor; zlia.
Qed.

(** *** The reference definition, one code point at a time *)

Lemma encode_spec_nil : encode_spec [] = Ok [].
Proof. done. Qed.

Lemma fmap_throws_Throw {A B} (f : A -> B) e : f <$> (Throw e : throws A) = Throw e.
Proof. done. Qed.

Lemma well_formed_not_high x r :
  is_high_surrogate x = false -> well_formed (x :: r) <-> ~ surrogate x /\ well_formed r.
Proof. intros Hx. unfold well_formed. rewrite code_points_not_high by done. apply Forall_cons_iff. Qed.

Lemma well_formed_pair x y l :
  0xD800 <= x <= 0xDBFF -> 0xDC00 <= y <= 0xDFFF ->
  well_formed (x :: y :: l) <-> well_formed l.
Proof.
  intros Hx Hy. pose proof (surrogate_pair_range x y Hx Hy).
  unfold well_formed. rewrite code_points_surrogate_pair, Forall_cons_iff by done.
  unfold surrogate. intuition lia.
Qed.

Lemma encode_spec_not_high x r :
  is_high_surrogate x = false ->
  encode_spec (x :: r) =
  if decide (surrogate x) then Throw URIError else app (encode_cp x) <$> encode_spec r.
Proof.
  intros Hx. pose proof (well_formed_not_high x r Hx) as Hw. unfold encode_spec.
  rewrite code_points_not_high by done.
  destruct (decide (well_formed (x :: r))), (decide (surrogate x)), (decide (well_formed r));
    tauto.
Qed.

Lemma encode_spec_pair x y l :
  0xD800 <= x <= 0xDBFF -> 0xDC00 <= y <= 0xDFFF ->
  encode_spec (x :: y :: l) = app (encode_cp (surrogate_pair_to_cp x y)) <$> encode_spec l.
Proof.
  intros Hx Hy. pose proof (well_formed_pair x y l Hx Hy) as Hw. unfold encode_spec.
  rewrite code_points_surrogate_pair by done.
  destruct (decide (well_formed (x :: y :: l))), (decide (well_formed l)); tauto.
Qed.

Lemma encode_spec_lone x r :
  0xD800 <= x <= 0xDFFF -> code_points (x :: r) = x :: code_points r ->
  encode_spec (x :: r) = Throw URIError.
Proof.
  intros Hx Hc. unfold encode_spec. rewrite decide_False; [done|].
  unfold well_formed. rewrite Hc, Forall_cons_iff. unfold surrogate. tauto.
Qed.

Lemma encode_cp_non_ascii cp : 128 <= cp -> encode_cp cp = percent_octets (utf8_encode_cp cp).
Proof.
  intros H. unfold encode_cp. destruct (uri_unreserved cp) eqn:E; [|done].
  apply uri_unreserved_ascii in E. lia.
Qed.

Lemma encode_uri_component_cons c rest :
  encode_uri_component (c :: rest) =
  if uri_unreserved c then cons c <$> encode_uri_component rest
  else if is_high_surrogate c then
    match rest with
    | t :: rest' =>
        if is_low_surrogate t then
          app (percent_octets (utf8_encode_cp (surrogate_pair_to_cp c t)))
            <$> encode_uri_component rest'
        else Throw URIError
    | [] => Throw URIError
    end
  else if is_low_surrogate c then Throw URIError
  else app (percent_octets (utf8_encode_cp c)) <$> encode_uri_component rest.
Proof. done. Qed.

(** The loop of Encode computes the reference definition: it throws a
    URIError exactly when the string has a lone surrogate, and otherwise
    encodes it code point by code point. *)
Theorem encode_uri_component_spec s :
  units_ok s -> encode_uri_component s = encode_spec s.
Proof.
  induction s as [|x|x y l IH1 IH2] using list_ind2; intros Hs; [done| |].
  - invc Hs. rewrite encode_uri_component_cons.
    destruct (uri_unreserved x) eqn:Eu.
    + rewrite encode_spec_not_high.
      * pose proof (uri_unreserved_ascii x Eu). rewrite decide_False by (unfold surrogate; lia).
        unfold encode_cp. by rewrite Eu.
      * apply is_high_surrogate_false. pose proof (uri_unreserved_ascii x Eu). lia.
    + destruct (is_high_surrogate x) eqn:Eh.
      * surr. rewrite encode_spec_lone; [done|lia|]. simpl. by rewrite (proj2 (is_high_surrogate_spec x) Eh).
      * rewrite encode_spec_not_high by done. unfold encode_cp. rewrite Eu.
        destruct (is_low_surrogate x) eqn:El; surr.
        -- rewrite decide_True by (unfold surrogate; lia). done.
        -- rewrite decide_False by (unfold surrogate; lia). done.
  - invc Hs. pose proof (Forall_inv H2) as Hy. rewrite encode_uri_component_cons.
    destruct (uri_unreserved x) eqn:Eu.
    + pose proof (uri_unreserved_ascii x Eu).
      rewrite encode_spec_not_high by (apply is_high_surrogate_false; lia).
      rewrite decide_False by (unfold surrogate; lia). unfold encode_cp. rewrite Eu.
      by rewrite IH2.
    + destruct (is_high_surrogate x) eqn:Eh; [destruct (is_low_surrogate y) eqn:El|].
      * surr. rewrite encode_spec_pair by done. invc H2. rewrite IH1 by done.
        rewrite encode_cp_non_ascii; [done|]. pose proof (surrogate_pair_range x y). lia.
      * surr. rewrite encode_spec_lone; [done|lia|].
        apply code_points_high_not_low; [apply is_high_surrogate_spec | apply is_low_surrogate_false]; lia.
      * rewrite encode_spec_not_high by done. unfold encode_cp. rewrite Eu.
        destruct (is_low_surrogate x) eqn:El; surr.
        -- rewrite decide_True by (unfold surrogate; lia). done.
        -- rewrite decide_False by (unfold surrogate; lia). by rewrite IH2.
Qed.

(** [encodeURIComponent] throws, and throws a URIError, exactly on the
    strings that hold a lone surrogate. *)
Theorem encode_uri_component_throws s :
  units_ok s -> encode_uri_component s = Throw URIError <-> ~ well_formed s.
Proof.
  intros Hu. rewrite encode_uri_component_spec by done. unfold encode_spec.
  case_decide; split; intros; done.
Qed.

Lemma encode_uri_component_ok s :
  units_ok s -> well_formed s ->
  encode_uri_component s = Ok (concat (map encode_cp (code_points s))).
Proof. intros Hu Hw. rewrite encode_uri_component_spec by done. unfold encode_spec. by case_decide. Qed.

Lemma encode_cp_safe cp : scalar cp -> Forall (fun u => u = 37 \/ component_safe u) (encode_cp cp).
Proof.
  intros Hcp. unfold encode_cp. destruct (uri_unreserved cp) eqn:E.
  - constructor; [|constructor]. right. by apply uri_unreserved_safe.
  - apply percent_octets_safe, utf8_encode_cp_bytes, Hcp.
Qed.

(** What [encodeURIComponent] returns is ASCII and holds no double quote,
    [#], [&], [+], [<], [=] or [>]: an encoded glyph or colour can neither
    end the query component it is put in nor the [href] attribute around
    it. *)
Theorem encode_uri_component_safe s e :
  units_ok s -> encode_uri_component s = Ok e ->
  Forall (fun u => u = 37 \/ component_safe u) e.
Proof.
  intros Hu He. rewrite encode_uri_component_spec in He by done. unfold encode_spec in He.
  case_decide as Hw; [|done]. injection He as <-.
  apply Forall_concat, Forall_map. pose proof (scalar_code_points s Hu Hw) as Hs.
  eapply Forall_impl; [apply encode_cp_safe | exact Hs].
Qed.

(** A string of unreserved code units is its own encoding. *)
Lemma encode_uri_component_unreserved s :
  Forall (fun u => uri_unreserved u = true) s -> encode_uri_component s = Ok s.
Proof.
  induction 1 as [|u s Hu _ IH]; [done|].
  rewrite encode_uri_component_cons, Hu, IH. done.
Qed.

Lemma uri_unreserved_lower u : 97 <= u <= 122 -> uri_unreserved u = true.
Proof. intros H. unfold uri_unreserved. zcase; lia. Qed.

(** Percent-encoded octets are [%] and upper-case hexadecimal digits. *)
Lemma percent_octets_chars os :
  bytes_ok os -> Forall (fun u => u = 37 \/ 48 <= u <= 57 \/ 65 <= u <= 70) (percent_octets os).
Proof.
  induction 1 as [|b bs Hb _ IH]; [constructor|].
  rewrite percent_octets_cons. apply Forall_app. split; [|done].
  assert (H1 : 0 <= b / 16 < 16) by zlia. assert (H2 : 0 <= b mod 16 < 16) by zlia.
  pose proof (hex_digit_range _ H1). pose proof (hex_digit_range _ H2).
  constructor; [by left|]. constructor; [right; lia|]. constructor; [right; lia|]. constructor.
Qed.

(** [encodeURIComponent] writes printable ASCII without [#]: unreserved
    code units, [%] and hexadecimal digits. *)
Lemma encode_uri_component_printable s e :
  units_ok s -> encode_uri_component s = Ok e -> Forall (fun u => 0x21 <= u <= 0x7E /\ u <> 35) e.
Proof.
  intros Hu He. rewrite encode_uri_component_spec in He by done. unfold encode_spec in He.
  case_decide as Hw; [|done]. injection He as <-.
  apply Forall_concat, Forall_map. pose proof (scalar_code_points s Hu Hw) as Hs.
  eapply Forall_impl; [|exact Hs]. intros cp Hcp. unfold encode_cp. destruct (uri_unreserved cp) eqn:E.
  - constructor; [|constructor]. apply uri_unreserved_spec in E as [?|[?|[?|Hm]]]; try lia.
    revert Hm. mark_mem. lia.
  - eapply Forall_impl; [|apply percent_octets_chars, utf8_encode_cp_bytes, Hcp]. cbn beta. lia.
Qed.

Lemma percent_octets_length os : length (percent_octets os) = (3 * length os)%nat.
Proof. induction os as [|b os IH]; [done|]. rewrite percent_octets_cons, length_app, IH. cbn. lia. Qed.

Lemma utf16_encode_cp_length cp :
  length (utf16_encode_cp cp) = if cp <=? 0xFFFF then 1%nat else 2%nat.
Proof. unfold utf16_encode_cp. by destruct (cp <=? 0xFFFF). Qed.

(** One code point takes one or two code units, and between one and nine
    code units per code unit once encoded. *)
Lemma encode_cp_length cp :
  scalar cp ->
  (length (utf16_encode_cp cp) <= length (encode_cp cp) <= 9 * length (utf16_encode_cp cp))%nat.
Proof.
  intros [Hr _]. rewrite utf16_encode_cp_length. unfold encode_cp.
  destruct (uri_unreserved cp) eqn:E.
  - pose proof (uri_unreserved_ascii cp E). destruct (Z.leb_spec cp 0xFFFF); [cbn; lia|lia].
  - rewrite percent_octets_length.
    destruct (Z.leb_spec cp 0x7F); [rewrite utf8_encode_cp_1 by lia|].
    { destruct (Z.leb_spec cp 0xFFFF); [cbn; lia|lia]. }
    destruct (Z.leb_spec cp 0x7FF); [rewrite utf8_encode_cp_2 by lia|].
    { destruct (Z.leb_spec cp 0xFFFF); [cbn; lia|lia]. }
    destruct (Z.leb_spec cp 0xFFFF); [rewrite utf8_encode_cp_3 by lia; cbn; lia|].
    rewrite utf8_encode_cp_4 by lia. cbn. lia.
Qed.

Lemma encoded_length cps :
  Forall scalar cps ->
  (length (utf16_encode cps) <= length (concat (map encode_cp cps)) <= 9 * length (utf16_encode cps))%nat.
Proof.
  induction 1 as [|cp cps Hcp _ IH]; [change (utf16_encode []) with (@nil Z); cbn; lia|].
  rewrite utf16_encode_cons. cbn [map concat]. rewrite !length_app.
  pose proof (encode_cp_length cp Hcp). lia.
Qed.

(** ** Main properties *)

(** C7: The ECMA-262 Encode loop over code units ([encode_uri_component])
    computes the reference definition over code points ([encode_spec]):
    URIError if the string has a lone surrogate, otherwise each code point
    copied if unreserved and written as its percent-encoded UTF-8 octets
    if not. *)
Theorem encodeURIComponent_refines_spec s :
  units_ok s -> encode_uri_component s = encode_spec s.
Proof. apply encode_uri_component_spec. Qed.

(** C8: [encodeURIComponent] throws exactly on strings with a lone
    surrogate, and then throws a URIError; on every well-formed string it
    returns a result. *)
Theorem encodeURIComponent_error s :
  units_ok s ->
  (encode_uri_component s = Throw URIError <-> ~ well_formed s) /\
  (well_formed s -> exists e, encode_uri_component s = Ok e).
Proof.
  intros Hu. split; [by apply encode_uri_component_throws|].
  intros Hw. eexists. by apply encode_uri_component_ok.
Qed.

(** C10: The output of [encodeURIComponent] consists of [%] and ASCII code
    units other than the double quote, [#], [&], [+], [<], [=] and [>]. *)
Theorem encodeURIComponent_output_safe s e :
  units_ok s -> encode_uri_component s = Ok e ->
  Forall (fun u => u = 37 \/ component_safe u) e.
Proof. apply encode_uri_component_safe. Qed.

(** C34: Bounds of [encodeURIComponent]: its result is at least as long
    as its argument and at most nine times as long (three [%XY] per code
    unit of a code point below U+10000; twelve characters for a surrogate
    pair). *)
Theorem encodeURIComponent_length_bounds s e :
  units_ok s -> encode_uri_component s = Ok e ->
  (length s <= length e <= 9 * length s)%nat.
Proof.
  intros Hu He. rewrite encode_uri_component_spec in He by done. unfold encode_spec in He.
  case_decide as Hw; [|done]. injection He as <-.
  pose proof (encoded_length _ (scalar_code_points s Hu Hw)) as H.
  by rewrite (utf16_encode_code_points s Hu) in H.
Qed.

(** Witnesses. *)
Lemma encodeURIComponent_refines_spec_witness :
  units_ok [0xD83E; 0xDD13; 0x26] /\
  encode_uri_component [0xD83E; 0xDD13; 0x26] = encode_spec [0xD83E; 0xDD13; 0x26].
Proof.
  assert (H : units_ok [0xD83E; 0xDD13; 0x26]) by compute_done.
  split; [exact H | exact (encodeURIComponent_refines_spec _ H)].
Defined.

Lemma encodeURIComponent_error_witness :
  units_ok [0x41; 0xDC00] /\
  ((encode_uri_component [0x41; 0xDC00] = Throw URIError <-> ~ well_formed [0x41; 0xDC00]) /\
   (well_formed [0x41; 0xDC00] -> exists e, encode_uri_component [0x41; 0xDC00] = Ok e)).
Proof.
  assert (H : units_ok [0x41; 0xDC00]) by compute_done.
  split; [exact H | exact (encodeURIComponent_error _ H)].
Defined.

Lemma encodeURIComponent_output_safe_witness :
  units_ok «"a&b"» /\ encode_uri_component «"a&b"» = Ok «"a%26b"» /\
  Forall (fun u => u = 37 \/ component_safe u) «"a%26b"».
Proof.
  assert (H1 : units_ok «"a&b"») by compute_done.
  assert (H2 : encode_uri_component «"a&b"» = Ok «"a%26b"») by (vm_compute; reflexivity).
  split; [exact H1|]. split; [exact H2|]. exact (encodeURIComponent_output_safe _ _ H1 H2).
Defined.

Lemma encodeURIComponent_length_bounds_witness :
  let s : jsstr := [0xD83D; 0xDD25; 0x61] in
  units_ok s /\ encode_uri_component s = Ok «"%F0%9F%94%A5a"» /\
  (length s <= length «"%F0%9F%94%A5a"» <= 9 * length s)%nat.
Proof.
  intros s. assert (H1 : units_ok s) by compute_done.
  assert (H2 : encode_uri_component s = Ok «"%F0%9F%94%A5a"») by (vm_compute; reflexivity).
  split; [exact H1|]. split; [exact H2|]. exact (encodeURIComponent_length_bounds _ _ H1 H2).
Defined.

End UriEncode.
