(* ===== verification/FormUrlencoded.v ===== *)
(** * FormUrlencoded: [url.searchParams] and [URLSearchParams.get]

    [handleSvg] reads the glyph and the colour with
    [url.searchParams.get('emoji')] and [.get('color')]
    (src/src/index.ts lines 26 to 28).  The URL Standard fills a URL's
    [URLSearchParams] object by running the application/x-www-form-urlencoded
    parser on the UTF-8 encoding of the URL's query.  This file models that
    parser as the standard writes it:
    - [split_on]: strictly splitting the bytes on [&];
    - [split_first]: name and value around the first [=];
    - [plus_to_space]: replacing [+] by a space;
    - [percent_decode]: percent-decoding a byte sequence;
    - [decode_component]: UTF-8 decode without BOM, then the JavaScript
      string of the resulting scalar values;
    - [parse_form] and [url_search_params].

    Main results: every value the parser produces is a well-formed string
    (so [encodeURIComponent] never throws on it), and the parser inverts
    [encodeURIComponent]: a query built as [n=encodeURIComponent(v)&...]
    parses back to the pairs it was built from. *)

From S2P Require Import Prelude JsString Utf8 WebApi UriEncode.
Import Utf16 Utf8 WebApi UriEncode.

Module FormUrlencoded.

(** ** Percent-decoding *)

Definition is_ascii_hex (b : Z) : bool :=
  ((48 <=? b) && (b <=? 57)) || ((65 <=? b) && (b <=? 70)) || ((97 <=? b) && (b <=? 102)).

Definition hex_value (b : Z) : Z :=
  if b <=? 57 then b - 48 else if b <=? 70 then b - 55 else b - 87.

(** A [%] followed by two ASCII hex digits stands for the byte they spell;
    any other byte, a [%] included, stands for itself. *)
Fixpoint percent_decode (bs : list Z) : list Z :=
  match bs with
  | [] => []
  | 37 :: ((h1 :: h2 :: rest) as t) =>
      if is_ascii_hex h1 && is_ascii_hex h2
      then (hex_value h1 * 16 + hex_value h2) :: percent_decode rest
      else 37 :: percent_decode t
  | b :: rest => b :: percent_decode rest
  end.

(** ** The application/x-www-form-urlencoded parser *)

(** Strictly split a byte sequence on a delimiter: [n] delimiters give
    [n + 1] sequences, empty ones included. *)
Fixpoint split_on (sep : Z) (bs : list Z) : list (list Z) :=
  match bs with
  | [] => [[]]
  | b :: rest =>
      if b =? sep then [] :: split_on sep rest
      else match split_on sep rest with
           | [] => [[b]]
           | x :: xs => (b :: x) :: xs
           end
  end.

(** Name and value of one sequence: the bytes before and after its first
    [=]; without a [=], the whole sequence is the name and the value is
    empty. *)
Fixpoint split_first (bs : list Z) : list Z * list Z :=
  match bs with
  | [] => ([], [])
  | b :: rest =>
      if b =? 61 then ([], rest)
      else let '(n, v) := split_first rest in (b :: n, v)
  end.

Definition plus_to_space (bs : list Z) : list Z :=
  map (fun b => if b =? 43 then 32 else b) bs.

(** Replace [+] by a space, percent-decode, UTF-8 decode without BOM, and
    make the JavaScript string of the scalar values. *)
Definition decode_component (bs : list Z) : jsstr :=
  utf16_encode (utf8_decode (percent_decode (plus_to_space bs))).

Definition parse_sequence (bs : list Z) : list (jsstr * jsstr) :=
  match bs with
  | [] => []
  | _ => let '(n, v) := split_first bs in [(decode_component n, decode_component v)]
  end.

Definition parse_form (bs : list Z) : list (jsstr * jsstr) :=
  concat (map parse_sequence (split_on 38 bs)).

(** The list of a URL's [searchParams]: the parser run on the UTF-8
    encoding of the URL's query string. *)
Definition url_search_params (query : jsstr) : list (jsstr * jsstr) :=
  parse_form (utf8_encode (code_points query)).

(** The pairs of a serialised list, when no name holds [&] or [=] and no
    value holds [&]. *)
Definition pair_ok (p : jsstr * jsstr) : Prop := (38 ∉ p.1) /\ (61 ∉ p.1) /\ (38 ∉ p.2).

(** ** Lemmas *)

Arguments utf16_encode : simpl never.
Arguments utf8_encode_cp : simpl never.

Lemma percent_decode_other b rest : b <> 37 -> percent_decode (b :: rest) = b :: percent_decode rest.
Proof.
  intros Hb. destruct b as [|p|p]; [done| |done].
  do 6 (destruct p as [p|p|]; try done).
Qed.

Lemma percent_decode_escape h1 h2 rest :
  is_ascii_hex h1 = true -> is_ascii_hex h2 = true ->
  percent_decode (37 :: h1 :: h2 :: rest) = (hex_value h1 * 16 + hex_value h2) :: percent_decode rest.
Proof. intros H1 H2. simpl. by rewrite H1, H2. Qed.

Lemma hex_digit_inv d : 0 <= d < 16 -> is_ascii_hex (hex_digit d) = true /\ hex_value (hex_digit d) = d.
Proof.
  intros Hd. unfold hex_digit, is_ascii_hex, hex_value.
  destruct (Z.ltb_spec d 10); zcase; split; lia.
Qed.

Lemma percent_decode_octets os rest :
  bytes_ok os -> percent_decode (percent_octets os ++ rest) = os ++ percent_decode rest.
Proof.
  induction 1 as [|b bs Hb _ IH]; [done|].
  rewrite percent_octets_cons, <- app_assoc. unfold percent_byte. simpl app.
  destruct (hex_digit_inv (b / 16)) as [Ha Hva]; [zlia|].
  destruct (hex_digit_inv (b mod 16)) as [Hb' Hvb]; [zlia|].
  rewrite percent_decode_escape, Hva, Hvb, IH by done. f_equal. zlia.
Qed.

Lemma percent_decode_encode_cp cp rest :
  scalar cp -> percent_decode (encode_cp cp ++ rest) = utf8_encode_cp cp ++ percent_decode rest.
Proof.
  intros Hcp. unfold encode_cp. destruct (uri_unreserved cp) eqn:E.
  - pose proof (uri_unreserved_ascii cp E). rewrite utf8_encode_cp_1 by lia.
    apply percent_decode_other, uri_unreserved_not_percent, E.
  - by apply percent_decode_octets, utf8_encode_cp_bytes.
Qed.

Lemma percent_decode_encoded cps rest :
  Forall scalar cps ->
  percent_decode (concat (map encode_cp cps) ++ rest) = utf8_encode cps ++ percent_decode rest.
Proof.
  induction 1 as [|cp cps Hcp _ IH]; [done|].
  simpl. rewrite <- app_assoc, percent_decode_encode_cp, IH by done.
  unfold utf8_encode. simpl. by rewrite app_assoc.
Qed.

Lemma plus_to_space_id bs : 43 ∉ bs -> plus_to_space bs = bs.
Proof.
  intros H. unfold plus_to_space. rewrite <- (map_id bs) at 2. apply map_ext_in.
  intros b Hb. destruct (Z.eqb_spec b 43); [|done]. subst. rewrite list_elem_of_In in H. tauto.
Qed.

Lemma encoded_no u e : u <> 37 -> ~ component_safe u ->
  Forall (fun x => x = 37 \/ component_safe x) e -> u ∉ e.
Proof.
  intros H1 H2 He Hin. rewrite Forall_forall in He. rewrite list_elem_of_In in Hin.
  destruct (He u Hin); auto.
Qed.

(** [safe_excl] shows that a given code unit is not component-safe. *)
Ltac safe_excl := unfold component_safe; lit_eval; rewrite list_elem_of_In; simpl; tauto.

Lemma encode_uri_component_Ok_inv s e :
  units_ok s -> encode_uri_component s = Ok e ->
  well_formed s /\ e = concat (map encode_cp (code_points s)).
Proof.
  intros Hu He. rewrite encode_uri_component_spec in He by done. unfold encode_spec in He.
  case_decide; [|done]. by injection He as <-.
Qed.

(** Decoding an encoded component gives the original string back. *)
Lemma decode_component_encoded s e :
  units_ok s -> encode_uri_component s = Ok e -> decode_component e = s.
Proof.
  intros Hu He. pose proof (encode_uri_component_safe s e Hu He) as Hsafe.
  apply encode_uri_component_Ok_inv in He as [Hw ->]; [|done].
  pose proof (scalar_code_points s Hu Hw) as Hs.
  unfold decode_component. rewrite plus_to_space_id.
  - rewrite <- (app_nil_r (concat _)), percent_decode_encoded by done.
    rewrite app_nil_r, utf8_decode_encode by done. by apply utf16_encode_code_points.
  - apply (encoded_no 43); [lia| safe_excl | done].
Qed.

Lemma split_on_no_sep sep a : sep ∉ a -> split_on sep a = [a].
Proof.
  induction a as [|b a IH]; intros Ha; [done|].
  rewrite elem_of_cons in Ha. cbn [split_on]. destruct (Z.eqb_spec b sep); [subst; tauto|].
  rewrite IH by tauto. done.
Qed.

Lemma split_on_app sep a b :
  sep ∉ a -> split_on sep (a ++ sep :: b) = a :: split_on sep b.
Proof.
  induction a as [|x a IH]; intros Ha; cbn [split_on app].
  - by rewrite Z.eqb_refl.
  - rewrite elem_of_cons in Ha. destruct (Z.eqb_spec x sep); [subst; tauto|].
    rewrite IH by tauto. done.
Qed.

Lemma split_first_app n v : 61 ∉ n -> split_first (n ++ 61 :: v) = (n, v).
Proof.
  induction n as [|x n IH]; intros Hn; cbn [split_first app].
  - by rewrite Z.eqb_refl.
  - rewrite elem_of_cons in Hn. destruct (Z.eqb_spec x 61); [subst; tauto|].
    rewrite IH by tauto. done.
Qed.

Lemma split_join encs :
  encs <> [] -> Forall pair_ok encs ->
  split_on 38 (join_amp (map pair_query encs)) = map pair_query encs.
Proof.
  intros Hne Hok. induction Hok as [|[n v] es [H1 [H2 H3]] Hok IH]; [done|].
  assert (Hq : 38 ∉ pair_query (n, v)).
  { unfold pair_query. simpl. rewrite elem_of_app, elem_of_cons. intuition lia. }
  destruct es as [|e es].
  - by apply split_on_no_sep.
  - change (join_amp (map pair_query ((n, v) :: e :: es)))
      with (pair_query (n, v) ++ 38 :: join_amp (map pair_query (e :: es))).
    rewrite split_on_app by done. by rewrite IH.
Qed.

Lemma parse_sequence_pair n v :
  61 ∉ n -> parse_sequence (n ++ 61 :: v) = [(decode_component n, decode_component v)].
Proof.
  intros Hn. assert (E : exists x l, n ++ 61 :: v = x :: l) by (destruct n; eauto).
  destruct E as (x & l & E). unfold parse_sequence. rewrite E, <- E, split_first_app by done.
  done.
Qed.

Lemma parse_sequences encs :
  Forall pair_ok encs ->
  concat (map parse_sequence (map pair_query encs)) =
  map (fun p => (decode_component p.1, decode_component p.2)) encs.
Proof.
  induction 1 as [|[n v] es [H1 [H2 H3]] Hok IH]; [done|].
  cbn [map concat]. unfold pair_query at 1. simpl.
  rewrite parse_sequence_pair by done. simpl. by rewrite IH.
Qed.

Lemma parse_form_join encs :
  Forall pair_ok encs ->
  parse_form (join_amp (map pair_query encs)) =
  map (fun p => (decode_component p.1, decode_component p.2)) encs.
Proof.
  intros Hok. unfold parse_form. destruct encs as [|e es]; [done|].
  rewrite split_join by done. by apply parse_sequences.
Qed.

Lemma encoded_pair_ok n v N V :
  units_ok n -> units_ok v ->
  encode_uri_component n = Ok N -> encode_uri_component v = Ok V -> pair_ok (N, V).
Proof.
  intros Hn Hv HN HV.
  pose proof (encode_uri_component_safe n N Hn HN). pose proof (encode_uri_component_safe v V Hv HV).
  unfold pair_ok. simpl. split; [|split]; (apply (encoded_no 38) || apply (encoded_no 61));
    try lia; try done; safe_excl.
Qed.

(** Parsing a query written as [name=encodeURIComponent(value)&...]
    (names and values encoded) gives back the pairs it was written from. *)
Theorem parse_form_encoded pairs encs :
  Forall (fun p => units_ok p.1 /\ units_ok p.2) pairs ->
  Forall2 (fun p E => encode_uri_component p.1 = Ok E.1 /\ encode_uri_component p.2 = Ok E.2)
    pairs encs ->
  parse_form (join_amp (map pair_query encs)) = pairs.
Proof.
  intros Hu He. rewrite parse_form_join.
  - induction He as [|[n v] [N V] pairs encs [HN HV] He IH]; [done|].
    invc Hu. destruct H1. simpl in *. rewrite IH by done.
    by rewrite (decode_component_encoded n N), (decode_component_encoded v V).
  - induction He as [|[n v] [N V] pairs encs [HN HV] He IH]; [done|].
    invc Hu. destruct H1. constructor; [|auto]. by apply (encoded_pair_ok n v).
Qed.

(** An ASCII string is its own UTF-8 encoding. *)
Lemma utf8_encode_ascii s :
  Forall (fun u => 0 <= u < 128) s -> utf8_encode (code_points s) = s.
Proof.
  induction 1 as [|u s Hu _ IH]; [done|].
  rewrite code_points_not_high by (apply is_high_surrogate_false; lia).
  unfold utf8_encode in *. simpl. rewrite utf8_encode_cp_1 by lia. simpl. by rewrite IH.
Qed.

(** Every name and value in [url.searchParams] is a well-formed string of
    code units: the parser decodes with replacement, so no lone surrogate
    survives. *)
Theorem url_search_params_well_formed q :
  Forall (fun p => units_ok p.1 /\ well_formed p.1 /\ units_ok p.2 /\ well_formed p.2)
    (url_search_params q).
Proof.
  assert (Hd : forall bs, units_ok (decode_component bs) /\ well_formed (decode_component bs)).
  { intros bs. pose proof (utf8_decode_scalar (percent_decode (plus_to_space bs))) as H.
    unfold decode_component. split.
    - apply units_ok_utf16_encode. eapply Forall_impl; [|exact H]. by intros ? [].
    - by apply well_formed_utf16_encode. }
  unfold url_search_params, parse_form. apply Forall_concat, Forall_map.
  apply Forall_forall. intros seq _. unfold parse_sequence.
  destruct seq; [constructor|]. destruct (split_first _) as [n v].
  constructor; [|constructor]. simpl. pose proof (Hd n). pose proof (Hd v). tauto.
Qed.

(** ** Main properties *)

(** C9: The application/x-www-form-urlencoded parser inverts
    [encodeURIComponent]: for name/value pairs of 16-bit strings whose
    names and values encode successfully, parsing the query
    [N1=V1&N2=V2&...] built from the encodings gives the pairs back. *)
Theorem form_roundtrip pairs encs :
  Forall (fun p => units_ok p.1 /\ units_ok p.2) pairs ->
  Forall2 (fun p E => encode_uri_component p.1 = Ok E.1 /\ encode_uri_component p.2 = Ok E.2)
    pairs encs ->
  parse_form (join_amp (map pair_query encs)) = pairs.
Proof. apply parse_form_encoded. Qed.

(** C11: Every name and value of [url.searchParams], for any query, is a
    string of 16-bit code units without lone surrogates. *)
Theorem searchParams_well_formed q :
  Forall (fun p => usv p.1 /\ usv p.2) (url_search_params q).
Proof.
  pose proof (url_search_params_well_formed q) as H.
  rewrite Forall_forall in *. intros p Hp. unfold usv. specialize (H p Hp). tauto.
Qed.

(** Witness. *)
Lemma form_roundtrip_witness :
  Forall (fun p => units_ok p.1 /\ units_ok p.2) [(«"emoji"», «"a&b"»)] /\
  Forall2 (fun p E => encode_uri_component p.1 = Ok E.1 /\ encode_uri_component p.2 = Ok E.2)
    [(«"emoji"», «"a&b"»)] [(«"emoji"», «"a%26b"»)] /\
  parse_form (join_amp (map pair_query [(«"emoji"», «"a%26b"»)])) = [(«"emoji"», «"a&b"»)].
Proof.
  assert (H1 : Forall (fun p => units_ok p.1 /\ units_ok p.2) [(«"emoji"», «"a&b"»)])
    by (repeat constructor; compute_done).
  assert (H2 : Forall2 (fun p E => encode_uri_component p.1 = Ok E.1 /\ encode_uri_component p.2 = Ok E.2)
    [(«"emoji"», «"a&b"»)] [(«"emoji"», «"a%26b"»)])
    by (repeat constructor; vm_compute; reflexivity).
  split; [exact H1|]. split; [exact H2|]. exact (form_roundtrip _ _ H1 H2).
Defined.

End FormUrlencoded.
