(* ===== verification/Url.v ===== *)
(** * Url: [new URL(request.url)] after the host (WHATWG URL Standard)

    [handleSvg] reads two things of the parsed URL (line 24): its
    [pathname] (line 25) and its [searchParams] (line 26), built from its
    query.  This file models the basic URL parser of the URL Standard on
    the part of a special URL (scheme [http] or [https]) that follows the
    host: the path start, path and query states, with the preprocessing of
    the input and the percent-encode sets they use.
    - [preprocess]: the input as the parser iterates it: the USVString's
      code points, trailing C0 controls and spaces removed, ASCII tabs and
      newlines removed;
    - [path_set], [special_query_set], [utf8_percent_encode]: the path and
      special-query percent-encode sets and UTF-8 percent-encoding of one
      code point;
    - [single_dot], [double_dot], [shorten], [end_segment]: what the path
      state does at the end of a segment;
    - [path_state], [query_state], [path_start]: the three states, one
      code point at a time (the fragment state only discards, so the query
      state stops at [#]);
    - [parse_after_host]: the URL's path, serialised as [pathname], and its
      query (null when there is no [?]).
    The scheme and host states (scheme, credentials, host and port
    parsing) are not modelled: the request URL a worker receives has a
    special scheme and a valid host, and the handler reads neither.

    Main results: the pathname starts with [/] and, like the query, holds
    only printable ASCII outside its percent-encode set; parsing the
    serialisation of a parsed URL gives it back (idempotence); and the
    query's percent-encoding is invisible to [searchParams]. *)

From S2P Require Import Prelude JsString Utf8 UriEncode FormUrlencoded.
Import Utf16 Utf8 UriEncode FormUrlencoded.

Module Url.

(** ** Preprocessing *)

Definition c0_control_or_space (c : Z) : bool := (0 <=? c) && (c <=? 0x20).

Definition ascii_tab_or_newline (c : Z) : bool := (c =? 9) || (c =? 10) || (c =? 13).

Fixpoint drop_c0_control_or_space (cps : list Z) : list Z :=
  match cps with
  | [] => []
  | c :: rest => if c0_control_or_space c then drop_c0_control_or_space rest else cps
  end.

(** The code points of the USVString [s] (the [URL] constructor converts
    its argument), without trailing C0 controls or spaces, and without
    ASCII tabs and newlines. *)
Definition preprocess (s : jsstr) : list Z :=
  List.filter (fun c => negb (ascii_tab_or_newline c))
    (rev (drop_c0_control_or_space (rev (code_points (to_usv s))))).

(** ** Percent-encoding *)

(** C0 control percent-encode set: the C0 controls and everything above
    [~]. *)
Definition c0_control_set (c : Z) : bool := (c <? 0x20) || (0x7E <? c).

(** Query percent-encode set: space, double quote, [#], [<] and [>] too. *)
Definition query_set (c : Z) : bool := c0_control_set c || bool_decide (c ∈ [32; 34; 35; 60; 62]).

(** Special-query percent-encode set: the query set and the apostrophe. *)
Definition special_query_set (c : Z) : bool := query_set c || (c =? 39).

(** Path percent-encode set: the query set and [?], backquote, [{] and
    [}]. *)
Definition path_set (c : Z) : bool := query_set c || bool_decide (c ∈ [63; 96; 123; 125]).

(** UTF-8 percent-encode a code point using a percent-encode set. *)
Definition utf8_percent_encode (set : Z -> bool) (c : Z) : jsstr :=
  if set c then percent_octets (utf8_encode_cp c) else [c].

(** Percent-encode a byte sequence with a set: the bytes in the set as
    [%XY]. *)
Definition percent_encode_bytes (set : Z -> bool) (bs : list Z) : list Z :=
  concat (map (fun b => if set b then percent_byte b else [b]) bs).

(** ** Path state *)

Definition is_slash (c : Z) : bool := (c =? 47) || (c =? 92).

(** [.] or [%2e], ASCII case-insensitively. *)
Definition single_dot (b : jsstr) : bool := bool_decide (to_lower b ∈ [«"."»; «"%2e"»]).

(** [..], [.%2e], [%2e.] or [%2e%2e], ASCII case-insensitively. *)
Definition double_dot (b : jsstr) : bool :=
  bool_decide (to_lower b ∈ [«".."»; «".%2e"»; «"%2e."»; «"%2e%2e"»]).

(** Shorten a URL's path (not a [file] URL): remove its last segment. *)
Definition shorten (path : list jsstr) : list jsstr := removelast path.

(** The path state at the end of a segment: [at_slash] says whether the
    segment ends at [/] or [\] (rather than at [?], [#] or the end). *)
Definition end_segment (path : list jsstr) (buffer : jsstr) (at_slash : bool) : list jsstr :=
  if double_dot buffer then (if at_slash then shorten path else shorten path ++ [[]])
  else if single_dot buffer then (if at_slash then path else path ++ [[]])
  else path ++ [buffer].

(** Query state: the code points up to [#], each UTF-8 percent-encoded
    with the special-query set. *)
Fixpoint query_state (cps : list Z) : jsstr :=
  match cps with
  | [] => []
  | c :: rest => if c =? 35 then [] else utf8_percent_encode special_query_set c ++ query_state rest
  end.

(** Path state: the path so far, the segment being read, and the input
    left; the result is the path and the query. *)
Fixpoint path_state (path : list jsstr) (buffer : jsstr) (cps : list Z) :
    list jsstr * option jsstr :=
  match cps with
  | [] => (end_segment path buffer false, None)
  | c :: rest =>
      if is_slash c then path_state (end_segment path buffer true) [] rest
      else if c =? 63 then (end_segment path buffer false, Some (query_state rest))
      else if c =? 35 then (end_segment path buffer false, None)
      else path_state path (buffer ++ utf8_percent_encode path_set c) rest
  end.

(** Path start state of a special URL: a leading [/] or [\] is consumed;
    anything else is read again by the path state. *)
Definition path_start (cps : list Z) : list jsstr * option jsstr :=
  match cps with
  | c :: rest => if is_slash c then path_state [] [] rest else path_state [] [] cps
  | [] => path_state [] [] []
  end.

(** ** The parsed URL *)

Record URL := {
  url_pathname : jsstr;       (* url.pathname *)
  url_query : option jsstr    (* the query, without the [?]; None is null *)
}.

(** The path serialiser: each segment after a [/]. *)
Definition serialize_path (path : list jsstr) : jsstr := concat (map (fun seg => 47 :: seg) path).

(** The URL whose input after the host is [s]. *)
Definition parse_after_host (s : jsstr) : URL :=
  let '(path, query) := path_start (preprocess s) in
  {| url_pathname := serialize_path path; url_query := query |}.

(** The text after the host that the URL serialiser writes. *)
Definition serialize_after_host (u : URL) : jsstr :=
  url_pathname u ++ match url_query u with Some q => 63 :: q | None => [] end.

(** ** Auxiliary notions of the proofs *)

(** A code point that percent-encoding with [set] leaves alone: printable
    ASCII outside the set. *)
Definition url_code_point (set : Z -> bool) (c : Z) : Prop := 0x21 <= c <= 0x7E /\ set c = false.

(** A segment of a parsed path: path code points, no slash, and not a dot
    segment. *)
Definition segment_ok (seg : jsstr) : Prop :=
  Forall (fun c => url_code_point path_set c /\ is_slash c = false) seg /\
  single_dot seg = false /\ double_dot seg = false.

(** The text after the path: [?] and the query, when there is one. *)
Definition query_suffix (query : option jsstr) : jsstr :=
  match query with Some q => 63 :: q | None => [] end.

(** [percent_decode] starting at a [%]: an escape when two hexadecimal
    digits follow. *)
Definition starts_escape (t : list Z) : bool :=
  match t with h1 :: h2 :: _ => is_ascii_hex h1 && is_ascii_hex h2 | _ => false end.

(** ** Lemmas *)

Lemma Forall_removelast {A} (P : A -> Prop) l : Forall P l -> Forall P (removelast l).
Proof. induction 1 as [|x l Hx Hl IH]; [constructor|]. destruct l; simpl; [constructor|by constructor]. Qed.

Lemma filter_all {A} (f : A -> bool) l : Forall (fun x => f x = true) l -> List.filter f l = l.
Proof. induction 1 as [|x l Hx _ IH]; [done|]. simpl. by rewrite Hx, IH. Qed.

(** [set_eval] decides a percent-encode set on a code point known by its
    bounds. *)
Ltac set_eval :=
  unfold path_set, special_query_set, query_set, c0_control_set in *;
  repeat match goal with
  | |- context [bool_decide (?c ∈ ?l)] =>
      rewrite (bool_decide_eq_false_2 (c ∈ l)) by (rewrite list_elem_of_In; simpl; lia)
  | |- context [?a <? ?b] => destruct (Z.ltb_spec a b); try lia
  | |- context [?a =? ?b] => destruct (Z.eqb_spec a b); try lia
  end; try reflexivity.

Section Percent_encoding.
Variable set : Z -> bool.
Hypothesis set_c0 : forall c, c0_control_set c = true -> set c = true.
Hypothesis set_space : set 32 = true.
Hypothesis set_percent : set 37 = false.
Hypothesis set_hex : forall d, 0 <= d < 16 -> set (hex_digit d) = false.

Lemma hex_digit_url_code_point d : 0 <= d < 16 -> url_code_point set (hex_digit d).
Proof. intros Hd. split; [pose proof (hex_digit_range d Hd); lia | auto]. Qed.

Lemma percent_octets_url_code_points os :
  bytes_ok os -> Forall (url_code_point set) (percent_octets os).
Proof.
  induction 1 as [|b bs Hb _ IH]; [constructor|].
  rewrite percent_octets_cons. apply Forall_app. split; [|done].
  repeat constructor; try apply hex_digit_url_code_point; try zlia. done.
Qed.

Lemma utf8_percent_encode_url_code_points c :
  scalar c -> Forall (url_code_point set) (utf8_percent_encode set c).
Proof.
  intros Hc. unfold utf8_percent_encode. destruct (set c) eqn:Hs.
  - by apply percent_octets_url_code_points, utf8_encode_cp_bytes.
  - repeat constructor; [| |done].
    + destruct (Z.eqb_spec c 32); [subst; congruence|].
      destruct (c0_control_set c) eqn:H0; [rewrite set_c0 in Hs; done|].
      unfold c0_control_set in H0. apply orb_false_iff in H0 as [H1 H2].
      apply Z.ltb_ge in H1. lia.
    + destruct (c0_control_set c) eqn:H0; [rewrite set_c0 in Hs; done|].
      unfold c0_control_set in H0. apply orb_false_iff in H0 as [_ H2].
      apply Z.ltb_ge in H2. lia.
Qed.

End Percent_encoding.

Lemma path_set_laws :
  (forall c, c0_control_set c = true -> path_set c = true) /\ path_set 32 = true /\
  path_set 37 = false /\ (forall d, 0 <= d < 16 -> path_set (hex_digit d) = false).
Proof.
  split; [intros c Hc; unfold path_set, query_set; by rewrite Hc|].
  split; [done|]. split; [done|].
  intros d Hd. destruct (hex_digit_range d Hd) as [[? _]|[? _]]; set_eval.
Qed.

Lemma special_query_set_laws :
  (forall c, c0_control_set c = true -> special_query_set c = true) /\ special_query_set 32 = true /\
  special_query_set 37 = false /\ (forall d, 0 <= d < 16 -> special_query_set (hex_digit d) = false).
Proof.
  split; [intros c Hc; unfold special_query_set, query_set; by rewrite Hc|].
  split; [done|]. split; [done|].
  intros d Hd. destruct (hex_digit_range d Hd) as [[? _]|[? _]]; set_eval.
Qed.

Lemma path_encode_url_code_points c :
  scalar c -> Forall (url_code_point path_set) (utf8_percent_encode path_set c).
Proof. destruct path_set_laws as (? & ? & ? & ?). by apply utf8_percent_encode_url_code_points. Qed.

Lemma query_encode_url_code_points c :
  scalar c -> Forall (url_code_point special_query_set) (utf8_percent_encode special_query_set c).
Proof. destruct special_query_set_laws as (? & ? & ? & ?). by apply utf8_percent_encode_url_code_points. Qed.


Lemma drop_c0_control_or_space_Forall P cps :
  Forall P cps -> Forall P (drop_c0_control_or_space cps).
Proof. induction 1 as [|c cps Hc Hcps IH]; [constructor|]. simpl. destruct (c0_control_or_space c); [exact IH|by constructor]. Qed.

Lemma filter_Forall {A} (P : A -> Prop) f l : Forall P l -> Forall P (List.filter f l).
Proof. induction 1 as [|x l Hx _ IH]; [constructor|]. simpl. destruct (f x); auto. Qed.

(** The code points of the USVString conversion are scalar values. *)
Lemma code_points_to_usv s : units_ok s -> Forall scalar (code_points (to_usv s)).
Proof.
  intros Hu. pose proof (code_points_range s Hu) as Hr.
  assert (Hs : Forall scalar (map (fun cp => if decide (surrogate cp) then 0xFFFD else cp) (code_points s))).
  { apply Forall_map. eapply Forall_impl; [|exact Hr]. intros cp Hcp. cbn beta in Hcp |- *.
    case_decide; [compute_done|]. split; [lia|done]. }
  unfold to_usv. by rewrite code_points_utf16_encode.
Qed.

(** The code points the parser iterates are scalar values. *)
Lemma preprocess_scalar s : units_ok s -> Forall scalar (preprocess s).
Proof.
  intros Hu. apply filter_Forall, Forall_rev, drop_c0_control_or_space_Forall, Forall_rev.
  by apply code_points_to_usv.
Qed.

(** ** The path and the query the parser builds *)

Lemma segment_ok_nil : segment_ok [].
Proof. split; [constructor|done]. Qed.

Lemma end_segment_ok path buffer b :
  Forall segment_ok path ->
  Forall (fun c => url_code_point path_set c /\ is_slash c = false) buffer ->
  Forall segment_ok (end_segment path buffer b) /\ (b = false -> end_segment path buffer b <> []).
Proof.
  intros Hp Hb. pose proof segment_ok_nil.
  assert (Hs : Forall segment_ok (shorten path)) by by apply Forall_removelast.
  unfold end_segment. destruct (double_dot buffer) eqn:Hd; [|destruct (single_dot buffer) eqn:Hs1].
  - destruct b; split; try done; [apply Forall_app; auto|]. intros _ Hn. by apply app_eq_nil in Hn as [_ ?].
  - destruct b; split; try done; [apply Forall_app; auto|]. intros _ Hn. by apply app_eq_nil in Hn as [_ ?].
  - split; [apply Forall_app; split; [done|repeat constructor; done]|].
    intros _ Hn. by apply app_eq_nil in Hn as [_ ?].
Qed.

Lemma query_state_url_code_points cps :
  Forall scalar cps -> Forall (url_code_point special_query_set) (query_state cps).
Proof.
  induction 1 as [|c cps Hc _ IH]; [constructor|]. simpl.
  destruct (c =? 35); [constructor|]. apply Forall_app. split; [|done].
  by apply query_encode_url_code_points.
Qed.

(** The path state builds a non-empty path of good segments, and a query
    of query code points. *)
Lemma path_state_ok path buffer cps :
  Forall scalar cps -> Forall segment_ok path ->
  Forall (fun c => url_code_point path_set c /\ is_slash c = false) buffer ->
  let '(path', query) := path_state path buffer cps in
  Forall segment_ok path' /\ path' <> [] /\
  (forall q, query = Some q -> Forall (url_code_point special_query_set) q).
Proof.
  intros Hc. revert path buffer.
  induction Hc as [|c cps Hc Hcps IH]; intros path buffer Hp Hb; simpl.
  - destruct (end_segment_ok path buffer false Hp Hb) as [? Hn]. split; [done|]. split; [auto|done].
  - destruct (is_slash c) eqn:Hsl; [apply IH; [apply end_segment_ok|constructor]; done|].
    destruct (c =? 63); [|destruct (c =? 35)].
    + destruct (end_segment_ok path buffer false Hp Hb) as [? Hn]. split; [done|]. split; [auto|].
      intros q [= <-]. by apply query_state_url_code_points.
    + destruct (end_segment_ok path buffer false Hp Hb) as [? Hn]. split; [done|]. split; [auto|done].
    + apply IH; [done|]. apply Forall_app. split; [done|].
      pose proof (path_encode_url_code_points c Hc) as He.
      unfold utf8_percent_encode in *. destruct (path_set c); [|inversion He; subst; constructor; [split; [done|exact Hsl]|constructor]].
      apply Forall_and; [done|]. eapply Forall_impl; [|apply percent_octets_chars, utf8_encode_cp_bytes, Hc].
      intros u Hu. cbn beta in Hu. unfold is_slash. destruct (Z.eqb_spec u 47), (Z.eqb_spec u 92); try done; lia.
Qed.

(** The path start state, likewise. *)
Lemma path_start_ok cps :
  Forall scalar cps ->
  let '(path, query) := path_start cps in
  Forall segment_ok path /\ path <> [] /\
  (forall q, query = Some q -> Forall (url_code_point special_query_set) q).
Proof.
  intros Hc. destruct Hc as [|c cps Hc Hcps]; unfold path_start; [by apply path_state_ok|].
  destruct (is_slash c); apply path_state_ok; by try constructor.
Qed.

Lemma serialize_path_url_code_points path :
  Forall segment_ok path -> Forall (url_code_point path_set) (serialize_path path).
Proof.
  induction 1 as [|seg path [Hs _] _ IH]; [constructor|].
  simpl. constructor; [split; [lia|done]|]. apply Forall_app. split; [|done].
  eapply Forall_impl; [|exact Hs]. by intros c [? _].
Qed.

(** ** Re-parsing a serialised URL *)


(** The parser leaves printable ASCII input as it is. *)
Lemma preprocess_printable s : Forall (fun c => 0x21 <= c <= 0x7E) s -> preprocess s = s.
Proof.
  intros Hs. assert (Hc : code_points s = s).
  { apply code_points_ascii. eapply Forall_impl; [|exact Hs]. cbn beta. lia. }
  assert (Hu : to_usv s = s).
  { apply to_usv_id; unfold units_ok, well_formed; rewrite ?Hc; eapply Forall_impl; try exact Hs;
      cbn beta; unfold surrogate; lia. }
  unfold preprocess. rewrite Hu, Hc.
  assert (Hd : drop_c0_control_or_space (rev s) = rev s).
  { apply Forall_rev in Hs. destruct (rev s) as [|c l]; [done|]. inversion Hs; subst.
    simpl. unfold c0_control_or_space. by destruct (Z.leb_spec 0 c), (Z.leb_spec c 0x20); try lia. }
  rewrite Hd, rev_involutive. apply filter_all. eapply Forall_impl; [|exact Hs].
  intros c Hc'. cbn beta in Hc'. unfold ascii_tab_or_newline.
  destruct (Z.eqb_spec c 9), (Z.eqb_spec c 10), (Z.eqb_spec c 13); try lia; done.
Qed.

(** The path state reads the code points of a segment into its buffer. *)
Lemma path_state_read path buffer seg rest :
  Forall (fun c => url_code_point path_set c /\ is_slash c = false) seg ->
  path_state path buffer (seg ++ rest) = path_state path (buffer ++ seg) rest.
Proof.
  intros Hs. revert buffer. induction Hs as [|c seg [[Hr Hp] Hsl] _ IH]; intros buffer.
  - by rewrite app_nil_r.
  - cbn [app path_state]. rewrite Hsl.
    destruct (Z.eqb_spec c 63); [subst; discriminate|]. destruct (Z.eqb_spec c 35); [subst; discriminate|].
    unfold utf8_percent_encode. rewrite Hp, IH. by rewrite <- app_assoc.
Qed.

Lemma query_state_id q : Forall (url_code_point special_query_set) q -> query_state q = q.
Proof.
  induction 1 as [|c q [Hr Hs] _ IH]; [done|]. simpl.
  destruct (Z.eqb_spec c 35); [subst; discriminate|]. unfold utf8_percent_encode. by rewrite Hs, IH.
Qed.

Lemma end_segment_segment path seg b : segment_ok seg -> end_segment path seg b = path ++ [seg].
Proof. intros (_ & H1 & H2). unfold end_segment. by rewrite H1, H2. Qed.

Lemma serialize_path_cons seg segs :
  serialize_path (seg :: segs) = 47 :: seg ++ serialize_path segs.
Proof. done. Qed.

(** The path state reads a serialised path and query back. *)
Lemma path_state_serialized path seg segs query :
  segment_ok seg -> Forall segment_ok segs ->
  (forall q, query = Some q -> Forall (url_code_point special_query_set) q) ->
  path_state path [] (seg ++ serialize_path segs ++ query_suffix query) = (path ++ seg :: segs, query).
Proof.
  intros Hseg Hsegs Hq. revert path seg Hseg.
  induction Hsegs as [|seg' segs Hseg' _ IH]; intros path seg Hseg;
    rewrite path_state_read by apply Hseg.
  - destruct query as [q|]; simpl; rewrite end_segment_segment by done; [|done].
    by rewrite query_state_id by auto.
  - rewrite serialize_path_cons. cbn [app path_state is_slash Z.eqb Pos.eqb orb].
    rewrite end_segment_segment, <- app_assoc by done. rewrite IH by done. by rewrite <- app_assoc.
Qed.

(** ** Percent-encoding a query is invisible to [searchParams] *)

Lemma split_on_cons_shape sep r : exists x xs, split_on sep r = x :: xs.
Proof.
  induction r as [|b r (x & xs & IH)]; [by exists [], []|]. cbn [split_on].
  destruct (b =? sep); [by eexists _, _|]. rewrite IH. by eexists _, _.
Qed.

Lemma split_on_prefix sep a r :
  sep ∉ a ->
  split_on sep (a ++ r) = match split_on sep r with [] => [a] | x :: xs => (a ++ x) :: xs end.
Proof.
  destruct (split_on_cons_shape sep r) as (x & xs & Hr). rewrite Hr.
  induction a as [|b a IH]; intros Ha; [done|].
  rewrite elem_of_cons in Ha. cbn [app split_on]. destruct (Z.eqb_spec b sep); [subst; tauto|].
  rewrite IH by tauto. done.
Qed.

Lemma split_first_prefix a r :
  61 ∉ a -> split_first (a ++ r) = (a ++ (split_first r).1, (split_first r).2).
Proof.
  induction a as [|b a IH]; intros Ha; [cbn [app]; by destruct (split_first r)|].
  rewrite elem_of_cons in Ha. cbn [app split_first]. destruct (Z.eqb_spec b 61) as [->|]; [by destruct Ha; left|].
  rewrite IH by tauto. done.
Qed.

Lemma percent_decode_percent t :
  starts_escape t = false -> percent_decode (37 :: t) = 37 :: percent_decode t.
Proof. destruct t as [|h1 [|h2 r]]; cbn [starts_escape]; [done|done|]. intros H. simpl. by rewrite H. Qed.

Lemma is_ascii_hex_space : is_ascii_hex 32 = false.
Proof. done. Qed.

Section Query_encoding.
Variable set : Z -> bool.
Hypothesis set_percent : set 37 = false.
Hypothesis set_amp : set 38 = false.
Hypothesis set_plus : set 43 = false.
Hypothesis set_equals : set 61 = false.
Hypothesis set_hex : forall h, is_ascii_hex h = true -> set h = false.

Lemma percent_encode_bytes_cons b bs :
  percent_encode_bytes set (b :: bs) = (if set b then percent_byte b else [b]) ++ percent_encode_bytes set bs.
Proof. done. Qed.

Lemma percent_encode_bytes_app bs1 bs2 :
  percent_encode_bytes set (bs1 ++ bs2) = percent_encode_bytes set bs1 ++ percent_encode_bytes set bs2.
Proof. unfold percent_encode_bytes. by rewrite map_app, concat_app. Qed.

Lemma percent_byte_hex b :
  0 <= b <= 255 ->
  exists h1 h2, percent_byte b = [37; h1; h2] /\ is_ascii_hex h1 = true /\ is_ascii_hex h2 = true /\
                h1 <> 43 /\ h2 <> 43 /\ h1 <> 38 /\ h2 <> 38 /\ h1 <> 61 /\ h2 <> 61 /\
                hex_value h1 * 16 + hex_value h2 = b.
Proof.
  intros Hb. exists (hex_digit (b / 16)), (hex_digit (b mod 16)).
  assert (H1 : 0 <= b / 16 < 16) by zlia. assert (H2 : 0 <= b mod 16 < 16) by zlia.
  destruct (hex_digit_inv _ H1) as [Hx1 Hv1]. destruct (hex_digit_inv _ H2) as [Hx2 Hv2].
  pose proof (hex_digit_range _ H1). pose proof (hex_digit_range _ H2).
  do 3 (split; [done|]). rewrite Hv1, Hv2. repeat split; zlia.
Qed.

(** The piece written for one byte holds a separator only if the byte is
    that separator. *)
Lemma encoded_byte_sep b sep :
  0 <= b <= 255 -> set sep = false -> sep = 38 \/ sep = 61 -> b <> sep ->
  sep ∉ (if set b then percent_byte b else [b]).
Proof.
  intros Hb Hs Hsep Hne. destruct (set b).
  - destruct (percent_byte_hex b Hb) as (h1 & h2 & -> & _ & _ & _ & _ & ? & ? & ? & ? & _).
    rewrite !elem_of_cons. intros [?|[?|[?|?%elem_of_nil]]]; [lia|..]; destruct Hsep; subst; lia || done.
  - rewrite elem_of_cons. intros [?|?%elem_of_nil]; [lia|done].
Qed.

Lemma split_on_encoded bs :
  bytes_ok bs ->
  split_on 38 (percent_encode_bytes set bs) = map (percent_encode_bytes set) (split_on 38 bs).
Proof.
  induction 1 as [|b bs Hb _ IH]; [done|]. rewrite percent_encode_bytes_cons.
  destruct (Z.eqb_spec b 38).
  - subst. rewrite set_amp. cbn [app split_on Z.eqb Pos.eqb]. by rewrite IH.
  - rewrite split_on_prefix by (apply encoded_byte_sep; auto). rewrite IH.
    cbn [split_on]. destruct (Z.eqb_spec b 38); [done|].
    destruct (split_on_cons_shape 38 bs) as (x & xs & ->). done.
Qed.

Lemma split_first_encoded bs :
  bytes_ok bs ->
  split_first (percent_encode_bytes set bs) =
  (percent_encode_bytes set (split_first bs).1, percent_encode_bytes set (split_first bs).2).
Proof.
  induction 1 as [|b bs Hb _ IH]; [done|]. rewrite percent_encode_bytes_cons.
  destruct (Z.eqb_spec b 61).
  - subst. rewrite set_equals. done.
  - rewrite split_first_prefix by (apply encoded_byte_sep; auto). rewrite IH.
    cbn [split_first]. destruct (Z.eqb_spec b 61); [done|]. by destruct (split_first bs).
Qed.

Lemma plus_to_space_cons b bs :
  plus_to_space (b :: bs) = (if b =? 43 then 32 else b) :: plus_to_space bs.
Proof. done. Qed.

Lemma plus_to_space_app bs1 bs2 : plus_to_space (bs1 ++ bs2) = plus_to_space bs1 ++ plus_to_space bs2.
Proof. apply map_app. Qed.

(** After [+] is replaced, an escape starts at the same place in the
    encoded bytes as in the bytes. *)
Lemma starts_escape_encoded bs :
  bytes_ok bs ->
  starts_escape (plus_to_space (percent_encode_bytes set bs)) = starts_escape (plus_to_space bs).
Proof.
  intros Hb. destruct Hb as [|b1 bs Hb1 Hbs]; [done|].
  rewrite percent_encode_bytes_cons, plus_to_space_app.
  destruct (set b1) eqn:Hs1.
  - destruct (percent_byte_hex b1 Hb1) as (h1 & h2 & -> & _).
    assert (Hh : is_ascii_hex b1 = false) by (destruct (is_ascii_hex b1) eqn:E; [rewrite set_hex in Hs1|]; done).
    assert (H43 : b1 <> 43) by congruence.
    destruct bs as [|b2 bs]; cbn; [done|]. destruct (Z.eqb_spec b1 43); [done|]. by rewrite Hh.
  - cbn [app plus_to_space map]. destruct Hbs as [|b2 bs Hb2 _]; [done|].
    rewrite percent_encode_bytes_cons, plus_to_space_app. cbn [starts_escape map].
    destruct (set b2) eqn:Hs2.
    + destruct (percent_byte_hex b2 Hb2) as (h1 & h2 & -> & _). cbn.
      assert (Hh : is_ascii_hex b2 = false) by (destruct (is_ascii_hex b2) eqn:E; [rewrite set_hex in Hs2|]; done).
      destruct (Z.eqb_spec b2 43); [congruence|]. rewrite Hh. by destruct (is_ascii_hex _).
    + done.
Qed.

(** The key step: percent-decoding does not see the encoding. *)
Lemma percent_decode_encoded_bytes n bs :
  (length bs < n)%nat -> bytes_ok bs ->
  percent_decode (plus_to_space (percent_encode_bytes set bs)) = percent_decode (plus_to_space bs).
Proof.
  revert bs. induction n as [|n IH]; intros bs Hlen Hb; [lia|].
  destruct Hb as [|b bs Hb Hbs]; [done|]. cbn [length] in Hlen.
  rewrite percent_encode_bytes_cons, plus_to_space_cons.
  destruct (set b) eqn:Hs.
  - destruct (percent_byte_hex b Hb) as (h1 & h2 & -> & Hx1 & Hx2 & N1 & N2 & _ & _ & _ & _ & Hv).
    cbn [app]. rewrite !plus_to_space_cons. rewrite <- !Z.eqb_neq in N1, N2. rewrite N1, N2.
    cbn [Z.eqb Pos.eqb]. rewrite percent_decode_escape, Hv by done.
    destruct (Z.eqb_spec b 43); [subst; congruence|].
    rewrite percent_decode_other by (intros ->; congruence). f_equal. apply IH; [lia|done].
  - cbn [app]. rewrite plus_to_space_cons. destruct (Z.eqb_spec b 43).
    + rewrite !percent_decode_other by lia. f_equal. apply IH; [lia|done].
    + destruct (Z.eqb_spec b 37) as [->|].
      * destruct (starts_escape (plus_to_space bs)) eqn:He.
        -- destruct bs as [|h1 [|h2 r]]; [done|done|].
           apply Forall_cons_iff in Hbs as [Hh1 Hbs]. apply Forall_cons_iff in Hbs as [Hh2 Hr].
           cbn in He. apply andb_prop in He as [E1 E2].
           assert (N1 : h1 <> 43) by (intros ->; done). assert (N2 : h2 <> 43) by (intros ->; done).
           rewrite <- Z.eqb_neq in N1, N2. rewrite N1 in E1. rewrite N2 in E2.
           rewrite !percent_encode_bytes_cons, !set_hex by done. cbn [app].
           rewrite !plus_to_space_cons, N1, N2, !percent_decode_escape by done.
           f_equal. apply IH; [cbn [length] in Hlen; lia|done].
        -- rewrite !percent_decode_percent by (rewrite ?starts_escape_encoded; done).
           f_equal. apply IH; [lia|done].
      * rewrite !percent_decode_other by lia. f_equal. apply IH; [lia|done].
Qed.

Lemma percent_encode_bytes_nil bs : percent_encode_bytes set bs = [] -> bs = [].
Proof.
  destruct bs as [|b bs]; [done|]. rewrite percent_encode_bytes_cons.
  destruct (set b); [unfold percent_byte|]; done.
Qed.

Lemma bytes_ok_split_first bs :
  bytes_ok bs -> bytes_ok (split_first bs).1 /\ bytes_ok (split_first bs).2.
Proof.
  induction 1 as [|b bs Hb Hbs IH]; [split; constructor|]. cbn [split_first].
  destruct (b =? 61); [split; [constructor|done]|].
  destruct (split_first bs) as [n v]. destruct IH. split; [by constructor|done].
Qed.

Lemma bytes_ok_split_on sep bs : bytes_ok bs -> Forall bytes_ok (split_on sep bs).
Proof.
  induction 1 as [|b bs Hb Hbs IH]; [repeat constructor|]. cbn [split_on].
  destruct (b =? sep); [constructor; [constructor|exact IH]|].
  destruct (split_on sep bs) as [|x xs]; [constructor; [constructor; [exact Hb|constructor]|constructor]|].
  inversion IH; subst. constructor; [by constructor|done].
Qed.

(** The form parser gives the same pairs on the encoded bytes. *)
Lemma parse_form_encoded_bytes bs :
  bytes_ok bs -> parse_form (percent_encode_bytes set bs) = parse_form bs.
Proof.
  intros Hb. unfold parse_form. rewrite split_on_encoded, map_map by done. f_equal.
  apply map_ext_in. intros x Hx.
  assert (Hxb : bytes_ok x).
  { pose proof (bytes_ok_split_on 38 bs Hb) as Hall. rewrite Forall_forall in Hall. by apply Hall. }
  unfold parse_sequence. destruct (percent_encode_bytes set x) eqn:Ex.
  - by rewrite (percent_encode_bytes_nil x Ex).
  - destruct x as [|b x']; [done|]. rewrite <- Ex, split_first_encoded by done.
    destruct (bytes_ok_split_first _ Hxb) as [Hn Hv].
    destruct (split_first (b :: x')) as [n v]. unfold decode_component. cbn [fst snd] in *.
    rewrite !(percent_decode_encoded_bytes (S (length n))), !(percent_decode_encoded_bytes (S (length v))) by (lia || done).
    done.
Qed.

End Query_encoding.

Lemma utf8_encode_cp_high c :
  0x80 <= c <= 0x10FFFF -> Forall (fun b => 0x80 <= b) (utf8_encode_cp c).
Proof.
  intros Hc. destruct (Z.leb_spec c 0x7FF); [rewrite utf8_encode_cp_2 by lia|].
  { repeat constructor; zlia. }
  destruct (Z.leb_spec c 0xFFFF); [rewrite utf8_encode_cp_3 by lia|rewrite utf8_encode_cp_4 by lia];
    repeat constructor; zlia.
Qed.

Lemma special_query_set_separators :
  special_query_set 37 = false /\ special_query_set 38 = false /\ special_query_set 43 = false /\
  special_query_set 61 = false /\ (forall h, is_ascii_hex h = true -> special_query_set h = false).
Proof.
  do 4 (split; [done|]). intros h Hh. unfold is_ascii_hex in Hh.
  repeat (apply orb_prop in Hh as [Hh|Hh]); apply andb_prop in Hh as [H1 H2];
    apply Z.leb_le in H1, H2; set_eval.
Qed.

(** Per code point, the query state percent-encodes the UTF-8 bytes. *)
Lemma utf8_percent_encode_bytes c :
  scalar c ->
  utf8_percent_encode special_query_set c = percent_encode_bytes special_query_set (utf8_encode_cp c).
Proof.
  intros Hc. unfold utf8_percent_encode. destruct (Z.leb_spec c 0x7F).
  - rewrite utf8_encode_cp_1 by lia. unfold percent_encode_bytes, percent_octets. cbn [map concat].
    by destruct (special_query_set c).
  - assert (Hs : special_query_set c = true).
    { unfold special_query_set, query_set, c0_control_set. destruct (Z.ltb_spec 0x7E c); [|lia].
      by rewrite orb_true_r. }
    rewrite Hs. unfold percent_octets, percent_encode_bytes. f_equal.
    apply map_ext_in. intros b Hb.
    pose proof (utf8_encode_cp_high c ltac:(destruct Hc; lia)) as Hh. rewrite Forall_forall in Hh.
    specialize (Hh b Hb). unfold special_query_set, query_set, c0_control_set.
    destruct (Z.ltb_spec 0x7E b); [|lia]. by rewrite orb_true_r.
Qed.

Lemma query_state_bytes cps :
  Forall scalar cps -> 35 ∉ cps ->
  query_state cps = percent_encode_bytes special_query_set (utf8_encode cps).
Proof.
  induction 1 as [|c cps Hc _ IH]; intros Hn; [done|]. rewrite elem_of_cons in Hn.
  cbn [query_state]. destruct (Z.eqb_spec c 35); [subst; tauto|].
  rewrite utf8_encode_cons, percent_encode_bytes_app, utf8_percent_encode_bytes, IH by (done || tauto).
  done.
Qed.

Lemma percent_encode_bytes_ascii bs :
  bytes_ok bs -> Forall (fun u => 0 <= u < 128) (percent_encode_bytes special_query_set bs).
Proof.
  induction 1 as [|b bs Hb _ IH]; [constructor|]. rewrite percent_encode_bytes_cons.
  apply Forall_app. split; [|done]. destruct (special_query_set b) eqn:Hs.
  - pose proof (percent_octets_chars [b] (Forall_cons _ _ _ Hb (Forall_nil _))) as Hp.
    unfold percent_octets in Hp. cbn [map concat] in Hp. rewrite app_nil_r in Hp.
    eapply Forall_impl; [|exact Hp]. cbn beta. lia.
  - constructor; [|constructor]. unfold special_query_set, query_set, c0_control_set in Hs.
    destruct (Z.ltb_spec 0x7E b); [by rewrite orb_true_r in Hs|lia].
Qed.

Lemma query_state_search_params cps :
  Forall scalar cps -> 35 ∉ cps ->
  url_search_params (query_state cps) = url_search_params (utf16_encode cps).
Proof.
  intros Hc Hn. destruct special_query_set_separators as (H37 & H38 & H43 & H61 & Hhex).
  assert (Hb : bytes_ok (utf8_encode cps)).
  { induction Hc as [|c cps' Hc' _ IH]; [constructor|]. rewrite utf8_encode_cons.
    apply Forall_app. split; [by apply utf8_encode_cp_bytes|]. apply IH. rewrite elem_of_cons in Hn. tauto. }
  unfold url_search_params. rewrite code_points_utf16_encode, query_state_bytes by done.
  rewrite utf8_encode_ascii by (by apply percent_encode_bytes_ascii).
  by apply parse_form_encoded_bytes.
Qed.

(** ** Main properties *)

(** The parsed path and query of any string of code units. *)
Lemma parse_after_host_ok s :
  units_ok s ->
  exists seg segs,
    parse_after_host s = {| url_pathname := serialize_path (seg :: segs);
                            url_query := snd (path_start (preprocess s)) |} /\
    Forall segment_ok (seg :: segs) /\
    (forall q, snd (path_start (preprocess s)) = Some q -> Forall (url_code_point special_query_set) q).
Proof.
  intros Hu. pose proof (path_start_ok _ (preprocess_scalar s Hu)) as Hok.
  unfold parse_after_host. destruct (path_start (preprocess s)) as [[|seg segs] query].
  - by destruct Hok as (_ & ? & _).
  - destruct Hok as (Hsegs & _ & Hq). by exists seg, segs.
Qed.

(** C27: For any request URL, [url.pathname] starts with [/], and the
    pathname and the query hold only printable ASCII outside their
    percent-encode sets: no space, control, non-ASCII code point, [?] or
    [#] survives; in particular the pathname that [handleSvg] lower-cases
    is ASCII. *)
Theorem url_components_shape s :
  units_ok s ->
  let u := parse_after_host s in
  (exists rest, url_pathname u = 47 :: rest) /\
  Forall (url_code_point path_set) (url_pathname u) /\
  (forall q, url_query u = Some q -> Forall (url_code_point special_query_set) q).
Proof.
  intros Hu. destruct (parse_after_host_ok s Hu) as (seg & segs & -> & Hsegs & Hq). cbn zeta.
  split; [by eexists|]. split; [|exact Hq].
  by apply serialize_path_url_code_points.
Qed.

(** C28: Parsing is idempotent: the pathname and query the URL serialiser
    writes after the host parse back to the same pathname and query. *)
Theorem url_parse_idempotent s :
  units_ok s ->
  parse_after_host (serialize_after_host (parse_after_host s)) = parse_after_host s.
Proof.
  intros Hu. destruct (parse_after_host_ok s Hu) as (seg & segs & -> & Hsegs & Hq).
  set (query := snd (path_start (preprocess s))) in *.
  assert (Hser : serialize_after_host {| url_pathname := serialize_path (seg :: segs); url_query := query |} =
                 47 :: seg ++ serialize_path segs ++ query_suffix query).
  { unfold serialize_after_host. cbn [url_pathname url_query]. rewrite serialize_path_cons.
    cbn [app]. by rewrite <- app_assoc. }
  rewrite Hser. unfold parse_after_host. rewrite preprocess_printable.
  - cbn [path_start is_slash Z.eqb Pos.eqb orb]. inversion Hsegs; subst.
    by rewrite path_state_serialized.
  - rewrite <- Hser. unfold serialize_after_host. apply Forall_app. split.
    + eapply Forall_impl; [|by apply serialize_path_url_code_points]. by intros c [? _].
    + destruct query as [q|]; [|constructor]. constructor; [lia|].
      eapply Forall_impl; [|by apply Hq]. by intros c [? _].
Qed.


(** C29: The query state's percent-encoding is invisible to
    [searchParams]: for a query of scalar values without [#], the pairs
    read from the encoded query the URL keeps are the pairs of the query
    as written. *)
Theorem query_percent_encoding_transparent cps :
  Forall scalar cps -> 35 ∉ cps ->
  url_search_params (query_state cps) = url_search_params (utf16_encode cps).
Proof. apply query_state_search_params. Qed.

(** Witnesses. *)
Lemma url_components_shape_witness :
  units_ok «"/a/../SVG?q=1 2"» /\
  let u := parse_after_host «"/a/../SVG?q=1 2"» in
  (exists rest, url_pathname u = 47 :: rest) /\
  Forall (url_code_point path_set) (url_pathname u) /\
  (forall q, url_query u = Some q -> Forall (url_code_point special_query_set) q).
Proof.
  assert (H : units_ok «"/a/../SVG?q=1 2"») by compute_done.
  split; [exact H|]. exact (url_components_shape _ H).
Defined.

Lemma url_parse_idempotent_witness :
  units_ok «"/x/./y/%2e%2E/SVG?a b#c"» /\
  parse_after_host (serialize_after_host (parse_after_host «"/x/./y/%2e%2E/SVG?a b#c"»)) =
  parse_after_host «"/x/./y/%2e%2E/SVG?a b#c"».
Proof.
  assert (H : units_ok «"/x/./y/%2e%2E/SVG?a b#c"») by compute_done.
  split; [exact H|]. exact (url_parse_idempotent _ H).
Defined.

Lemma query_percent_encoding_transparent_witness :
  Forall scalar [0x1F525; 39; 32] /\ (35 ∉ [0x1F525; 39; 32]) /\
  url_search_params (query_state [0x1F525; 39; 32]) = url_search_params (utf16_encode [0x1F525; 39; 32]).
Proof.
  assert (H1 : Forall scalar [0x1F525; 39; 32]) by compute_done.
  assert (H2 : 35 ∉ [0x1F525; 39; 32]) by compute_done.
  split; [exact H1|]. split; [exact H2|]. exact (query_percent_encoding_transparent _ H1 H2).
Defined.

End Url.
