(* ===== verification/Runtime.v ===== *)
(** * Runtime: the URL runtime of the worker, as an instance of [WebApi]

    [encode_component] is ECMA-262's [encodeURIComponent]
    ([UriEncode.encode_uri_component]) and [search_params] is the list the
    URL Standard builds for [url.searchParams]
    ([FormUrlencoded.url_search_params]).  This file proves that these models
    satisfy the laws of [WebApi.UrlCodecLaws] on which the renderers and the
    router rely. *)

From S2P Require Import Prelude JsString Utf8 WebApi UriEncode FormUrlencoded.
Import Utf16 Utf8 WebApi UriEncode FormUrlencoded.

Module Runtime.

#[export] Instance runtime_codec : UrlCodec := {
  encode_component := encode_uri_component;
  search_params := url_search_params
}.

(** ** Lemmas *)

Lemma encoded_ascii s e :
  units_ok s -> encode_uri_component s = Ok e -> Forall (fun u => 0 <= u < 128) e.
Proof.
  intros Hu He. pose proof (encode_uri_component_safe s e Hu He) as Hs.
  eapply Forall_impl; [|exact Hs]. intros u [->|[Hu' _]]; lia.
Qed.

Lemma join_amp_ascii l :
  Forall (Forall (fun u => 0 <= u < 128)) l -> Forall (fun u => 0 <= u < 128) (join_amp l).
Proof.
  induction 1 as [|x l Hx _ IH]; [constructor|].
  destruct l as [|y l]; [done|]. change (join_amp (x :: y :: l)) with (x ++ 38 :: join_amp (y :: l)).
  apply Forall_app. split; [done|]. constructor; [lia|done].
Qed.

Lemma encoded_query_ascii pairs encs :
  Forall (fun p => units_ok p.1 /\ units_ok p.2) pairs ->
  Forall2 (fun p E => encode_uri_component p.1 = Ok E.1 /\ encode_uri_component p.2 = Ok E.2)
    pairs encs ->
  Forall (fun u => 0 <= u < 128) (join_amp (map pair_query encs)).
Proof.
  intros Hu He. apply join_amp_ascii, Forall_map.
  induction He as [|[n v] [N V] pairs encs [HN HV] He IH]; [constructor|].
  invc Hu. destruct H1. constructor; [|auto]. unfold pair_query. simpl.
  apply Forall_app. split; [by apply (encoded_ascii n)|].
  constructor; [lia|]. by apply (encoded_ascii v).
Qed.

(** The models of ECMA-262 and of the URL Standard satisfy the contract. *)
#[export] Instance runtime_codec_laws : UrlCodecLaws.
Proof.
  split; cbn [encode_component search_params runtime_codec].
  - intros s Hu Hw. eexists. by apply encode_uri_component_ok.
  - intros s Hu Hw. by apply encode_uri_component_throws.
  - intros s Hs. apply encode_uri_component_unreserved.
    eapply Forall_impl; [|exact Hs]. apply uri_unreserved_lower.
  - apply encode_uri_component_safe.
  - intros pairs encs Hu He. unfold url_search_params.
    rewrite utf8_encode_ascii by (by apply (encoded_query_ascii pairs)).
    by apply parse_form_encoded.
  - intros q. pose proof (url_search_params_well_formed q) as Hq.
    eapply Forall_impl; [|exact Hq]. intros p Hp. simpl in Hp. tauto.
Qed.

End Runtime.
