(* ===== verification/Fetch.v ===== *)
(** * Fetch: the [Response] constructor (Fetch Standard and WebIDL)

    The three response builders of src/src/index.ts call
    [new Response(body, init)] with a string body and an init dictionary:
    [{ headers: { 'Content-Type': 'image/svg+xml' } }] (lines 42 to 44),
    [{ headers: { 'Content-Type': 'text/html' } }] (lines 51 to 53) and
    [{ status: 404 }] (line 57).  This file models the constructor as the
    Fetch Standard defines it, with the WebIDL conversions of its
    arguments, in the order the algorithms run them:
    - [to_byte_string], [to_unsigned_short], [convert_init]: the
      conversion of the [ResponseInit] dictionary (its members in
      lexicographic order; the status an [unsigned short], so taken modulo
      2^16; header names, header values and the status text ByteStrings,
      with a TypeError for a code unit above 0xFF);
    - [normalize], [header_name_ok], [header_value_ok],
      [forbidden_response_header_name]: the header syntax;
    - [header_list_append], [headers_append], [headers_fill]: the
      [Headers] object of a response (guard "response") filled from a
      record;
    - [initialize_response], [new_Response]: the constructor: the status
      range check (RangeError), the status-text check, the headers, the
      null-body status check (TypeError), the body converted to a
      USVString and its type [text/plain;charset=UTF-8] added when the
      headers have no [Content-Type];
    - [body_bytes]: the body's source, the UTF-8 encoding of that string.

    A header list is a list of (name, value) pairs of byte sequences, each
    byte a [Z] in [0, 0xFF], in order.  Only the record form of
    [HeadersInit] is modelled: the source writes its headers as object
    literals.

    Main results: the header list of every response the constructor
    returns holds valid, normalised headers and no forbidden
    response-header name (invariant); what the constructor does on every
    branch, errors included; the body the client decodes is the string
    converted to a USVString. *)

From S2P Require Import Prelude JsString Utf8.
Import Utf16 Utf8.

Module Fetch.

(** ** WebIDL conversions *)

(** ToByteString: a TypeError when a code unit is above 0xFF. *)
Definition to_byte_string (s : jsstr) : throws jsstr :=
  if forallb (fun u => u <=? 0xFF) s then Ok s else Throw TypeError.

(** ConvertToInt for [unsigned short] (no [EnforceRange], no [Clamp]) on an
    integral Number: the value modulo 2^16. *)
Definition to_unsigned_short (n : Z) : Z := n mod 65536.

(** A header list: (name, value) pairs of byte sequences, in order. *)
Abbreviation header_list := (list (jsstr * jsstr)) (only parsing).

(** The [ResponseInit] dictionary as the source writes it: each member
    present or absent; [headers] a record (an object literal), its entries
    in property order. *)
Record ResponseInit := {
  init_status : option Z;
  init_statusText : option jsstr;
  init_headers : option (list (jsstr * jsstr))
}.

(** The dictionary after conversion, defaults filled in (status 200,
    status text empty). *)
Record ResponseInitDict := {
  dict_status : Z;
  dict_statusText : jsstr;
  dict_headers : option header_list
}.

(** A record<ByteString, ByteString> entry: key, then value. *)
Definition convert_header (h : jsstr * jsstr) : throws (jsstr * jsstr) :=
  k ← to_byte_string h.1; v ← to_byte_string h.2; mret (k, v).

(** The dictionary's members are converted in lexicographic order:
    [headers], [status], [statusText]. *)
Definition convert_init (init : ResponseInit) : throws ResponseInitDict :=
  hs ← match init_headers init with
       | Some r => Some <$> mapM convert_header r
       | None => mret None
       end;
  let st := match init_status init with Some n => to_unsigned_short n | None => 200 end in
  txt ← match init_statusText init with Some t => to_byte_string t | None => mret [] end;
  mret {| dict_status := st; dict_statusText := txt; dict_headers := hs |}.

(** ** Header syntax *)

Definition http_tab_or_space (b : Z) : bool := (b =? 0x09) || (b =? 0x20).

Definition http_whitespace (b : Z) : bool := http_tab_or_space b || (b =? 0x0A) || (b =? 0x0D).

Fixpoint strip_leading (p : Z -> bool) (s : jsstr) : jsstr :=
  match s with
  | [] => []
  | b :: rest => if p b then strip_leading p rest else s
  end.

(** Normalize a byte sequence: remove its leading and trailing HTTP
    whitespace bytes. *)
Definition normalize (v : jsstr) : jsstr :=
  rev (strip_leading http_whitespace (rev (strip_leading http_whitespace v))).

(** [tchar] of RFC 9110: the ASCII letters and digits and
    [! # $ % & ' * + - . ^ _ ` | ~]. *)
Definition tchar (b : Z) : bool :=
  ((0x30 <=? b) && (b <=? 0x39)) || ((0x41 <=? b) && (b <=? 0x5A)) ||
  ((0x61 <=? b) && (b <=? 0x7A)) ||
  bool_decide (b ∈ [33; 35; 36; 37; 38; 39; 42; 43; 45; 46; 94; 95; 96; 124; 126]).

(** A header name: a non-empty token. *)
Definition header_name_ok (n : jsstr) : bool := negb (bool_decide (n = [])) && forallb tchar n.

(** A header value: no leading or trailing HTTP tab or space, no 0x00,
    0x0A or 0x0D. *)
Definition header_value_ok (v : jsstr) : bool :=
  forallb (fun b => negb ((b =? 0x00) || (b =? 0x0A) || (b =? 0x0D))) v &&
  match v with [] => true | b :: _ => negb (http_tab_or_space b) end &&
  match rev v with [] => true | b :: _ => negb (http_tab_or_space b) end.

(** Byte-case-insensitive equality of header names. *)
Definition name_eq (a b : jsstr) : bool := bool_decide (to_lower a = to_lower b).

Definition forbidden_response_header_name (n : jsstr) : bool :=
  name_eq n «"Set-Cookie"» || name_eq n «"Set-Cookie2"».

(** A header list contains a header name. *)
Definition has_header (name : jsstr) (hl : header_list) : bool :=
  existsb (fun h => name_eq h.1 name) hl.

(** ** Header lists and [Headers] *)

(** Append a header to a header list: a name the list already contains
    takes the spelling of its first occurrence. *)
Definition header_list_append (hl : header_list) (h : jsstr * jsstr) : header_list :=
  let name := match List.find (fun h' => name_eq h'.1 h.1) hl with
              | Some h' => h'.1
              | None => h.1
              end in
  hl ++ [(name, h.2)].

(** Append a header to a [Headers] object of guard "response": normalize
    the value; validate: a TypeError for an invalid name or value, nothing
    for a forbidden response-header name; then append to the list. *)
Definition headers_append (hl : header_list) (h : jsstr * jsstr) : throws header_list :=
  let value := normalize h.2 in
  if negb (header_name_ok h.1 && header_value_ok value) then Throw TypeError
  else if forbidden_response_header_name h.1 then Ok hl
  else Ok (header_list_append hl (h.1, value)).

(** Fill a [Headers] object from a record: append each entry in order. *)
Fixpoint headers_fill (hl : header_list) (r : list (jsstr * jsstr)) : throws header_list :=
  match r with
  | [] => Ok hl
  | h :: rest => hl' ← headers_append hl h; headers_fill hl' rest
  end.

(** ** Responses *)

Definition content_type : jsstr := «"Content-Type"».

(** The type of a body extracted from a scalar value string. *)
Definition text_plain_utf8 : jsstr := «"text/plain;charset=UTF-8"».

Definition null_body_status (s : Z) : bool :=
  bool_decide (s = 101 \/ s = 103 \/ s = 204 \/ s = 205 \/ s = 304).

(** [reason-phrase] of RFC 9112: HTAB, SP, VCHAR and obs-text bytes. *)
Definition reason_phrase (t : jsstr) : bool :=
  forallb (fun b => (b =? 0x09) || ((0x20 <=? b) && (b <=? 0x7E)) || ((0x80 <=? b) && (b <=? 0xFF))) t.

(** A response: status, status message, header list, and the scalar value
    string its body was extracted from. *)
Record Response := {
  resp_status : Z;
  resp_status_text : jsstr;
  resp_headers : header_list;
  resp_body : jsstr
}.

(** The body's source: the UTF-8 encoding of the string. *)
Definition body_bytes (r : Response) : list Z := utf8_encode (code_points (resp_body r)).

(** The header list of a new response: empty, filled from [init]'s
    headers when present. *)
Definition init_header_list (d : ResponseInitDict) : throws header_list :=
  match dict_headers d with
  | Some r => headers_fill [] r
  | None => Ok []
  end.

(** Initialize a response with a converted [init] and a string body. *)
Definition initialize_response (d : ResponseInitDict) (body : jsstr) : throws Response :=
  let status := dict_status d in
  if negb ((200 <=? status) && (status <=? 599)) then Throw RangeError
  else if negb (bool_decide (dict_statusText d = []) || reason_phrase (dict_statusText d))
  then Throw TypeError
  else
    hl ← init_header_list d;
    if null_body_status status then Throw TypeError
    else mret {| resp_status := status;
                 resp_status_text := dict_statusText d;
                 resp_headers :=
                   if has_header content_type hl then hl
                   else header_list_append hl (content_type, text_plain_utf8);
                 resp_body := to_usv body |}.

(** [new Response(body, init)] with a string body. *)
Definition new_Response (body : jsstr) (init : ResponseInit) : throws Response :=
  d ← convert_init init; initialize_response d body.

(** ** Auxiliary notions of the proofs *)

(** A header a response's header list may hold. *)
Definition header_ok (h : jsstr * jsstr) : Prop :=
  header_name_ok h.1 = true /\ header_value_ok h.2 = true /\
  forbidden_response_header_name h.1 = false.

Definition headers_wf (hl : header_list) : Prop := Forall header_ok hl.

(** ** Lemmas *)

Lemma to_byte_string_Throw s e : to_byte_string s = Throw e -> e = TypeError.
Proof. unfold to_byte_string. by destruct (forallb _ _); intros [= <-]. Qed.

Lemma convert_init_Throw init e : convert_init init = Throw e -> e = TypeError.
Proof.
  unfold convert_init. intros [Hh|(hs & _ & Hr)]%bind_Throw_inv.
  - destruct (init_headers init) as [r|]; [|done].
    destruct (mapM convert_header r) eqn:Hm; cbn in Hh; [done|]. injection Hh as ->.
    destruct (mapM_Throw_inv _ _ _ Hm) as (h & _ & Hc). unfold convert_header in Hc.
    destruct (bind_Throw_inv _ _ _ Hc) as [Hk|(k & _ & Hv)]; [by eapply to_byte_string_Throw|].
    destruct (bind_Throw_inv _ _ _ Hv) as [Hv'|(v & _ & Hv')]; [by eapply to_byte_string_Throw|done].
  - destruct (bind_Throw_inv _ _ _ Hr) as [Ht|(t & _ & Ht)]; [|done].
    destruct (init_statusText init); [by eapply to_byte_string_Throw|done].
Qed.

(** The status of the converted dictionary: the given one as an
    [unsigned short], or 200. *)
Lemma convert_init_status init d :
  convert_init init = Ok d ->
  dict_status d = match init_status init with Some n => to_unsigned_short n | None => 200 end.
Proof.
  unfold convert_init. intros (hs & _ & Hr)%bind_Ok_inv. cbn zeta in Hr.
  destruct (bind_Ok_inv _ _ _ Hr) as (t & _ & [= <-]). done.
Qed.

Lemma headers_append_Throw hl h e : headers_append hl h = Throw e -> e = TypeError.
Proof.
  unfold headers_append. destruct (negb _); [by intros [= <-]|]. by destruct (forbidden_response_header_name _).
Qed.

Lemma headers_fill_Throw hl r e : headers_fill hl r = Throw e -> e = TypeError.
Proof.
  revert hl. induction r as [|h r IH]; intros hl; cbn [headers_fill]; [done|].
  intros [H|(hl' & _ & H)]%bind_Throw_inv; [by eapply headers_append_Throw | by eapply IH].
Qed.

Lemma init_header_list_Throw d e : init_header_list d = Throw e -> e = TypeError.
Proof. unfold init_header_list. destruct (dict_headers d); [apply headers_fill_Throw|done]. Qed.

(** Appending a valid header keeps the list valid: a name taken from the
    list is one of its valid names. *)
Lemma header_list_append_wf hl n v :
  headers_wf hl -> header_ok (n, v) -> headers_wf (header_list_append hl (n, v)).
Proof.
  intros Hwf (Hn & Hv & Hf). unfold header_list_append, headers_wf.
  apply Forall_app. split; [done|]. apply Forall_singleton.
  destruct (List.find _ hl) as [h'|] eqn:E; [|done].
  apply find_some in E as [Hin _].
  destruct (proj1 (List.Forall_forall _ _) Hwf _ Hin) as (Hn' & _ & Hf'). done.
Qed.

Lemma headers_append_wf hl h hl' :
  headers_wf hl -> headers_append hl h = Ok hl' -> headers_wf hl'.
Proof.
  intros Hwf. unfold headers_append.
  destruct (header_name_ok h.1 && header_value_ok (normalize h.2)) eqn:Hok; cbn [negb]; [|done].
  apply andb_true_iff in Hok as [Hn Hv].
  destruct (forbidden_response_header_name h.1) eqn:Hf; intros [= <-]; [done|].
  by apply header_list_append_wf.
Qed.

Lemma headers_fill_wf hl r hl' :
  headers_wf hl -> headers_fill hl r = Ok hl' -> headers_wf hl'.
Proof.
  revert hl. induction r as [|h r IH]; intros hl Hwf; cbn [headers_fill]; [by intros [= <-]|].
  intros (hl1 & H1 & H2)%bind_Ok_inv. eapply IH; [|exact H2]. by eapply headers_append_wf.
Qed.

Lemma content_type_header_ok : header_ok (content_type, text_plain_utf8).
Proof. split_and!; reflexivity. Qed.

Lemma has_header_append hl : has_header content_type (header_list_append hl (content_type, text_plain_utf8)) = true.
Proof.
  unfold header_list_append, has_header. rewrite existsb_app. apply orb_true_intro. right.
  cbn [existsb fst]. destruct (List.find _ hl) as [h'|] eqn:E; cbn [fst].
  - apply find_some in E as [_ E]. by rewrite E.
  - by rewrite orb_false_r.
Qed.

(** What [new_Response] returns, when it returns. *)
Lemma new_Response_Ok_inv body init r :
  new_Response body init = Ok r ->
  exists d hl, convert_init init = Ok d /\ init_header_list d = Ok hl /\
    200 <= dict_status d <= 599 /\ dict_statusText d = resp_status_text r /\
    (dict_statusText d = [] \/ reason_phrase (dict_statusText d) = true) /\
    null_body_status (dict_status d) = false /\ resp_status r = dict_status d /\
    resp_headers r = (if has_header content_type hl then hl
                      else header_list_append hl (content_type, text_plain_utf8)) /\
    resp_body r = to_usv body.
Proof.
  unfold new_Response. intros (d & Hd & Hr)%bind_Ok_inv. unfold initialize_response in Hr.
  destruct (Z.leb_spec 200 (dict_status d)); [|done].
  destruct (Z.leb_spec (dict_status d) 599); [|done]. cbn [andb negb] in Hr.
  destruct (bool_decide (dict_statusText d = [])) eqn:Ht;
    [apply bool_decide_eq_true in Ht|destruct (reason_phrase _) eqn:Hp; [|done]];
    cbn [orb negb] in Hr; apply bind_Ok_inv in Hr as (hl & Hl & Hr);
    destruct (null_body_status _) eqn:Hn; try done; injection Hr as <-;
    exists d, hl; cbn; repeat split; auto; lia.
Qed.

(** The body a client decodes with the body's type: the string converted
    to a USVString. *)
Lemma new_Response_body_decode body init r :
  new_Response body init = Ok r -> units_ok body ->
  utf8_decode (body_bytes r) = code_points (resp_body r).
Proof.
  intros (d & hl & _ & _ & _ & _ & _ & _ & _ & _ & Hb)%new_Response_Ok_inv Hu.
  unfold body_bytes. rewrite Hb. apply utf8_decode_encode. by apply to_usv_scalars.
Qed.

Lemma init_header_list_wf d hl : init_header_list d = Ok hl -> headers_wf hl.
Proof.
  unfold init_header_list. destruct (dict_headers d); [|intros [= <-]; constructor].
  apply headers_fill_wf. constructor.
Qed.

(** ** Properties *)

(** C22: The Fetch Standard's [Response] constructor, as the handlers use
    it with a string body.  When it returns, the response has the given
    status taken modulo 2^16 (200 when absent), in 200 to 599 and not a
    null-body status; the converted status text; the header list filled
    from the init's headers as a prefix of its own; a [Content-Type]
    (appended when the headers have none); and the body converted to a
    USVString, whose bytes a client decodes as UTF-8 back to that string.  When it throws, the error is a RangeError for a status
    outside 200 to 599, and otherwise a TypeError: a name, value or status
    text that is not a ByteString, a status text that is not a reason
    phrase, an invalid header, or a null-body status. *)
Theorem new_Response_spec body init :
  match new_Response body init with
  | Ok r =>
      resp_status r = match init_status init with Some n => to_unsigned_short n | None => 200 end /\
      200 <= resp_status r <= 599 /\ null_body_status (resp_status r) = false /\
      (exists d hl, convert_init init = Ok d /\ init_header_list d = Ok hl /\
         resp_status_text r = dict_statusText d /\ hl `prefix_of` resp_headers r) /\
      has_header content_type (resp_headers r) = true /\ resp_body r = to_usv body /\
      (units_ok body -> utf8_decode (body_bytes r) = code_points (resp_body r))
  | Throw e =>
      (e = RangeError /\ exists d, convert_init init = Ok d /\ ~ (200 <= dict_status d <= 599)) \/
      (e = TypeError /\
       (convert_init init = Throw TypeError \/
        exists d, convert_init init = Ok d /\ 200 <= dict_status d <= 599 /\
          ((dict_statusText d <> [] /\ reason_phrase (dict_statusText d) = false) \/
           init_header_list d = Throw TypeError \/
           ((exists hl, init_header_list d = Ok hl) /\ null_body_status (dict_status d) = true))))
  end.
Proof.
  destruct (new_Response body init) as [r|e] eqn:Hr.
  - destruct (new_Response_Ok_inv _ _ _ Hr)
      as (d & hl & Hd & Hl & Hs & Ht & _ & Hn & Hst & Hh & Hb).
    rewrite Hst, (convert_init_status _ _ Hd). split; [done|]. rewrite <- (convert_init_status _ _ Hd).
    split; [done|]. split; [done|]. split; [exists d, hl; rewrite Hh; split_and!; try done|].
    + destruct (has_header _ _); [done|]. by apply prefix_app_r.
    + rewrite Hh. split; [destruct (has_header _ _) eqn:E; [done|apply has_header_append]|].
      split; [done|]. exact (new_Response_body_decode _ _ _ Hr).
  - unfold new_Response in Hr. destruct (convert_init init) as [d|e'] eqn:Hd; cbn in Hr;
      [|injection Hr as ->; right; split; [by eapply convert_init_Throw|left; by rewrite (convert_init_Throw _ _ Hd)]].
    unfold initialize_response in Hr.
    destruct (Z.leb_spec 200 (dict_status d)); [|cbn in Hr; injection Hr as <-; left; split; [done|exists d; split; [done|lia]]].
    destruct (Z.leb_spec (dict_status d) 599); [|cbn in Hr; injection Hr as <-; left; split; [done|exists d; split; [done|lia]]].
    cbn [andb negb] in Hr. right.
    destruct (bool_decide (dict_statusText d = []) || reason_phrase (dict_statusText d)) eqn:Ht; cbn [negb] in Hr.
    + destruct (init_header_list d) as [hl|e'] eqn:Hl; cbn in Hr.
      * destruct (null_body_status _) eqn:Hn; [|done]. injection Hr as <-.
        split; [done|right; exists d; split_and!; [done|lia|lia|eauto]].
      * injection Hr as ->. pose proof (init_header_list_Throw _ _ Hl) as ->.
        split; [done|right; exists d; split_and!; [done|lia|lia|by right; left]].
    + injection Hr as <-. split; [done|right; exists d; split_and!; [done|lia|lia|left]].
      apply orb_false_iff in Ht as [Ht1 Ht2]. split; [|done]. by apply bool_decide_eq_false in Ht1.
Qed.

(** C35: The header-list invariant of a response: every response the
    constructor returns has a header list whose names are tokens, whose
    values are header values (normalised: no leading or trailing
    whitespace, no NUL, CR or LF) and which holds no [Set-Cookie]: the
    [Headers] append checks and normalises each header of the init, and
    the [Content-Type] the constructor adds is valid. *)
Theorem response_headers_wf body init r :
  new_Response body init = Ok r -> headers_wf (resp_headers r).
Proof.
  intros (d & hl & _ & Hl & _ & _ & _ & _ & _ & -> & _)%new_Response_Ok_inv.
  pose proof (init_header_list_wf _ _ Hl) as Hwf.
  destruct (has_header _ _); [done|]. apply header_list_append_wf; [done|apply content_type_header_ok].
Qed.

(** ** Witnesses *)

(** A value with surrounding spaces and a [Set-Cookie] header: the value
    is normalised, the cookie dropped, the type kept. *)
Lemma response_headers_wf_witness :
  let init := {| init_status := None; init_statusText := None;
                 init_headers := Some [(content_type, «" image/svg+xml "»); («"set-cookie"», «"a=b"»)] |} in
  exists r, new_Response «"x"» init = Ok r /\
    resp_headers r = [(content_type, «"image/svg+xml"»)] /\ headers_wf (resp_headers r).
Proof.
  intros init. eexists. split; [reflexivity|]. split; [reflexivity|].
  apply (response_headers_wf «"x"» init). reflexivity.
Defined.

End Fetch.
