(* ===== verification/Favicon.v ===== *)
(** * Favicon: [generateFaviconSVG] (src/src/index.ts lines 60 to 67)

    The icon renderer counts the code points of the glyph with
    [[...emoji].length], picks the font size 50 for exactly one code point
    and 40 otherwise, and fills a template literal with the colour, the
    font size (a [Number] converted to a string) and the glyph.
    - [emoji_length], [font_size]: lines 62 and 65;
    - [number_to_string]: Number::toString for the non-negative integers
      (ECMA-262), decimal digits computed with fuel;
    - [svg_t0] to [svg_t3]: the literal pieces of the template of line 66;
    - [generateFaviconSVG]: the whole function.

    Main results: the font size is 50 exactly for one code point (a single
    code unit or a single surrogate pair, so that a glyph with a variation
    selector, one character on screen, gets 40, unlike what the comment of
    line 61 suggests); where the template puts the colour (the background
    style), the font size and the glyph (verbatim, in the text element);
    the decimal conversion terminates within its fuel and reads back as
    the number. *)

From S2P Require Import Prelude JsString.
Import Utf16.

Module Favicon.

(** ** Number to string *)

(** Decimal digits of [n], most significant first, prepended to [acc];
    [fuel] bounds the number of digits. *)
Fixpoint decimal_digits (fuel : nat) (n : Z) (acc : jsstr) : jsstr :=
  match fuel with
  | O => acc
  | S f =>
      let acc' := (48 + n mod 10) :: acc in
      if n <? 10 then acc' else decimal_digits f (n / 10) acc'
  end.

(** Number::toString on a non-negative integer: its decimal digits.  The
    fuel [n + 1] bounds the number of digits. *)
Definition number_to_string (n : Z) : jsstr := decimal_digits (S (Z.to_nat n)) n [].

(** The value of a string of decimal digits (the inverse, used to state
    what [number_to_string] computes). *)
Definition decimal_value (s : jsstr) : Z := fold_left (fun v d => v * 10 + (d - 48)) s 0.

(** ** The renderer *)

(** [[...emoji].length]: the number of code points the string iterator
    yields. *)
Definition emoji_length (emoji : jsstr) : nat := length (code_points emoji).

(** [emojiLength === 1 ? 50 : 40] *)
Definition font_size (emoji : jsstr) : Z := if Nat.eqb (emoji_length emoji) 1 then 50 else 40.

(** The literal pieces of the template of line 66 (the backquote stands for
    the double quote). *)
Definition svg_t0 : jsstr :=
  «"<svg xmlns=`http://www.w3.org/2000/svg` width=`100` height=`100` style=`background-color:"».
Definition svg_t1 : jsstr := «";`><text x=`50%` y=`50%` font-size=`"».
Definition svg_t2 : jsstr := «"` dominant-baseline=`middle` text-anchor=`middle`>"».
Definition svg_t3 : jsstr := «"</text></svg>"».

Definition generateFaviconSVG (emoji color : jsstr) : jsstr :=
  svg_t0 ++ color ++ svg_t1 ++ number_to_string (font_size emoji) ++ svg_t2 ++ emoji ++ svg_t3.

(** ** Lemmas *)

Lemma decimal_digits_fold fuel n acc v :
  0 <= n -> (Z.to_nat n < fuel)%nat ->
  exists k, 0 <= k /\
    fold_left (fun v d => v * 10 + (d - 48)) (decimal_digits fuel n acc) v =
    fold_left (fun v d => v * 10 + (d - 48)) acc (v * 10 ^ k + n).
Proof.
  revert n acc v. induction fuel as [|fuel IH]; intros n acc v Hn Hf; [lia|].
  cbn [decimal_digits]. destruct (Z.ltb_spec n 10).
  - exists 1. split; [lia|]. simpl. f_equal. zlia.
  - destruct (IH (n / 10) ((48 + n mod 10) :: acc) v) as (k & Hk & ->); [zlia| |].
    + assert (n / 10 < n) by zlia. lia.
    + exists (k + 1). split; [lia|]. simpl. f_equal.
      rewrite Z.pow_add_r by lia. zlia.
Qed.

(** C17: Number::toString on a non-negative integer terminates within its
    fuel ([n + 1] digits) and yields the decimal digits of the number: they
    read back as the number. *)
Theorem number_to_string_value n : 0 <= n -> decimal_value (number_to_string n) = n.
Proof.
  intros Hn. unfold decimal_value, number_to_string.
  destruct (decimal_digits_fold (S (Z.to_nat n)) n [] 0) as (k & Hk & ->); [lia|lia|].
  simpl. lia.
Qed.

Lemma decimal_digits_ascii fuel n acc :
  0 <= n -> Forall (fun d => 48 <= d <= 57) acc ->
  Forall (fun d => 48 <= d <= 57) (decimal_digits fuel n acc).
Proof.
  revert n acc. induction fuel as [|fuel IH]; intros n acc Hn Hacc; [done|].
  cbn [decimal_digits]. assert (Hd : 48 <= 48 + n mod 10 <= 57) by zlia.
  destruct (n <? 10); [by constructor|]. apply IH; [zlia|by constructor].
Qed.

(** The font size is 50 exactly when the glyph is one code point. *)
Theorem font_size_spec emoji :
  (font_size emoji = 50 /\ length (code_points emoji) = 1%nat) \/
  (font_size emoji = 40 /\ length (code_points emoji) <> 1%nat).
Proof.
  unfold font_size, emoji_length. destruct (Nat.eqb_spec (length (code_points emoji)) 1); auto.
Qed.

(** C15: [generateFaviconSVG] uses font size 50 exactly when the glyph is
    one code point, that is one code unit or one surrogate pair, and 40
    otherwise (empty glyphs and sequences of several code points). *)
Theorem font_size_50_iff emoji :
  (font_size emoji = 50 <->
   (exists u, emoji = [u]) \/
   (exists h l, emoji = [h; l] /\ 0xD800 <= h <= 0xDBFF /\ 0xDC00 <= l <= 0xDFFF)) /\
  (font_size emoji = 50 \/ font_size emoji = 40).
Proof.
  rewrite <- code_points_length_1.
  destruct (font_size_spec emoji) as [[-> ?]|[-> ?]]; split; [split; intros; done|auto|split; intros; done|auto].
Qed.

(** The template pieces around the three holes. *)
Lemma svg_t0_split :
  svg_t0 = «"<svg xmlns=`http://www.w3.org/2000/svg` "» ++ «"width=`100` height=`100` "» ++
           «"style=`background-color:"».
Proof. reflexivity. Qed.

Lemma svg_t1_split : svg_t1 = «";`>"» ++ «"<text x=`50%` y=`50%` "» ++ «"font-size=`"».
Proof. reflexivity. Qed.

Lemma svg_t2_split : svg_t2 = «"`"» ++ «" dominant-baseline=`middle` "» ++ «"text-anchor=`middle`>"».
Proof. reflexivity. Qed.

Lemma font_size_digits emoji :
  number_to_string (font_size emoji) =
  if Nat.eqb (length (code_points emoji)) 1 then «"50"» else «"40"».
Proof. unfold font_size, emoji_length. by destruct (Nat.eqb _ _). Qed.

(** The glyph is the content of the text element, which ends the markup. *)
Lemma generateFaviconSVG_glyph emoji color :
  («"text-anchor=`middle`>"» ++ emoji ++ «"</text></svg>"») `suffix_of` generateFaviconSVG emoji color.
Proof.
  unfold generateFaviconSVG. rewrite svg_t0_split, svg_t1_split, svg_t2_split, <- !app_assoc.
  do 10 apply suffix_app_r. reflexivity.
Qed.

(** C16: Where the holes of the template are: the markup is an [svg]
    element whose [style] sets the background colour to the given
    colour, whose text has the attribute [font-size="50"] when the glyph
    is one code point and [font-size="40"] otherwise, and whose text
    element, which ends the markup, holds the glyph verbatim. *)
Theorem generateFaviconSVG_contents emoji color :
  «"<svg xmlns=`http://www.w3.org/2000/svg` "» `prefix_of` generateFaviconSVG emoji color /\
  infix («"style=`background-color:"» ++ color ++ «";`>"») (generateFaviconSVG emoji color) /\
  infix («"font-size=`"» ++ (if Nat.eqb (length (code_points emoji)) 1 then «"50"» else «"40"») ++ «"`"»)
        (generateFaviconSVG emoji color) /\
  («"text-anchor=`middle`>"» ++ emoji ++ «"</text></svg>"») `suffix_of` generateFaviconSVG emoji color.
Proof.
  split_and!; [| | |apply generateFaviconSVG_glyph];
    unfold generateFaviconSVG; rewrite ?font_size_digits, svg_t0_split, svg_t1_split, svg_t2_split, <- !app_assoc.
  - eexists. reflexivity.
  - do 2 apply infix_app_l. eexists [], _. rewrite app_nil_l, <- !app_assoc. reflexivity.
  - do 6 apply infix_app_l. eexists [], _. rewrite app_nil_l, <- !app_assoc. reflexivity.
Qed.

(** Witness. *)
Lemma number_to_string_value_witness : 0 <= 50 /\ decimal_value (number_to_string 50) = 50.
Proof. split; [lia | apply number_to_string_value; lia]. Defined.

End Favicon.
