(* ===== verification/Html.v ===== *)
(** * Html: [generateHtmlResponse] (src/src/index.ts lines 69 to 128)

    The page renderer is one template literal of seven literal pieces
    ([html_t0] to [html_t6], transcribed character for character, tabs and
    newlines included, the backquote standing for the double quote) and six
    substitutions, evaluated from left to right:
    [encodeURIComponent('🤓🌍')] (the site's own favicon, line 77),
    [encodeURIComponent(emoji)] and [encodeURIComponent(color)] (the
    navigation link, line 94), [faviconSVG] (the inline preview, line 107),
    and again [encodeURIComponent(emoji)] and [encodeURIComponent(color)]
    (the code sample, line 118).  Each [encodeURIComponent] may throw, so
    the renderer returns a [throws] value and the substitutions are
    sequenced with the monad of [Prelude].

    The renderer is defined over the interface [WebApi.UrlCodec]; its
    theorems use only the laws [WebApi.UrlCodecLaws].

    Main results: the page is produced exactly when glyph and colour are
    well formed, and otherwise the URIError of [encodeURIComponent]
    propagates; it embeds the given markup verbatim, links to the icon
    endpoint with the encoded glyph and colour, and the encoded text can
    close neither the query component nor the [href] attribute. *)

From S2P Require Import Prelude JsString WebApi.
Import Utf16 WebApi.

Module Html.

(** The glyph of the site's own favicon, ['🤓🌍'] (U+1F913 U+1F30D). *)
Definition site_glyph : jsstr := [0xD83E; 0xDD13; 0xD83C; 0xDF0D].

(** Template text of lines 71 to 77. *)
Definition html_t0 : jsstr := «"
	<!doctype html>
	<html lang=`en`>
		<head>
			<meta charset=`utf-8`>
			<meta name=`viewport` content=`width=device-width, initial-scale=1`>
			<link rel=`icon` href=`https://emojicon.online/svg?emoji="».

(** Template text of lines 77 to 94. *)
Definition html_t1 : jsstr := «"&color=skyblue` type=`image/svg+xml`>
			<title>Emojicon Online</title>
			<link href=`https://cdn.jsdelivr.net/npm/bootstrap@5.3.2/dist/css/bootstrap.min.css` rel=`stylesheet` integrity=`sha384-T3c6CoIi6uLrA9TneNEoa7RxnatzjcDSCmG1MXxSR1GAsXEV/Dwwykc2MPK8M2HN` crossorigin=`anonymous`>
		</head>
		<body>
			<nav class=`navbar navbar-expand-lg navbar-light bg-light`>
				<div class=`container`>
					<a class=`navbar-brand` href=`/`>Emojicon Online</a>
					<button class=`navbar-toggler` type=`button` data-bs-toggle=`collapse` data-bs-target=`#navbarNav` aria-controls=`navbarNav` aria-expanded=`false` aria-label=`Toggle navigation`>
						<span class=`navbar-toggler-icon`></span>
					</button>
					<div class=`collapse navbar-collapse` id=`navbarNav`>
						<ul class=`navbar-nav ms-auto`>
							<li class=`nav-item`>
								<a class=`nav-link active` href=`/`>Home</a>
							</li>
							<li class=`nav-item`>
								<a class=`nav-link` href=`/svg?emoji="».

(** Template text of lines 94 to 94. *)
Definition html_t2 : jsstr := «"&color="».

(** Template text of lines 94 to 107. *)
Definition html_t3 : jsstr := «"`>Generate Favicon</a>
							</li>
						</ul>
					</div>
				</div>
			</nav>
			<div class=`container my-5`>
				<div class=`row mt-4`>
						<div class=`col-md-6 offset-md-3`>
								<div class=`card`>
										<div class=`card-body`>
												<h2 class=`card-title`>Generated Favicon:</h2>
												<div class=`text-center mb-4`>
														"».

(** Template text of lines 107 to 118. *)
Definition html_t4 : jsstr := «"
												</div>
										</div>
								</div>
						</div>
				</div>
				<div class=`row mt-4`>
					<div class=`col-md-6 offset-md-3`>
						<div class=`card`>
							<div class=`card-body`>
								<h2 class=`card-title`>Include this code in your website:</h2>
								<pre><code>&lt;link rel=`icon` href=`https://emojicon.online/svg?emoji="».

(** Template text of lines 118 to 118. *)
Definition html_t5 : jsstr := «"&color="».

(** Template text of lines 118 to 127. *)
Definition html_t6 : jsstr := «"` type=`image/svg+xml`&gt;</code></pre>
							</div>
						</div>
					</div>
				</div>
			</div>
			<script src=`https://cdn.jsdelivr.net/npm/bootstrap@5.3.2/dist/js/bootstrap.bundle.min.js` integrity=`sha384-C6RzsynM9kWDrMNeT87bh95OGNyZPhcTNXj1NW7RuBCsyN/o0jlpcV8Qyq46cDfL` crossorigin=`anonymous`></script>
		</body>
	</html>
	"».

Section Renderer.
Context `{UrlCodec}.

Definition generateHtmlResponse (emoji color faviconSVG : jsstr) : throws jsstr :=
  e0 ← encode_component site_glyph;
  e1 ← encode_component emoji;
  e2 ← encode_component color;
  e3 ← encode_component emoji;
  e4 ← encode_component color;
  mret (html_t0 ++ e0 ++ html_t1 ++ e1 ++ html_t2 ++ e2 ++ html_t3 ++ faviconSVG ++
        html_t4 ++ e3 ++ html_t5 ++ e4 ++ html_t6).

Context `{!UrlCodecLaws}.

#[local] Arguments lit : simpl never.

Lemma site_glyph_wf : units_ok site_glyph /\ well_formed site_glyph.
Proof. split; compute_done. Qed.

(** On well-formed inputs the page is produced: every
    [encodeURIComponent] succeeds, and the page is the template filled
    with the encoded site glyph, the encoded glyph and colour (twice
    each) and the given markup. *)
Lemma generateHtmlResponse_ok emoji color svg :
  units_ok emoji -> well_formed emoji -> units_ok color -> well_formed color ->
  exists G E C,
    encode_component site_glyph = Ok G /\ encode_component emoji = Ok E /\
    encode_component color = Ok C /\
    generateHtmlResponse emoji color svg =
      Ok (html_t0 ++ G ++ html_t1 ++ E ++ html_t2 ++ C ++ html_t3 ++ svg ++
          html_t4 ++ E ++ html_t5 ++ C ++ html_t6).
Proof.
  intros Hue Hwe Huc Hwc. destruct site_glyph_wf as [Hug Hwg].
  destruct (encode_total site_glyph Hug Hwg) as [G HG].
  destruct (encode_total emoji Hue Hwe) as [E HE].
  destruct (encode_total color Huc Hwc) as [C HC].
  exists G, E, C. repeat split; try done.
  unfold generateHtmlResponse. by rewrite HG, HE, HC.
Qed.

Lemma html_link_ends :
  «"/svg?emoji="» `suffix_of` html_t1 /\ «"&color="» = html_t2 /\
  «"`>Generate Favicon</a>"» `prefix_of` html_t3 /\
  «"href=`https://emojicon.online/svg?emoji="» `suffix_of` html_t4 /\ «"&color="» = html_t5 /\
  «"` type=`image/svg+xml`&gt;</code>"» `prefix_of` html_t6.
Proof. repeat split; compute_done. Qed.

(** The filled template holds the markup and both links, whatever the
    encoded strings [G], [E] and [C] are. *)
Lemma html_template_links G E C svg :
  let page := html_t0 ++ G ++ html_t1 ++ E ++ html_t2 ++ C ++ html_t3 ++ svg ++
              html_t4 ++ E ++ html_t5 ++ C ++ html_t6 in
  infix svg page /\
  infix («"/svg?emoji="» ++ E ++ «"&color="» ++ C ++ «"`>Generate Favicon</a>"») page /\
  infix («"href=`https://emojicon.online/svg?emoji="» ++ E ++ «"&color="» ++ C ++
         «"` type=`image/svg+xml`&gt;</code>"») page.
Proof.
  destruct html_link_ends as (H1 & H2 & H3 & H4 & H5 & H6). split; [|split].
  - infix_auto.
  - rewrite H2. do 2 apply infix_app_l. apply infix_link; [done|]. by apply prefix_app_r.
  - rewrite H5. do 8 apply infix_app_l. by apply infix_link.
Qed.

(** C19: The page embeds the given markup verbatim, links to [/svg] with
    the encoded glyph and colour in the navigation bar, and shows the same
    link, absolute, in the code sample. *)
Theorem html_page_links emoji color svg E C page :
  encode_component emoji = Ok E -> encode_component color = Ok C ->
  generateHtmlResponse emoji color svg = Ok page ->
  infix svg page /\
  infix («"/svg?emoji="» ++ E ++ «"&color="» ++ C ++ «"`>Generate Favicon</a>"») page /\
  infix («"href=`https://emojicon.online/svg?emoji="» ++ E ++ «"&color="» ++ C ++
         «"` type=`image/svg+xml`&gt;</code>"») page.
Proof.
  intros HE HC Hp. unfold generateHtmlResponse in Hp. rewrite HE, HC in Hp.
  destruct (encode_component site_glyph) as [G|]; [|done].
  cbn [mbind mret throws_bind throws_ret] in Hp. apply Ok_inj in Hp. subst page.
  apply html_template_links.
Qed.

(** C18: The error behaviour of the page renderer, over a runtime
    satisfying the [UrlCodecLaws]: for a glyph and a colour of 16-bit code
    units, it returns a page exactly when both are well formed, and
    otherwise throws, and the error is the URIError of its first
    [encodeURIComponent] on an ill-formed argument: it neither catches the
    error nor writes either argument unencoded. *)
Theorem html_renderer_total emoji color svg :
  units_ok emoji -> units_ok color ->
  match generateHtmlResponse emoji color svg with
  | Ok _ => well_formed emoji /\ well_formed color
  | Throw e => e = URIError /\ ~ (well_formed emoji /\ well_formed color)
  end.
Proof.
  intros Hue Huc. destruct site_glyph_wf as [Hug Hwg].
  destruct (encode_total site_glyph Hug Hwg) as [G HG].
  unfold generateHtmlResponse. rewrite HG. cbn [mbind throws_bind].
  destruct (decide (well_formed emoji)) as [Hwe|Hwe];
    [destruct (encode_total emoji Hue Hwe) as [E ->]|rewrite (encode_error emoji Hue Hwe); cbn; tauto].
  cbn [mbind throws_bind].
  destruct (decide (well_formed color)) as [Hwc|Hwc];
    [destruct (encode_total color Huc Hwc) as [C ->]|rewrite (encode_error color Huc Hwc); cbn; tauto].
  done.
Qed.

End Renderer.

End Html.
