(* ===== verification/Router.v ===== *)
(** * Router: [handleSvg], [serveSvg], [serveHtml], [serveNotFound]

    The request handler of src/src/index.ts (lines 23 to 58): [handleSvg]
    (to which the worker's [fetch] delegates, see [Worker]) lower-cases the
    URL's path, reads the
    [emoji] and [color] query parameters with their defaults, and
    dispatches on the exact path: ["/svg"] to [serveSvg], ["/"] to
    [serveHtml], anything else to [serveNotFound].  Each of these builds a
    [Response] with the constructor of [Fetch], passing the init
    dictionary the source writes.

    A request is modelled by what [handleSvg] reads of it: the method (never
    used), the [pathname] and the query string of its parsed URL.  The
    handler is defined over the interface [WebApi.UrlCodec] and its
    theorems use only [WebApi.UrlCodecLaws].

    Main results: the handler never throws; which response each path gets;
    the path is matched case-insensitively and nothing else; a missing or
    empty parameter acts as its default; following the page's "Generate
    Favicon" link yields exactly the icon previewed on the page. *)

From S2P Require Import Prelude JsString Utf8 WebApi Fetch Favicon Html.
Import Utf16 Utf8 WebApi Fetch Favicon Html.

Module Router.

(** ** Requests *)

Record Request := {
  req_method : jsstr;    (* request.method, ignored by the handler *)
  req_pathname : jsstr;  (* new URL(request.url).pathname *)
  req_query : jsstr      (* the query of that URL, without the "?" *)
}.

(** ** Constants *)

(** ['🌍'] (U+1F30D) *)
Definition default_emoji : jsstr := [0xD83C; 0xDF0D].
Definition default_color : jsstr := «"skyblue"».

(** ['🕵🏻‍♂️ 404 Not Found'] (U+1F575 U+1F3FB U+200D U+2642 U+FE0F). *)
Definition not_found_body : jsstr :=
  [0xD83D; 0xDD75; 0xD83C; 0xDFFB; 0x200D; 0x2642; 0xFE0F] ++ «" 404 Not Found"».

(** [v || d] for [v : string | null]: [d] when [v] is [null] or empty. *)
Definition or_default (v : option jsstr) (d : jsstr) : jsstr :=
  match v with
  | Some ((_ :: _) as s) => s
  | _ => d
  end.

Section Handler.
Context `{UrlCodec}.

(** [params.get('emoji') || '🌍'] *)
Definition request_emoji (request : Request) : jsstr :=
  or_default (params_get «"emoji"» (search_params (req_query request))) default_emoji.

(** [params.get('color') || 'skyblue'] *)
Definition request_color (request : Request) : jsstr :=
  or_default (params_get «"color"» (search_params (req_query request))) default_color.

Definition serveSvg (emoji color : jsstr) : throws Response :=
  let faviconSVG := generateFaviconSVG emoji color in
  new_Response faviconSVG {| init_status := None; init_statusText := None;
                             init_headers := Some [(content_type, «"image/svg+xml"»)] |}.

Definition serveHtml (emoji color : jsstr) : throws Response :=
  let faviconSVG := generateFaviconSVG emoji color in
  htmlResponse ← generateHtmlResponse emoji color faviconSVG;
  new_Response htmlResponse {| init_status := None; init_statusText := None;
                               init_headers := Some [(content_type, «"text/html"»)] |}.

Definition serveNotFound : throws Response :=
  new_Response not_found_body {| init_status := Some 404; init_statusText := None;
                                 init_headers := None |}.

Definition handleSvg (request : Request) : throws Response :=
  let path := to_lower (req_pathname request) in
  let emoji := request_emoji request in
  let color := request_color request in
  if decide (path = «"/svg"») then serveSvg emoji color
  else if decide (path = «"/"») then serveHtml emoji color
  else serveNotFound.

End Handler.

(** ** Lemmas *)

(** The constructor on the handlers' inits: status 200 and the given
    [Content-Type], or status 404 and the type of a string body. *)
Lemma new_Response_typed body t :
  t = «"image/svg+xml"» \/ t = «"text/html"» ->
  new_Response body {| init_status := None; init_statusText := None;
                       init_headers := Some [(content_type, t)] |} =
  Ok {| resp_status := 200; resp_status_text := []; resp_headers := [(content_type, t)];
        resp_body := to_usv body |}.
Proof. intros [-> | ->]; reflexivity. Qed.

Lemma new_Response_not_found body :
  new_Response body {| init_status := Some 404; init_statusText := None; init_headers := None |} =
  Ok {| resp_status := 404; resp_status_text := []; resp_headers := [(content_type, text_plain_utf8)];
        resp_body := to_usv body |}.
Proof. reflexivity. Qed.

Lemma or_default_usv v d : (forall s, v = Some s -> usv s) -> usv d -> usv (or_default v d).
Proof. intros Hv Hd. destruct v as [[|x s]|]; cbn [or_default]; [done | by apply Hv | done]. Qed.

Lemma or_default_nonempty v d : d <> [] -> or_default v d <> [].
Proof. intros Hd. by destruct v as [[|x s]|]. Qed.

Lemma or_default_some s d : s <> [] -> or_default (Some s) d = s.
Proof. by destruct s. Qed.

(** [lits_usv] proves that closed literals are scalar value strings. *)
Ltac lits_usv := compute_done.

Lemma svg_pieces_usv : usv svg_t0 /\ usv svg_t1 /\ usv svg_t2 /\ usv svg_t3.
Proof. repeat split; lits_usv. Qed.

Lemma html_pieces_usv :
  usv html_t0 /\ usv html_t1 /\ usv html_t2 /\ usv html_t3 /\ usv html_t4 /\ usv html_t5 /\ usv html_t6.
Proof. repeat split; lits_usv. Qed.

Lemma number_to_string_usv n : 0 <= n -> usv (number_to_string n).
Proof.
  intros Hn. apply usv_ascii. unfold number_to_string.
  eapply Forall_impl; [|apply decimal_digits_ascii; [done|constructor]]. simpl. lia.
Qed.

Lemma font_size_nonneg e : 0 <= font_size e.
Proof. unfold font_size. by destruct (Nat.eqb _ _). Qed.

Lemma generateFaviconSVG_usv e c : usv e -> usv c -> usv (generateFaviconSVG e c).
Proof.
  intros He Hc. destruct svg_pieces_usv as (H0 & H1 & H2 & H3).
  pose proof (number_to_string_usv _ (font_size_nonneg e)).
  unfold generateFaviconSVG. usv_split; assumption.
Qed.

Section Handler_laws.
Context `{UrlCodec} `{!UrlCodecLaws}.

Lemma request_emoji_usv r : usv (request_emoji r).
Proof.
  apply or_default_usv; [|compute_done]. intros v Hv. by apply (params_get_wf (req_query r) «"emoji"»).
Qed.

Lemma request_color_usv r : usv (request_color r).
Proof.
  apply or_default_usv; [|compute_done]. intros v Hv. by apply (params_get_wf (req_query r) «"color"»).
Qed.

Lemma serveSvg_ok e c :
  usv e -> usv c ->
  serveSvg e c = Ok {| resp_status := 200; resp_status_text := []; resp_headers := [(content_type, «"image/svg+xml"»)];
                       resp_body := generateFaviconSVG e c |}.
Proof.
  intros He Hc. unfold serveSvg. rewrite new_Response_typed by (by left).
  rewrite to_usv_usv by (by apply generateFaviconSVG_usv). done.
Qed.

Lemma serveNotFound_ok :
  serveNotFound = Ok {| resp_status := 404; resp_status_text := []; resp_headers := [(content_type, text_plain_utf8)];
                        resp_body := not_found_body |}.
Proof.
  unfold serveNotFound. rewrite new_Response_not_found.
  rewrite to_usv_usv by compute_done. done.
Qed.

Lemma html_page_usv e c G E C :
  usv e -> usv c ->
  encode_component site_glyph = Ok G -> encode_component e = Ok E -> encode_component c = Ok C ->
  usv (html_t0 ++ G ++ html_t1 ++ E ++ html_t2 ++ C ++ html_t3 ++
       generateFaviconSVG e c ++ html_t4 ++ E ++ html_t5 ++ C ++ html_t6).
Proof.
  intros He Hc HG HE HC.
  pose proof (encode_safe _ _ (proj1 He) HE) as SE. pose proof (encode_safe _ _ (proj1 Hc) HC) as SC.
  destruct site_glyph_wf as [Hug _]. pose proof (encode_safe _ _ Hug HG) as SG.
  assert (Hsafe : forall x, Forall (fun u => u = 37 \/ component_safe u) x -> usv x).
  { intros x Hx. apply usv_ascii. eapply Forall_impl; [|exact Hx].
    intros u [->|[Hu _]]; lia. }
  destruct html_pieces_usv as (P0 & P1 & P2 & P3 & P4 & P5 & P6).
  pose proof (generateFaviconSVG_usv e c He Hc).
  usv_split; first [assumption | apply Hsafe; assumption].
Qed.

Lemma serveHtml_ok e c :
  usv e -> usv c ->
  exists G E C,
    encode_component site_glyph = Ok G /\ encode_component e = Ok E /\ encode_component c = Ok C /\
    serveHtml e c =
      Ok {| resp_status := 200; resp_status_text := []; resp_headers := [(content_type, «"text/html"»)];
            resp_body := html_t0 ++ G ++ html_t1 ++ E ++ html_t2 ++ C ++ html_t3 ++
                         generateFaviconSVG e c ++ html_t4 ++ E ++ html_t5 ++ C ++ html_t6 |}.
Proof.
  intros He Hc.
  destruct (generateHtmlResponse_ok e c (generateFaviconSVG e c) (proj1 He) (proj2 He) (proj1 Hc) (proj2 Hc))
    as (G & E & C & HG & HE & HC & Hp).
  exists G, E, C. repeat split; try done.
  unfold serveHtml. cbn zeta. rewrite Hp. cbn [mbind throws_bind].
  rewrite new_Response_typed by (by right). f_equal. f_equal.
  apply to_usv_usv. by apply html_page_usv.
Qed.

Lemma request_emoji_nonempty r : request_emoji r <> [].
Proof. apply or_default_nonempty. done. Qed.

Lemma request_color_nonempty r : request_color r <> [].
Proof. apply or_default_nonempty. done. Qed.

(** C1: The handler never throws, whatever the request: every
    [encodeURIComponent] it runs gets a well-formed string (read from
    [searchParams] or a default), and every status it uses is in range. *)
Theorem handleSvg_total r : exists resp, handleSvg r = Ok resp.
Proof.
  pose proof (request_emoji_usv r) as He. pose proof (request_color_usv r) as Hc.
  unfold handleSvg. cbn zeta. case_decide; [eexists; by apply serveSvg_ok|].
  case_decide.
  - destruct (serveHtml_ok _ _ He Hc) as (G & E & C & _ & _ & _ & ->). eauto.
  - eexists. apply serveNotFound_ok.
Qed.

(** [/svg], in any case: the icon, as [image/svg+xml]. *)
Lemma handleSvg_svg r :
  to_lower (req_pathname r) = «"/svg"» ->
  handleSvg r = Ok {| resp_status := 200; resp_status_text := []; resp_headers := [(content_type, «"image/svg+xml"»)];
                      resp_body := generateFaviconSVG (request_emoji r) (request_color r) |}.
Proof.
  intros Hp. unfold handleSvg. cbn zeta. rewrite decide_True by done.
  apply serveSvg_ok; [apply request_emoji_usv | apply request_color_usv].
Qed.

(** C5: Any path other than [/svg] and [/] after lower-casing (a trailing
    slash included): status 404, the fixed body, and the default type of
    a string body, [text/plain;charset=UTF-8]. *)
Theorem handleSvg_not_found r :
  to_lower (req_pathname r) <> «"/svg"» -> to_lower (req_pathname r) <> «"/"» ->
  handleSvg r = Ok {| resp_status := 404; resp_status_text := []; resp_headers := [(content_type, text_plain_utf8)];
                      resp_body := not_found_body |}.
Proof.
  intros H1 H2. unfold handleSvg. cbn zeta. rewrite !decide_False by done.
  apply serveNotFound_ok.
Qed.

(** [/], in any case: the page, as [text/html]; it previews the icon of
    the request and links to it in the navigation bar and the code
    sample, with the encoded glyph and colour. *)
Lemma handleSvg_page r :
  to_lower (req_pathname r) = «"/"» ->
  exists E C resp,
    encode_component (request_emoji r) = Ok E /\ encode_component (request_color r) = Ok C /\
    handleSvg r = Ok resp /\ resp_status resp = 200 /\
    resp_headers resp = [(content_type, «"text/html"»)] /\
    infix (generateFaviconSVG (request_emoji r) (request_color r)) (resp_body resp) /\
    infix («"/svg?emoji="» ++ E ++ «"&color="» ++ C ++ «"`>Generate Favicon</a>"») (resp_body resp) /\
    infix («"href=`https://emojicon.online/svg?emoji="» ++ E ++ «"&color="» ++ C ++
           «"` type=`image/svg+xml`&gt;</code>"») (resp_body resp).
Proof.
  intros Hp. pose proof (request_emoji_usv r) as He. pose proof (request_color_usv r) as Hc.
  destruct (serveHtml_ok _ _ He Hc) as (G & E & C & HG & HE & HC & Hs).
  exists E, C. eexists. split; [done|]. split; [done|].
  split; [unfold handleSvg; cbn zeta; rewrite decide_False, decide_True by (rewrite Hp; done); exact Hs|].
  cbn [resp_status resp_headers resp_body]. split; [done|]. split; [done|].
  apply html_template_links.
Qed.

(** C6: Two requests whose paths agree after lower-casing and whose
    queries are equal get the same response: the path is matched
    case-insensitively, and the method is ignored. *)
Theorem handleSvg_path_case r1 r2 :
  to_lower (req_pathname r1) = to_lower (req_pathname r2) -> req_query r1 = req_query r2 ->
  handleSvg r1 = handleSvg r2.
Proof.
  intros Hp Hq. unfold handleSvg, request_emoji, request_color. by rewrite Hp, Hq.
Qed.

Lemma link_query E C :
  «"emoji="» ++ E ++ «"&color="» ++ C =
  join_amp (map pair_query [(«"emoji"», E); («"color"», C)]).
Proof. lit_eval. reflexivity. Qed.

Lemma params_get_link e c :
  params_get «"emoji"» [(«"emoji"», e); («"color"», c)] = Some e /\
  params_get «"color"» [(«"emoji"», e); («"color"», c)] = Some c.
Proof. split; reflexivity. Qed.

Lemma search_params_link e c E C :
  usv e -> usv c -> encode_component e = Ok E -> encode_component c = Ok C ->
  search_params («"emoji="» ++ E ++ «"&color="» ++ C) = [(«"emoji"», e); («"color"», c)].
Proof.
  intros [He _] [Hc _] HE HC. rewrite link_query. apply search_params_encoded.
  - repeat constructor; simpl; try done; compute_done.
  - repeat constructor; simpl; try done; apply encode_lower_letters; compute_done.
Qed.

(** C2: Following the page's "Generate Favicon" link: the page for [/]
    contains [/svg?emoji=E&color=C]; a request (any method) for [/svg]
    with that query is answered with exactly the icon markup the page
    previews inline. *)
Theorem follow_generate_link r :
  to_lower (req_pathname r) = «"/"» ->
  exists E C resp,
    handleSvg r = Ok resp /\
    infix («"/svg?emoji="» ++ E ++ «"&color="» ++ C ++ «"`>Generate Favicon</a>"») (resp_body resp) /\
    forall m,
      handleSvg {| req_method := m; req_pathname := «"/svg"»;
                   req_query := «"emoji="» ++ E ++ «"&color="» ++ C |} =
      Ok {| resp_status := 200; resp_status_text := []; resp_headers := [(content_type, «"image/svg+xml"»)];
            resp_body := generateFaviconSVG (request_emoji r) (request_color r) |} /\
      infix (generateFaviconSVG (request_emoji r) (request_color r)) (resp_body resp).
Proof.
  intros Hp. destruct (handleSvg_page r Hp) as (E & C & resp & HE & HC & Hr & _ & _ & Hsvg & Hnav & _).
  exists E, C, resp. split; [done|]. split; [done|]. intros m. split; [|done].
  pose proof (request_emoji_usv r) as He. pose proof (request_color_usv r) as Hc.
  pose proof (search_params_link _ _ E C He Hc HE HC) as Hq.
  rewrite handleSvg_svg by done. unfold request_emoji at 1, request_color at 1.
  cbn [req_query]. rewrite Hq, (proj1 (params_get_link _ _)), (proj2 (params_get_link _ _)).
  by rewrite !or_default_some by (apply request_emoji_nonempty || apply request_color_nonempty).
Qed.

(** C3: A request whose path lower-cases to [/svg] gets status 200, the
    single header [Content-Type: image/svg+xml] and, as body, the icon of
    the request's glyph and colour (defaults substituted for missing or
    empty parameters). *)
Theorem svg_route r :
  to_lower (req_pathname r) = «"/svg"» ->
  handleSvg r = Ok {| resp_status := 200; resp_status_text := []; resp_headers := [(content_type, «"image/svg+xml"»)];
                      resp_body := generateFaviconSVG (request_emoji r) (request_color r) |}.
Proof. apply handleSvg_svg. Qed.

(** C4: A request whose path lower-cases to [/] gets status 200,
    [Content-Type: text/html] and a page that embeds the request's icon
    and links to it, with the encoded glyph and colour, in the navigation
    bar and in the code sample. *)
Theorem page_route r :
  to_lower (req_pathname r) = «"/"» ->
  exists E C resp,
    encode_component (request_emoji r) = Ok E /\ encode_component (request_color r) = Ok C /\
    handleSvg r = Ok resp /\ resp_status resp = 200 /\
    resp_headers resp = [(content_type, «"text/html"»)] /\
    infix (generateFaviconSVG (request_emoji r) (request_color r)) (resp_body resp) /\
    infix («"/svg?emoji="» ++ E ++ «"&color="» ++ C ++ «"`>Generate Favicon</a>"») (resp_body resp) /\
    infix («"href=`https://emojicon.online/svg?emoji="» ++ E ++ «"&color="» ++ C ++
           «"` type=`image/svg+xml`&gt;</code>"») (resp_body resp).
Proof. apply handleSvg_page. Qed.

(** C23: The defaults of lines 27 and 28: for every method, path and
    query in which [emoji] and [color] are missing or empty, the response
    is the one for the same path with the query
    [emoji=E&color=C], [E] and [C] the encodings of ['🌍'] and
    ['skyblue']. *)
Theorem default_parameters m p q :
  (params_get «"emoji"» (search_params q) = None \/ params_get «"emoji"» (search_params q) = Some []) ->
  (params_get «"color"» (search_params q) = None \/ params_get «"color"» (search_params q) = Some []) ->
  exists E C,
    encode_component default_emoji = Ok E /\ encode_component default_color = Ok C /\
    handleSvg {| req_method := m; req_pathname := p; req_query := q |} =
    handleSvg {| req_method := m; req_pathname := p; req_query := «"emoji="» ++ E ++ «"&color="» ++ C |}.
Proof.
  intros He Hc.
  assert (Ue : usv default_emoji) by compute_done. assert (Uc : usv default_color) by compute_done.
  destruct (encode_total _ (proj1 Ue) (proj2 Ue)) as [E HE].
  destruct (encode_total _ (proj1 Uc) (proj2 Uc)) as [C HC].
  exists E, C. split; [done|]. split; [done|].
  unfold handleSvg, request_emoji, request_color. cbn [req_query req_pathname].
  rewrite (search_params_link _ _ E C Ue Uc HE HC), (proj1 (params_get_link _ _)), (proj2 (params_get_link _ _)).
  by destruct He as [-> | ->], Hc as [-> | ->].
Qed.

End Handler_laws.

End Router.
