(* ===== verification/Worker.v ===== *)
(** * Worker: the handler on the concrete runtime

    The worker's [Env] (lines 1 to 16, an interface without members) and
    its [fetch] (lines 17 to 21) on a request as it arrives: its
    URL is parsed by [Url.parse_after_host] ([url_request], line 24) and
    handed to [Router.handleSvg], instantiated with the models of ECMA-262
    and of the URL Standard ([Runtime.runtime_codec]).  This file holds
    what is true of the deployed worker and not of every runtime
    satisfying [WebApi.UrlCodecLaws]: following the absolute link of the
    page's code sample through the URL parser; the page's own favicon
    link; the URIError that [serveHtml] raises on a glyph with a lone
    surrogate and that [fetch] never reaches; the findings, stated for
    all inputs (every glyph reaches the page unescaped; the URL parser
    removes dot segments and reads backslashes as slashes); and the
    witnesses of the claims of [Html] and [Router]. *)

From S2P Require Import Prelude JsString Utf8 WebApi UriEncode FormUrlencoded Url Runtime Fetch Favicon Html Router.
Import Utf16 Utf8 WebApi UriEncode FormUrlencoded Url Runtime Fetch Favicon Html Router.

Module Worker.

(** A request as the worker receives it: its method and its URL, split
    into the origin (scheme, host and port, which the model does not
    parse) and the rest, which starts at the first [/], [\], [?] or [#]
    after the host. *)
Record HttpRequest := {
  http_method : jsstr;
  http_origin : jsstr;
  http_target : jsstr
}.

(** [new URL(request.url)] (line 24) as [handleSvg] reads it: the
    pathname, and the query from which [searchParams] is built (a null
    query gives no parameters, as the empty one does). *)
Definition url_request (request : HttpRequest) : Request :=
  let url := parse_after_host (http_target request) in
  {| req_method := http_method request;
     req_pathname := url_pathname url;
     req_query := match url_query url with Some q => q | None => [] end |}.

(** [interface Env] (lines 1 to 16): the bindings of the worker's
    environment.  It declares none (every member is commented out), so its
    values carry nothing. *)
Record Env := mkEnv {}.

Section Entry.
Context {ExecutionContext : Type}.

(** The worker's default export (lines 17 to 21): [fetch] hands the
    request, [env] and [ctx] to [handleSvg], here over the runtime's
    [encodeURIComponent] and [searchParams].  [handleSvg] reads neither
    [env] nor [ctx] (line 23), which is why [Router.handleSvg] does not
    take them; [ExecutionContext] stays abstract, since none of its
    methods is called. *)
Definition fetch (request : HttpRequest) (env : Env) (ctx : ExecutionContext) : throws Response :=
  handleSvg (url_request request).

End Entry.

(** The site's origin, and a GET request to it. *)
Definition site_origin : jsstr := «"https://emojicon.online"».

Definition http_get (target : jsstr) : HttpRequest :=
  {| http_method := «"GET"»; http_origin := site_origin; http_target := target |}.

(** A request for [path] with query [query] (the method is irrelevant). *)
Definition get (path query : jsstr) : Request :=
  {| req_method := «"GET"»; req_pathname := path; req_query := query |}.

(** ** Lemmas *)

(** The query state on the [?] that ends the path. *)
Lemma path_state_query path buffer Q :
  path_state path buffer (63 :: Q) = (end_segment path buffer false, Some (query_state Q)).
Proof. reflexivity. Qed.

(** The URL of a target [/P?Q], [P] a path segment and [Q] printable ASCII
    without [#]: the pathname [/P] and the query [Q], as the query state
    keeps it. *)
Lemma url_request_query m o P Q :
  segment_ok P -> Forall (fun u => 0x21 <= u <= 0x7E /\ u <> 35) Q ->
  url_request {| http_method := m; http_origin := o; http_target := 47 :: P ++ 63 :: Q |} =
  {| req_method := m; req_pathname := 47 :: P; req_query := query_state Q |}.
Proof.
  intros HP HQ. unfold url_request, parse_after_host. cbn [http_target http_method].
  rewrite preprocess_printable.
  - unfold path_start. change (is_slash 47) with true. cbn iota.
    rewrite path_state_read by exact (proj1 HP). rewrite app_nil_l, path_state_query.
    rewrite end_segment_segment by exact HP. cbn. by rewrite app_nil_r.
  - constructor; [lia|]. apply Forall_app. split.
    + eapply Forall_impl; [|exact (proj1 HP)]. intros c [[Hc _] _]. exact Hc.
    + constructor; [lia|]. eapply Forall_impl; [|exact HQ]. cbn beta. lia.
Qed.

Lemma segment_ok_svg : segment_ok «"svg"».
Proof. unfold segment_ok, url_code_point. compute_done. Qed.

(** The only pair read from [emoji=G], for [G] the encoding of a
    well-formed [g]. *)
Lemma search_params_glyph g G :
  units_ok g -> encode_uri_component g = Ok G ->
  search_params (query_state («"emoji="» ++ G)) = [(«"emoji"», g)].
Proof.
  intros Hu HG.
  assert (HQ : Forall (fun u => 0x21 <= u <= 0x7E /\ u <> 35) («"emoji="» ++ G)).
  { apply Forall_app. split; [compute_done|exact (encode_uri_component_printable _ _ Hu HG)]. }
  cbn [search_params runtime_codec].
  rewrite query_state_search_params, utf16_encode_ascii.
  - change («"emoji="» ++ G) with (join_amp (map pair_query [(«"emoji"», G)])).
    change (url_search_params ?x) with (search_params x).
    apply (search_params_encoded [(«"emoji"», g)] [(«"emoji"», G)]).
    + constructor; [split; [compute_done|exact Hu]|constructor].
    + constructor; [split; [reflexivity|exact HG]|constructor].
  - eapply Forall_impl; [|exact HQ]. cbn beta. lia.
  - eapply Forall_impl; [|exact HQ]. intros u Hu'. cbn beta in Hu'. split; [lia|]. unfold surrogate. lia.
  - rewrite list_elem_of_In. intros Hin. rewrite Forall_forall in HQ. destruct (HQ 35 Hin). done.
Qed.

(** C24: [serveHtml] throws a URIError when the glyph holds a lone
    surrogate; [fetch] never reaches that error, because [searchParams]
    decodes the bytes of a percent-encoded lone surrogate ([%ED%A0%BD]) to
    three U+FFFD, which the page then shows. *)
Theorem serveHtml_lone_surrogate emoji color (env : Env) {Ctx : Type} (ctx : Ctx) :
  units_ok emoji -> ~ well_formed emoji ->
  serveHtml emoji color = Throw URIError /\
  exists resp, fetch (http_get «"/?emoji=%ED%A0%BD"») env ctx = Ok resp /\
    infix («"text-anchor=`middle`>"» ++ [0xFFFD; 0xFFFD; 0xFFFD] ++ «"</text>"») (resp_body resp).
Proof.
  intros Hu Hw. split; [|eexists; split; [vm_compute; reflexivity | apply is_infix_spec; vm_compute; reflexivity]]. unfold serveHtml, generateHtmlResponse. cbn zeta.
  cbn [encode_component runtime_codec].
  replace (encode_uri_component site_glyph) with (Ok «"%F0%9F%A4%93%F0%9F%8C%8D"»)
    by (vm_compute; reflexivity).
  cbn [mbind throws_bind]. by rewrite (proj2 (encode_uri_component_throws emoji Hu) Hw).
Qed.

(** C25: The page's own favicon link does not depend on the request: for
    every request to [/] the page links to the icon of the site glyph 🤓🌍
    on the background skyblue. *)
Theorem site_favicon_link req (env : Env) {Ctx : Type} (ctx : Ctx) :
  to_lower (req_pathname (url_request req)) = «"/"» ->
  exists resp, fetch req env ctx = Ok resp /\
    infix «"<link rel=`icon` href=`https://emojicon.online/svg?emoji=%F0%9F%A4%93%F0%9F%8C%8D&color=skyblue` type=`image/svg+xml`>"»
      (resp_body resp).
Proof.
  intros Hp. pose proof (request_emoji_usv (url_request req)) as He.
  pose proof (request_color_usv (url_request req)) as Hc.
  destruct (serveHtml_ok _ _ He Hc) as (G & E & C & HG & _ & _ & Hs).
  cbn [encode_component runtime_codec] in HG. vm_compute in HG. apply Ok_inj in HG. subst G.
  eexists. split.
  - unfold fetch, handleSvg. cbn zeta. rewrite decide_False, decide_True by (rewrite Hp; done). exact Hs.
  - cbn [resp_body]. rewrite !app_assoc. do 6 apply infix_app_r.
    rewrite <- !app_assoc. apply is_infix_spec. vm_compute. reflexivity.
Qed.

(** C26: The glyph reaches the page unescaped: for every non-empty
    well-formed glyph [g], the page for [/?emoji=E], [E] the encoding of
    [g] that the page's own links use, has [g] verbatim as the text of its
    inline icon.  Neither the icon renderer nor the page renderer escapes
    markup, so a glyph such as [<script>alert(1)</script>] becomes an
    element of the page. *)
Theorem glyph_script_injection g E (env : Env) {Ctx : Type} (ctx : Ctx) :
  usv g -> g <> [] -> encode_uri_component g = Ok E ->
  exists resp, fetch (http_get («"/?emoji="» ++ E)) env ctx = Ok resp /\
    infix («"text-anchor=`middle`>"» ++ g ++ «"</text></svg>"») (resp_body resp).
Proof.
  intros Hg Hne HE. unfold fetch, http_get.
  change («"/?emoji="» ++ E) with (47 :: [] ++ 63 :: («"emoji="» ++ E)).
  assert (HQ : Forall (fun u => 0x21 <= u <= 0x7E /\ u <> 35) («"emoji="» ++ E)).
  { apply Forall_app. split; [compute_done|exact (encode_uri_component_printable _ _ (proj1 Hg) HE)]. }
  rewrite (url_request_query _ _ [] _ segment_ok_nil HQ).
  set (r := {| req_method := _; req_pathname := _; req_query := _ |}).
  assert (Hre : request_emoji r = g).
  { unfold request_emoji. cbn [req_query r]. rewrite (search_params_glyph g E (proj1 Hg) HE).
    by apply or_default_some. }
  destruct (handleSvg_page r eq_refl) as (E' & C & resp & _ & _ & Hr & _ & _ & Hsvg & _).
  exists resp. split; [exact Hr|]. rewrite Hre in Hsvg. eapply infix_trans; [|exact Hsvg].
  apply infix_suffix, generateFaviconSVG_glyph.
Qed.

(** C30: [new URL] normalises the path before [handleSvg] sees it, which
    the specification does not say: a segment followed by a double-dot
    segment ([..], or a percent-encoded spelling such as [%2E%2e]) is
    removed, and a backslash is a slash, so that [a s b dd d t] and [/t]
    are the same request (with [/x/../SVG], [\x\%2E%2e/svg] and [/svg]
    among them). *)
Theorem path_normalisation_routes m o a s b dd d t :
  is_slash a = true -> is_slash b = true -> is_slash d = true ->
  segment_ok s -> double_dot dd = true ->
  Forall (fun c => url_code_point path_set c /\ is_slash c = false) dd ->
  Forall (fun c => 0x21 <= c <= 0x7E) t ->
  url_request {| http_method := m; http_origin := o; http_target := a :: s ++ b :: dd ++ d :: t |} =
  url_request {| http_method := m; http_origin := o; http_target := 47 :: t |}.
Proof.
  intros Ha Hb Hd Hs Hdd Hdc Ht.
  assert (Hsl : forall c, is_slash c = true -> 0x21 <= c <= 0x7E).
  { intros c. unfold is_slash. intros [->%Z.eqb_eq | ->%Z.eqb_eq]%orb_true_iff; lia. }
  assert (Hpc : forall l, Forall (fun c => url_code_point path_set c /\ is_slash c = false) l ->
                          Forall (fun c => 0x21 <= c <= 0x7E) l).
  { intros l. apply Forall_impl. intros c [[Hc _] _]. exact Hc. }
  unfold url_request, parse_after_host. cbn [http_target].
  assert (HL : Forall (fun c => 0x21 <= c <= 0x7E) (a :: s ++ b :: dd ++ d :: t)).
  { constructor; [by apply Hsl|]. apply Forall_app. split; [exact (Hpc _ (proj1 Hs))|].
    constructor; [by apply Hsl|]. apply Forall_app. split; [exact (Hpc _ Hdc)|].
    constructor; [by apply Hsl|exact Ht]. }
  assert (HR : Forall (fun c => 0x21 <= c <= 0x7E) (47 :: t)) by (constructor; [lia|exact Ht]).
  rewrite (preprocess_printable _ HL), (preprocess_printable _ HR).
  unfold path_start. rewrite Ha. change (is_slash 47) with true. cbn iota.
  rewrite path_state_read by exact (proj1 Hs). rewrite app_nil_l. cbn [path_state]. rewrite Hb.
  rewrite end_segment_segment by exact Hs. rewrite path_state_read by exact Hdc.
  cbn [path_state]. rewrite Hd, !app_nil_l. unfold end_segment. rewrite Hdd.
  unfold shorten. reflexivity.
Qed.

(** C31: Following the absolute link of the page's code sample, through
    the URL parser: for every request whose path is [/], the page shows
    [https://emojicon.online/svg?emoji=E&color=C], and a request (any
    method) for that URL is answered with exactly the icon the page
    previews, even though the URL parser re-encodes the query. *)
Theorem follow_code_sample_link req (env : Env) {Ctx : Type} (ctx : Ctx) :
  to_lower (req_pathname (url_request req)) = «"/"» ->
  exists E C resp,
    fetch req env ctx = Ok resp /\
    infix («"href=`https://emojicon.online/svg?emoji="» ++ E ++ «"&color="» ++ C ++
           «"` type=`image/svg+xml`&gt;</code>"») (resp_body resp) /\
    forall m,
      fetch {| http_method := m; http_origin := site_origin;
               http_target := «"/svg?emoji="» ++ E ++ «"&color="» ++ C |} env ctx =
      Ok {| resp_status := 200; resp_status_text := []; resp_headers := [(content_type, «"image/svg+xml"»)];
            resp_body := generateFaviconSVG (request_emoji (url_request req))
                                            (request_color (url_request req)) |}.
Proof.
  intros Hp. set (r := url_request req) in *.
  destruct (handleSvg_page r Hp) as (E & C & resp & HE & HC & Hr & _ & _ & _ & _ & Hcode).
  exists E, C, resp. split; [exact Hr|]. split; [exact Hcode|]. intros m.
  pose proof (request_emoji_usv r) as He. pose proof (request_color_usv r) as Hc.
  pose proof (search_params_link _ _ E C He Hc HE HC) as Hq. cbn [search_params runtime_codec] in Hq.
  destruct He as [Hue _], Hc as [Huc _].
  set (Q := «"emoji="» ++ E ++ «"&color="» ++ C) in *.
  assert (HQ : Forall (fun u => 0x21 <= u <= 0x7E /\ u <> 35) Q).
  { unfold Q. apply Forall_app. split; [compute_done|]. apply Forall_app.
    split; [exact (encode_uri_component_printable _ _ Hue HE)|].
    apply Forall_app. split; [compute_done|]. exact (encode_uri_component_printable _ _ Huc HC). }
  assert (Hs : Forall scalar Q).
  { eapply Forall_impl; [|exact HQ]. intros u Hu. cbn beta in Hu. split; [lia|]. unfold surrogate. lia. }
  assert (H35 : 35 ∉ Q).
  { rewrite list_elem_of_In. intros Hin. rewrite Forall_forall in HQ. destruct (HQ 35 Hin). done. }
  unfold fetch. replace («"/svg?emoji="» ++ E ++ «"&color="» ++ C) with (47 :: «"svg"» ++ 63 :: Q)
    by (unfold Q; lit_eval; reflexivity).
  rewrite url_request_query by (exact segment_ok_svg || exact HQ). rewrite handleSvg_svg by reflexivity.
  unfold request_emoji at 1, request_color at 1. cbn [req_query search_params runtime_codec].
  rewrite query_state_search_params, utf16_encode_ascii, Hq by (done || (eapply Forall_impl; [|exact HQ]; cbn beta; lia)).
  rewrite (proj1 (params_get_link _ _)), (proj2 (params_get_link _ _)).
  by rewrite !or_default_some by (apply request_emoji_nonempty || apply request_color_nonempty).
Qed.

(** ** Witnesses *)

Lemma handleSvg_total_witness : exists resp, handleSvg (get «"/favicon.ico"» «"emoji=x"») = Ok resp.
Proof. apply handleSvg_total. Defined.

Lemma follow_generate_link_witness :
  let r := get «"/"» «"emoji=%F0%9F%94%A5&color=red"» in
  to_lower (req_pathname r) = «"/"» /\
  exists E C resp,
    handleSvg r = Ok resp /\
    infix («"/svg?emoji="» ++ E ++ «"&color="» ++ C ++ «"`>Generate Favicon</a>"») (resp_body resp) /\
    forall m,
      handleSvg {| req_method := m; req_pathname := «"/svg"»;
                   req_query := «"emoji="» ++ E ++ «"&color="» ++ C |} =
      Ok {| resp_status := 200; resp_status_text := []; resp_headers := [(content_type, «"image/svg+xml"»)];
            resp_body := generateFaviconSVG (request_emoji r) (request_color r) |} /\
      infix (generateFaviconSVG (request_emoji r) (request_color r)) (resp_body resp).
Proof. intros r. split; [reflexivity | apply follow_generate_link; reflexivity]. Defined.

Lemma svg_route_witness :
  let r := get «"/SVG"» «"emoji=%E2%AD%90&color=gold"» in
  to_lower (req_pathname r) = «"/svg"» /\
  handleSvg r = Ok {| resp_status := 200; resp_status_text := []; resp_headers := [(content_type, «"image/svg+xml"»)];
                      resp_body := generateFaviconSVG (request_emoji r) (request_color r) |}.
Proof. intros r. split; [reflexivity | apply svg_route; reflexivity]. Defined.

Lemma page_route_witness :
  let r := get «"/"» «"color=red"» in
  to_lower (req_pathname r) = «"/"» /\
  exists E C resp,
    encode_component (request_emoji r) = Ok E /\ encode_component (request_color r) = Ok C /\
    handleSvg r = Ok resp /\ resp_status resp = 200 /\
    resp_headers resp = [(content_type, «"text/html"»)] /\
    infix (generateFaviconSVG (request_emoji r) (request_color r)) (resp_body resp) /\
    infix («"/svg?emoji="» ++ E ++ «"&color="» ++ C ++ «"`>Generate Favicon</a>"») (resp_body resp) /\
    infix («"href=`https://emojicon.online/svg?emoji="» ++ E ++ «"&color="» ++ C ++
           «"` type=`image/svg+xml`&gt;</code>"») (resp_body resp).
Proof. intros r. split; [reflexivity | apply page_route; reflexivity]. Defined.

Lemma handleSvg_not_found_witness :
  let r := get «"/svg/"» «"emoji=x"» in
  to_lower (req_pathname r) <> «"/svg"» /\ to_lower (req_pathname r) <> «"/"» /\
  handleSvg r = Ok {| resp_status := 404; resp_status_text := []; resp_headers := [(content_type, text_plain_utf8)];
                      resp_body := not_found_body |}.
Proof.
  intros r. assert (H1 : to_lower (req_pathname r) <> «"/svg"») by (vm_compute; discriminate).
  assert (H2 : to_lower (req_pathname r) <> «"/"») by (vm_compute; discriminate).
  split; [exact H1|]. split; [exact H2|]. exact (handleSvg_not_found r H1 H2).
Defined.

Lemma handleSvg_path_case_witness :
  let r1 := get «"/SVG"» «"emoji=x"» in
  let r2 := {| req_method := «"POST"»; req_pathname := «"/svg"»; req_query := «"emoji=x"» |} in
  to_lower (req_pathname r1) = to_lower (req_pathname r2) /\ req_query r1 = req_query r2 /\
  handleSvg r1 = handleSvg r2.
Proof. intros r1 r2. split; [reflexivity|]. split; [reflexivity|]. apply handleSvg_path_case; reflexivity. Defined.

(** A lone surrogate as glyph: the renderer throws the URIError. *)
Lemma html_renderer_total_witness :
  units_ok [0xD83D] /\ units_ok «"red"» /\
  match generateHtmlResponse [0xD83D] «"red"» «"<svg/>"» with
  | Ok _ => well_formed [0xD83D] /\ well_formed «"red"»
  | Throw e => e = URIError /\ ~ (well_formed [0xD83D] /\ well_formed «"red"»)
  end.
Proof.
  assert (H1 : units_ok [0xD83D]) by compute_done. assert (H2 : units_ok «"red"») by compute_done.
  split; [exact H1|]. split; [exact H2|]. exact (html_renderer_total _ _ «"<svg/>"» H1 H2).
Defined.

Lemma html_page_links_witness :
  let page := html_t0 ++ «"%F0%9F%A4%93%F0%9F%8C%8D"» ++ html_t1 ++ «"a%20b"» ++ html_t2 ++ «"red"» ++
              html_t3 ++ «"<svg/>"» ++ html_t4 ++ «"a%20b"» ++ html_t5 ++ «"red"» ++ html_t6 in
  encode_component «"a b"» = Ok «"a%20b"» /\ encode_component «"red"» = Ok «"red"» /\
  generateHtmlResponse «"a b"» «"red"» «"<svg/>"» = Ok page /\
  infix «"<svg/>"» page /\
  infix («"/svg?emoji="» ++ «"a%20b"» ++ «"&color="» ++ «"red"» ++ «"`>Generate Favicon</a>"») page /\
  infix («"href=`https://emojicon.online/svg?emoji="» ++ «"a%20b"» ++ «"&color="» ++ «"red"» ++
         «"` type=`image/svg+xml`&gt;</code>"») page.
Proof.
  intros page.
  assert (H1 : encode_component «"a b"» = Ok «"a%20b"») by (vm_compute; reflexivity).
  assert (H2 : encode_component «"red"» = Ok «"red"») by (vm_compute; reflexivity).
  assert (H3 : generateHtmlResponse «"a b"» «"red"» «"<svg/>"» = Ok page) by (vm_compute; reflexivity).
  split; [exact H1|]. split; [exact H2|]. split; [exact H3|].
  exact (html_page_links _ _ _ _ _ _ H1 H2 H3).
Defined.

Lemma serveHtml_lone_surrogate_witness :
  units_ok [0xD83D] /\ ~ well_formed [0xD83D] /\
  (serveHtml [0xD83D] «"red"» = Throw URIError /\
   exists resp, fetch (http_get «"/?emoji=%ED%A0%BD"») mkEnv tt = Ok resp /\
     infix («"text-anchor=`middle`>"» ++ [0xFFFD; 0xFFFD; 0xFFFD] ++ «"</text>"») (resp_body resp)).
Proof.
  assert (H1 : units_ok [0xD83D]) by compute_done. assert (H2 : ~ well_formed [0xD83D]) by compute_done.
  split; [exact H1|]. split; [exact H2|]. exact (serveHtml_lone_surrogate _ _ mkEnv tt H1 H2).
Defined.

Lemma site_favicon_link_witness :
  to_lower (req_pathname (url_request (http_get «"/?emoji=x"»))) = «"/"» /\
  exists resp, fetch (http_get «"/?emoji=x"») mkEnv tt = Ok resp /\
    infix «"<link rel=`icon` href=`https://emojicon.online/svg?emoji=%F0%9F%A4%93%F0%9F%8C%8D&color=skyblue` type=`image/svg+xml`>"»
      (resp_body resp).
Proof. split; [reflexivity | apply site_favicon_link; reflexivity]. Defined.

Lemma follow_code_sample_link_witness :
  let req := http_get «"/?emoji=%F0%9F%94%A5&color=red"» in
  to_lower (req_pathname (url_request req)) = «"/"» /\
  exists E C resp,
    fetch req mkEnv tt = Ok resp /\
    infix («"href=`https://emojicon.online/svg?emoji="» ++ E ++ «"&color="» ++ C ++
           «"` type=`image/svg+xml`&gt;</code>"») (resp_body resp) /\
    forall m,
      fetch {| http_method := m; http_origin := site_origin;
               http_target := «"/svg?emoji="» ++ E ++ «"&color="» ++ C |} mkEnv tt =
      Ok {| resp_status := 200; resp_status_text := []; resp_headers := [(content_type, «"image/svg+xml"»)];
            resp_body := generateFaviconSVG (request_emoji (url_request req))
                                            (request_color (url_request req)) |}.
Proof.
  intros req. assert (H : to_lower (req_pathname (url_request req)) = «"/"») by (vm_compute; reflexivity).
  split; [exact H|]. exact (follow_code_sample_link req mkEnv tt H).
Defined.

Lemma default_parameters_witness :
  let q := «"emoji=&size=3"» in
  (params_get «"emoji"» (search_params q) = None \/ params_get «"emoji"» (search_params q) = Some []) /\
  (params_get «"color"» (search_params q) = None \/ params_get «"color"» (search_params q) = Some []) /\
  exists E C,
    encode_component default_emoji = Ok E /\ encode_component default_color = Ok C /\
    handleSvg {| req_method := «"GET"»; req_pathname := «"/"»; req_query := q |} =
    handleSvg {| req_method := «"GET"»; req_pathname := «"/"»; req_query := «"emoji="» ++ E ++ «"&color="» ++ C |}.
Proof.
  intros q.
  assert (H1 : params_get «"emoji"» (search_params q) = None \/ params_get «"emoji"» (search_params q) = Some [])
    by (right; vm_compute; reflexivity).
  assert (H2 : params_get «"color"» (search_params q) = None \/ params_get «"color"» (search_params q) = Some [])
    by (left; vm_compute; reflexivity).
  split; [exact H1|]. split; [exact H2|]. exact (default_parameters _ _ _ H1 H2).
Defined.

(** The glyph [<script>alert(1)</script>]. *)
Lemma glyph_script_injection_witness :
  let g := «"<script>alert(1)</script>"» in
  usv g /\ g <> [] /\ encode_uri_component g = Ok «"%3Cscript%3Ealert(1)%3C%2Fscript%3E"» /\
  exists resp, fetch (http_get («"/?emoji="» ++ «"%3Cscript%3Ealert(1)%3C%2Fscript%3E"»)) mkEnv tt = Ok resp /\
    infix («"text-anchor=`middle`>"» ++ g ++ «"</text></svg>"») (resp_body resp).
Proof.
  intros g. assert (H1 : usv g) by compute_done. assert (H2 : g <> []) by discriminate.
  assert (H3 : encode_uri_component g = Ok «"%3Cscript%3Ealert(1)%3C%2Fscript%3E"») by (vm_compute; reflexivity).
  split; [exact H1|]. split; [exact H2|]. split; [exact H3|].
  exact (glyph_script_injection _ _ mkEnv tt H1 H2 H3).
Defined.

(** [\x\%2E%2e/svg] is [/svg]. *)
Lemma path_normalisation_routes_witness :
  is_slash 92 = true /\ is_slash 92 = true /\ is_slash 47 = true /\
  segment_ok «"x"» /\ double_dot «"%2E%2e"» = true /\
  Forall (fun c => url_code_point path_set c /\ is_slash c = false) «"%2E%2e"» /\
  Forall (fun c => 0x21 <= c <= 0x7E) «"svg"» /\
  url_request {| http_method := «"GET"»; http_origin := site_origin;
                 http_target := 92 :: «"x"» ++ 92 :: «"%2E%2e"» ++ 47 :: «"svg"» |} =
  url_request {| http_method := «"GET"»; http_origin := site_origin; http_target := 47 :: «"svg"» |}.
Proof.
  assert (H1 : is_slash 92 = true) by reflexivity. assert (H2 : is_slash 47 = true) by reflexivity.
  assert (H3 : segment_ok «"x"») by (unfold segment_ok, url_code_point; compute_done).
  assert (H4 : double_dot «"%2E%2e"» = true) by reflexivity.
  assert (H5 : Forall (fun c => url_code_point path_set c /\ is_slash c = false) «"%2E%2e"»)
    by (unfold url_code_point; compute_done).
  assert (H6 : Forall (fun c => 0x21 <= c <= 0x7E) «"svg"») by compute_done.
  split_and!; try assumption.
  exact (path_normalisation_routes _ _ _ _ _ _ _ _ H1 H1 H2 H3 H4 H5 H6).
Defined.

End Worker.
